(** * Semantic entity matching: the adaptive gate and the batch scheduler

    A shallow embedding of [lib/dynamic_semaphore.py],
    [lib/async_batch_processor.py] and the error triage of [lib/ingest.py],
    with the properties of the specification stated over it.

    Python integers are [Z].  The gate's [decrease_factor] is a Python
    float; it is embedded as an exact rational ([Q]), so products are not
    rounded.  Every concrete value used below (0.5, 0.75 and small
    capacities) is a dyadic rational on which binary64 arithmetic is exact. *)

From Stdlib Require Import ZArith QArith Qround Qminmax Qpower Lia.
From stdpp Require Import base list strings pretty.

Local Open Scope Z_scope.

(** ** Part I: the embedding *)

(** *** [lib/dynamic_semaphore.py] *)

Module DynamicSemaphore.

(** Fields of the class ([self._capacity] and the like, without the
    leading underscore).  [_condition] only serialises the methods and
    [_log_level] only selects a logger; neither is state of the AIMD
    rule. *)
Record t : Type := mk {
  capacity : Z;
  min_value : Z;
  increase_threshold : Z;
  decrease_factor : Q;
  success_count : Z;
  current_count : Z
}.

Inductive ValueError : Type :=
| BadDecreaseFactor
| InitialBelowMin (initial minimum : Z).

Definition Qltb (x y : Q) : bool := negb (Qle_bool y x).

(** Python's [int(x)] on a float: truncation toward zero. *)
Definition py_int (x : Q) : Z := Z.quot (Qnum x) (Z.pos (Qden x)).

(** [__init__]: the two checks, in the order of the source, then the
    field assignments. *)
Definition init (decrease_factor : Q) (increase_threshold : option Z)
    (initial min_value : Z) : ValueError + t :=
  if negb (Qltb 0 decrease_factor && Qltb decrease_factor 1) then
    inl BadDecreaseFactor
  else if initial <? min_value then
    inl (InitialBelowMin initial min_value)
  else
    inr {| capacity := initial;
           min_value := min_value;
           increase_threshold :=
             match increase_threshold with
             | Some th => th
             | None => initial * 10
             end;
           decrease_factor := decrease_factor;
           success_count := 0;
           current_count := 0 |}.

(** [acquire]: [wait_for] lets the caller through only when
    [current_count < capacity]; [None] is a caller that stays
    suspended in the condition variable. *)
Definition acquire (g : t) : option t :=
  if current_count g <? capacity g then
    Some {| capacity := capacity g;
            min_value := min_value g;
            increase_threshold := increase_threshold g;
            decrease_factor := decrease_factor g;
            success_count := success_count g;
            current_count := current_count g + 1 |}
  else None.

Definition release (g : t) : t :=
  {| capacity := capacity g;
     min_value := min_value g;
     increase_threshold := increase_threshold g;
     decrease_factor := decrease_factor g;
     success_count := success_count g;
     current_count := current_count g - 1 |}.

Definition on_throttle (g : t) : t :=
  let old_capacity := capacity g in
  let new_capacity :=
    Z.max (min_value g) (py_int (inject_Z (capacity g) * decrease_factor g)) in
  if new_capacity <? old_capacity then
    {| capacity := new_capacity;
       min_value := min_value g;
       increase_threshold := increase_threshold g;
       decrease_factor := decrease_factor g;
       success_count := 0;
       current_count := current_count g |}
  else g.

Definition on_success (g : t) : t :=
  let sc := success_count g + 1 in
  if increase_threshold g <=? sc then
    {| capacity := capacity g + 1;
       min_value := min_value g;
       increase_threshold := increase_threshold g;
       decrease_factor := decrease_factor g;
       success_count := 0;
       current_count := current_count g |}
  else
    {| capacity := capacity g;
       min_value := min_value g;
       increase_threshold := increase_threshold g;
       decrease_factor := decrease_factor g;
       success_count := sc;
       current_count := current_count g |}.

(** The four operations as events, and the states a gate can reach.
    An [acquire] event is taken only when its guard lets it through. *)
Inductive op : Type := Acquire | Release | OnThrottle | OnSuccess.

Definition apply_op (o : op) (g : t) : option t :=
  match o with
  | Acquire => acquire g
  | Release => Some (release g)
  | OnThrottle => Some (on_throttle g)
  | OnSuccess => Some (on_success g)
  end.

Fixpoint apply_ops (os : list op) (g : t) : option t :=
  match os with
  | [] => Some g
  | o :: os' =>
      match apply_op o g with
      | Some g' => apply_ops os' g'
      | None => None
      end
  end.

Definition quiescent_invariant (g : t) : Prop :=
  current_count g <= capacity g /\ min_value g <= capacity g.



End DynamicSemaphore.

(** *** [lib/async_batch_processor.py] *)

Module AsyncBatchProcessor.

Inductive RetryStrategy : Type :=
| NONE | IMMEDIATE | FIXED | EXPONENTIAL | JITTERED.

(** An exception object: the names of the classes of its type (its
    method resolution order, which is what [isinstance] consults), the
    [response["Error"]["Code"]] of a botocore [ClientError] when there
    is one, and its text. *)
Record PyException : Type := {
  exc_mro : list string;
  exc_code : option string;
  exc_msg : string
}.

Definition isinstance_of (e : PyException) (cls : string) : bool :=
  bool_decide (cls ∈ exc_mro e).

(** [isinstance(e, classes)] with a tuple of classes. *)
Definition isinstance (e : PyException) (classes : list string) : bool :=
  existsb (isinstance_of e) classes.

(** What [_calculate_backoff] returns: a number of seconds, or a draw of
    [random.uniform(lo, hi)], which lies between [lo] and [hi]. *)
Inductive Backoff : Type :=
| Seconds (q : Q)
| Uniform (lo hi : Q).

(** [backoff > 0], the guard of [asyncio.sleep]. *)
Definition backoff_positive (b : Backoff) : bool :=
  match b with
  | Seconds q => DynamicSemaphore.Qltb 0 q
  | Uniform lo _ => DynamicSemaphore.Qltb 0 lo
  end.

Section Processor.

(** [A]: payloads other than [None] and exception objects;
    [St]: the state the processing function reads and writes;
    [C]: the state of the progress sink. *)
Context {A St C : Type}.

(** The Python values that flow through the processor: inputs, outputs
    and the contents of [results]. *)
Inductive PyObj : Type :=
| PyNone
| PyExc (e : PyException)
| PyVal (a : A).

(** [isinstance(result, Exception)]. *)
Definition is_exception (v : PyObj) : bool :=
  match v with
  | PyExc _ => true
  | _ => false
  end.

(** How an awaited call ends: it returns a value or raises an
    [Exception]. *)
Inductive Outcome : Type :=
| Return (v : PyObj)
| Raise (e : PyException).

Definition ProcessorFunc : Type := PyObj -> St -> Outcome * St.

(** A progress callback: given the delta, it updates the sink and may
    raise. *)
Definition ProgressCallback : Type := Z -> C -> option PyException * C.

Record ProcessorConfig : Type := {
  max_attempts : Z;
  num_workers : Z;
  retry_strategy : RetryStrategy;
  handle_throttling : bool;
  on_progress : option ProgressCallback;
  retryable_exceptions : option (list string);
  is_throttling : option (PyException -> bool)
}.

Definition post_init (cfg : ProcessorConfig) : ProcessorConfig :=
  match retryable_exceptions cfg with
  | None =>
      {| max_attempts := max_attempts cfg;
         num_workers := num_workers cfg;
         retry_strategy := retry_strategy cfg;
         handle_throttling := handle_throttling cfg;
         on_progress := on_progress cfg;
         retryable_exceptions := Some ["ClientError"];
         is_throttling := is_throttling cfg |}
  | Some _ => cfg
  end.

Record WorkItem : Type := {
  index : nat;
  data : PyObj;
  remaining_attempts : Z
}.

Record ProcessorResult : Type := {
  results : list PyObj;
  total_processed : Z;
  total_failed : Z;
  total_retried : Z
}.

(** What [process] and its workers share: the queue, the [results]
    list, the two counters of [self], and the states of the
    processing function and of the progress sink. *)
Record State : Type := {
  st_queue : list WorkItem;
  st_results : list PyObj;
  st_total_retried : Z;
  st_total_failed : Z;
  st_op : St;
  st_cb : C
}.

(** Where a worker coroutine stands: about to call [get_nowait],
    suspended in [await self._processor_func(...)], suspended in
    [await asyncio.sleep(backoff)], or returned. *)
Inductive Task : Type :=
| AtDequeue
| AwaitOp (w : WorkItem)
| AwaitSleep (w : WorkItem)
| Finished.

Definition is_finished (t : Task) : bool :=
  match t with
  | Finished => true
  | _ => false
  end.

Definition set_queue (q : list WorkItem) (s : State) : State :=
  {| st_queue := q; st_results := st_results s;
     st_total_retried := st_total_retried s;
     st_total_failed := st_total_failed s;
     st_op := st_op s; st_cb := st_cb s |}.

Definition set_op (o : St) (s : State) : State :=
  {| st_queue := st_queue s; st_results := st_results s;
     st_total_retried := st_total_retried s;
     st_total_failed := st_total_failed s;
     st_op := o; st_cb := st_cb s |}.

Definition set_cb (c : C) (s : State) : State :=
  {| st_queue := st_queue s; st_results := st_results s;
     st_total_retried := st_total_retried s;
     st_total_failed := st_total_failed s;
     st_op := st_op s; st_cb := c |}.

(** [results[work_item.index] = v]. *)
Definition store_result (w : WorkItem) (v : PyObj) (s : State) : State :=
  {| st_queue := st_queue s;
     st_results := <[index w := v]> (st_results s);
     st_total_retried := st_total_retried s;
     st_total_failed := st_total_failed s;
     st_op := st_op s; st_cb := st_cb s |}.

(** [results[work_item.index] = error; self._total_failed += 1]. *)
Definition record_failure (w : WorkItem) (e : PyException) (s : State)
    : State :=
  {| st_queue := st_queue s;
     st_results := <[index w := PyExc e]> (st_results s);
     st_total_retried := st_total_retried s;
     st_total_failed := st_total_failed s + 1;
     st_op := st_op s; st_cb := st_cb s |}.

Definition decrement (w : WorkItem) : WorkItem :=
  {| index := index w; data := data w;
     remaining_attempts := remaining_attempts w - 1 |}.

(** [work_item.remaining_attempts -= 1; queue.put_nowait(work_item);
    self._total_retried += 1]. *)
Definition requeue (w : WorkItem) (s : State) : State :=
  {| st_queue := st_queue s ++ [decrement w];
     st_results := st_results s;
     st_total_retried := st_total_retried s + 1;
     st_total_failed := st_total_failed s;
     st_op := st_op s; st_cb := st_cb s |}.

Section WithConfig.

Variable processor_func : ProcessorFunc.
Variable config : ProcessorConfig.

Definition _calculate_backoff (remaining_attempts : Z) : Backoff :=
  match retry_strategy config with
  | IMMEDIATE => Seconds 0
  | FIXED => Seconds 1
  | EXPONENTIAL =>
      let attempt_number := max_attempts config - remaining_attempts in
      Seconds (Qmin (Qpower 2 attempt_number) 60)
  | _ => Uniform (1 # 2) 2
  end.

(** The progress report of the success path: the callback runs
    inside its own [try]; an exception it raises is logged and
    dropped. *)
Definition report_progress (s : State) : State :=
  match on_progress config with
  | None => s
  | Some callback =>
      match callback 1 (st_cb s) with
      | (None, c) => set_cb c s
      | (Some _, c) => set_cb c s
      end
  end.

(** The first lines of the [except] branch of [_worker]. *)
Definition is_retryable (e : PyException) : bool :=
  match retryable_exceptions config with
  | Some (c :: cs) => isinstance e (c :: cs)
  | _ => false
  end.

(** The throttling test at the head of [_handle_retryable_error]. *)
Definition throttled (error : PyException) : bool :=
  match is_throttling config with
  | Some p => p error
  | None =>
      if isinstance_of error "ClientError" then
        bool_decide (exc_code error = Some "ThrottlingException")
      else false
  end.

Definition should_retry (error : PyException) (w : WorkItem) : bool :=
  if throttled error then
    handle_throttling config && (1 <? remaining_attempts w)
  else 1 <? remaining_attempts w.

(** [_handle_retryable_error], up to its first suspension: the new
    shared state and where the worker stands next. *)
Definition _handle_retryable_error (error : PyException) (w : WorkItem)
    (s : State) : State * Task :=
  match retry_strategy config with
  | NONE => (record_failure w error s, AtDequeue)
  | _ =>
      if should_retry error w then
        if backoff_positive (_calculate_backoff (remaining_attempts w))
        then (s, AwaitSleep w)
        else (requeue w s, AtDequeue)
      else (record_failure w error s, AtDequeue)
  end.

(** The body of the [try] of [_worker] from the point where the
    awaited call ends. *)
Definition after_op (w : WorkItem) (o : Outcome) (s : State)
    : State * Task :=
  match o with
  | Return result => (report_progress (store_result w result s), AtDequeue)
  | Raise e =>
      if is_retryable e then _handle_retryable_error e w s
      else (record_failure w e s, AtDequeue)
  end.

(** One resumption of a worker coroutine, up to its next
    suspension. *)
Definition _worker (t : Task) (s : State) : State * Task :=
  match t with
  | AtDequeue =>
      match st_queue s with
      | [] => (s, Finished)
      | work_item :: q => (set_queue q s, AwaitOp work_item)
      end
  | AwaitOp w =>
      let '(o, ops) := processor_func (data w) (st_op s) in
      after_op w o (set_op ops s)
  | AwaitSleep w => (requeue w s, AtDequeue)
  | Finished => (s, Finished)
  end.

(** The event loop: the shared state and the worker tasks. *)
Definition Loop : Type := State * list Task.

Definition resume (k : nat) (l : Loop) : Loop :=
  match l.2 !! k with
  | Some t => let '(s, t') := _worker t l.1 in (s, <[k := t']> l.2)
  | None => l
  end.

(** The tasks that have not returned, by position. *)
Fixpoint live_from (k : nat) (ts : list Task) : list nat :=
  match ts with
  | [] => []
  | t :: ts' =>
      (if is_finished t then [] else [k]) ++ live_from (S k) ts'
  end.

Definition live (ts : list Task) : list nat := live_from 0 ts.

(** A schedule is the sequence of choices of the event loop: each
    number selects one of the tasks that are still live. *)
Fixpoint run (schedule : list nat) (l : Loop) : Loop :=
  match schedule with
  | [] => l
  | c :: schedule' =>
      match live l.2 with
      | [] => l
      | k :: ks =>
          run schedule'
            (resume (nth (c mod length (k :: ks))%nat (k :: ks) k) l)
      end
  end.

Definition enqueue_all (items : list PyObj) : list WorkItem :=
  imap (fun i item =>
          {| index := i; data := item;
             remaining_attempts := max_attempts config |}) items.

Definition start (items : list PyObj) (s0 : St) (c0 : C) : Loop :=
  ({| st_queue := enqueue_all items;
      st_results := replicate (length items) PyNone;
      st_total_retried := 0;
      st_total_failed := 0;
      st_op := s0; st_cb := c0 |},
   replicate (Z.to_nat (num_workers config)) AtDequeue).

(** The tail of [process], after [gather]. *)
Definition finish (items : list PyObj) (s : State) : ProcessorResult :=
  let total_failed :=
    Z.of_nat (sum_list_with
                (fun result => if is_exception result then 1%nat else 0%nat)
                (st_results s)) in
  {| results := st_results s;
     total_processed := Z.of_nat (length items) - total_failed;
     total_failed := total_failed;
     total_retried := st_total_retried s |}.

(** [process]: [None] when the schedule ends before every worker has
    returned. *)
Definition process (items : list PyObj) (schedule : list nat)
    (s0 : St) (c0 : C) : option ProcessorResult :=
  let l := run schedule (start items s0 c0) in
  if forallb is_finished l.2 then Some (finish items l.1) else None.

End WithConfig.

End Processor.

Arguments PyObj : clear implicits.
Arguments Outcome : clear implicits.
Arguments ProcessorFunc : clear implicits.
Arguments ProgressCallback : clear implicits.
Arguments ProcessorConfig : clear implicits.
Arguments WorkItem : clear implicits.
Arguments ProcessorResult : clear implicits.
Arguments State : clear implicits.
Arguments Task : clear implicits.
Arguments Loop : clear implicits.

End AsyncBatchProcessor.

(** *** [lib/ingest.py]: the triage of a bulk response and the
    processor that [ingest] builds *)

Module Ingest.

Import AsyncBatchProcessor.

Definition BATCH_SIZE : nat := 50.
Definition NUM_WORKERS : Z := 10.

(** The per-item part of a bulk response: [item["create"]] when the
    action was a create, with its [_id] and its [error] object when the
    action failed. *)
Record BulkError : Type := {
  error_type : string;
  error_reason : string
}.

Record CreateResult : Type := {
  doc_id : string;
  error : option BulkError
}.

Record BulkResponse : Type := {
  errors : bool;
  items : list (option CreateResult)
}.

(** The [errors] dictionary of [_parse_bulk_errors], in insertion order:
    error type, then document id, then the error object. *)
Definition ErrorTable : Type := list (string * list (string * BulkError)).

Fixpoint set_doc (d : string) (e : BulkError)
    (row : list (string * BulkError)) : list (string * BulkError) :=
  match row with
  | [] => [(d, e)]
  | (d', e') :: row' =>
      if String.eqb d' d then (d', e) :: row' else (d', e') :: set_doc d e row'
  end.

Fixpoint track (ty d : string) (e : BulkError) (tbl : ErrorTable)
    : ErrorTable :=
  match tbl with
  | [] => [(ty, [(d, e)])]
  | (ty', row) :: tbl' =>
      if String.eqb ty' ty then (ty', set_doc d e row) :: tbl'
      else (ty', row) :: track ty d e tbl'
  end.

(** The loop over [response["items"]]: the reporter messages, the table
    and [error_count]. *)
Fixpoint triage (its : list (option CreateResult))
    (acc : list string * ErrorTable * Z) : list string * ErrorTable * Z :=
  match its with
  | [] => acc
  | item :: its' =>
      match item with
      | Some {| doc_id := d; error := Some e |} =>
          let '(msgs, tbl, error_count) := acc in
          if String.eqb (error_type e) "version_conflict_engine_exception" then
            triage its'
              (msgs ++ ["  Error ignored while processing item ID '" +:+ d +:+
                        "', use --log-level INFO for more details"],
               tbl, error_count)
          else
            triage its' (msgs, track (error_type e) d e tbl, error_count + 1)
      | _ => triage its' acc
      end
  end.

(** [repr] of a list of plain strings. *)
Definition repr_list (l : list string) : string :=
  "[" +:+ String.concat ", " (map (fun s => "'" +:+ s +:+ "'") l) +:+ "]".

(** A plain [Exception(msg)]. *)
Definition plain_exception (msg : string) : PyException :=
  {| exc_mro := ["Exception"; "BaseException"; "object"];
     exc_code := None;
     exc_msg := msg |}.

(** [_parse_bulk_errors]: the messages sent to the reporter, and the
    exception raised, if any. *)
Definition _parse_bulk_errors (response : BulkResponse) (batch_num : Z)
    : list string * option PyException :=
  if negb (errors response) then ([], None)
  else
    let '(msgs, tbl, error_count) := triage (items response) ([], [], 0) in
    if 0 <? error_count then
      let error_types := map fst tbl in
      let error_msg :=
        "Batch " +:+ pretty batch_num +:+ " has " +:+ pretty error_count +:+
        " errors (" +:+ repr_list error_types +:+ ")" in
      (msgs ++ ["  " +:+ error_msg; "  Use --log-level WARNING for more details"],
       Some (plain_exception error_msg))
    else (msgs, None).

Section Indexer.

(** [Row]: a record of the table.  [Cluster]: the search cluster as
    [process_batch] sees it. *)
Context {Row Cluster C : Type}.

Record BatchItem : Type := {
  batch_rows : list Row;
  batch_num : Z;
  start_idx : Z
}.

(** What flows through the processor of [ingest]: a batch goes in, the
    dictionary [{"batch_num": n, "success": True}] comes out. *)
Inductive Payload : Type :=
| Batch (b : BatchItem)
| Indexed (batch_num : Z) (success : bool).

(** What a call of [process_batch] on anything but a batch raises. *)
Definition attribute_error : PyException :=
  {| exc_mro := ["AttributeError"; "Exception"; "BaseException"; "object"];
     exc_code := None;
     exc_msg := "object has no attribute 'batch_rows'" |}.

(** The request of one batch ([_create_bulk_body] followed by
    [opensearch.bulk_index]): the cluster answers or the call
    raises. *)
Variable bulk_index : BatchItem -> Cluster -> (PyException + BulkResponse) * Cluster.

(** The state of the processing function: the cluster and the
    messages the reporter has received. *)
Definition process_batch : ProcessorFunc Payload (Cluster * list string) :=
  fun item st =>
    match item with
    | PyVal (Batch batch_item) =>
        match bulk_index batch_item st.1 with
        | (inl e, cl) => (Raise e, (cl, st.2))
        | (inr response, cl) =>
            match _parse_bulk_errors response (batch_num batch_item) with
            | (msgs, Some e) => (Raise e, (cl, st.2 ++ msgs))
            | (msgs, None) =>
                (Return (PyVal (Indexed (batch_num batch_item) true)),
                 (cl, st.2 ++ msgs))
            end
        end
    | _ => (Raise attribute_error, st)
    end.

Fixpoint make_batches (fuel : nat) (num i : Z) (rows : list Row)
    : list BatchItem :=
  match fuel, rows with
  | _, [] => []
  | O, _ => []
  | S fuel', _ =>
      {| batch_rows := take BATCH_SIZE rows; batch_num := num; start_idx := i |}
      :: make_batches fuel' (num + 1) (i + Z.of_nat BATCH_SIZE)
           (drop BATCH_SIZE rows)
  end.

(** [batches] as [ingest] builds it. *)
Definition batches (rows : list Row) : list BatchItem :=
  make_batches (length rows) 1 0 rows.

(** The [ProcessorConfig] of [ingest]. *)
Definition ingest_config (max_attempts : Z)
    (on_progress : ProgressCallback C) : ProcessorConfig C :=
  post_init
    {| max_attempts := max_attempts;
       num_workers := NUM_WORKERS;
       retry_strategy := JITTERED;
       handle_throttling := true;
       on_progress := Some on_progress;
       retryable_exceptions := None;
       is_throttling := None |}.

(** [processor.process()] as [ingest] runs it on a non-empty table. *)
Definition ingest_process (max_attempts : Z) (on_progress : ProgressCallback C)
    (rows : list Row) (schedule : list nat) (cl : Cluster) (c0 : C)
    : option (ProcessorResult Payload) :=
  process process_batch (ingest_config max_attempts on_progress)
    (map (fun b => PyVal (Batch b)) (batches rows)) schedule (cl, []) c0.

End Indexer.

Arguments BatchItem : clear implicits.
Arguments Payload : clear implicits.

End Ingest.

(** *** Notions used to state the properties of the processor *)

Module ProcessorSpec.

Import AsyncBatchProcessor.

Section Spec.

Context {A St C : Type}.
Variable processor_func : ProcessorFunc A St.
Variable config : ProcessorConfig C.

(** The work item a suspended worker holds. *)
Definition held (t : Task A) : option (WorkItem A) :=
  match t with
  | AwaitOp w | AwaitSleep w => Some w
  | _ => None
  end.

(** A work item is pending when it sits in the queue or a worker
    holds it. *)
Definition pending (l : Loop A St C) (w : WorkItem A) : Prop :=
  w ∈ st_queue l.1 \/ exists j t, l.2 !! j = Some t /\ held t = Some w.

(** What a call leaves in [results]: the value returned or the
    exception raised. *)
Definition outcome_value (o : Outcome A) : PyObj A :=
  match o with
  | Return v => v
  | Raise e => PyExc e
  end.

(** [v] is the success value or the error of a call of the processing
    function on the [i]-th input. *)
Definition settled (items : list (PyObj A)) (i : nat) (v : PyObj A) : Prop :=
  exists x s, items !! i = Some x /\ v = outcome_value (processor_func x s).1.

Definition sleepers_can_retry (ts : list (Task A)) : Prop :=
  forall w, AwaitSleep w ∈ ts -> 1 < remaining_attempts w.

Record invariant (items : list (PyObj A)) (l : Loop A St C) : Prop := {
  inv_length : length (st_results l.1) = length items;
  inv_items : forall w, pending l w -> items !! index w = Some (data w);
  inv_live : st_queue l.1 <> [] ->
             exists j t, l.2 !! j = Some t /\ is_finished t = false;
  inv_slots : forall i, (i < length items)%nat ->
              (exists w, pending l w /\ index w = i) \/
              (exists v, st_results l.1 !! i = Some v /\ settled items i v)
}.

(** A bound on the resumptions a loop still needs: every retry a work
    item has left costs a dequeue, a call, a sleep and a re-enqueue. *)
Definition retries_left (w : WorkItem A) : nat :=
  Z.to_nat (remaining_attempts w - 1).

Definition queued_weight (w : WorkItem A) : nat := 4 * retries_left w + 4.

Definition task_weight (t : Task A) : nat :=
  match t with
  | AtDequeue => 1
  | AwaitOp w => 4 * retries_left w + 3
  | AwaitSleep w => 4 * retries_left w + 2
  | Finished => 0
  end.

Definition budget (l : Loop A St C) : nat :=
  sum_list_with queued_weight (st_queue l.1) + sum_list_with task_weight l.2.

(** The ways one resumption of a worker changes the shared state. *)
Inductive move (s : State A St C) : Task A -> State A St C -> Task A -> Prop :=
| move_exit :
    st_queue s = [] -> move s AtDequeue s Finished
| move_take w q :
    st_queue s = w :: q -> move s AtDequeue (set_queue q s) (AwaitOp w)
| move_settle w v s' :
    st_queue s' = st_queue s ->
    st_results s' = <[index w := v]> (st_results s) ->
    (exists x, v = outcome_value (processor_func (data w) x).1) ->
    move s (AwaitOp w) s' AtDequeue
| move_sleep w s' :
    st_queue s' = st_queue s ->
    st_results s' = st_results s ->
    1 < remaining_attempts w ->
    move s (AwaitOp w) s' (AwaitSleep w)
| move_retry w s' :
    st_queue s' = st_queue s ++ [decrement w] ->
    st_results s' = st_results s ->
    1 < remaining_attempts w ->
    move s (AwaitOp w) s' AtDequeue
| move_wake w s' :
    st_queue s' = st_queue s ++ [decrement w] ->
    st_results s' = st_results s ->
    move s (AwaitSleep w) s' AtDequeue.



(** Two states, and two loops, that differ at most in the state of
    the progress sink. *)
Definition same_state (s1 s2 : State A St C) : Prop :=
  st_queue s1 = st_queue s2 /\
  st_results s1 = st_results s2 /\
  st_total_retried s1 = st_total_retried s2 /\
  st_total_failed s1 = st_total_failed s2 /\
  st_op s1 = st_op s2.

Definition same_but_sink (l1 l2 : Loop A St C) : Prop :=
  same_state l1.1 l2.1 /\ l1.2 = l2.2.

(** The configuration with another progress callback. *)
Definition with_progress (cb : option (ProgressCallback C))
    : ProcessorConfig C :=
  {| max_attempts := max_attempts config;
     num_workers := num_workers config;
     retry_strategy := retry_strategy config;
     handle_throttling := handle_throttling config;
     on_progress := cb;
     retryable_exceptions := retryable_exceptions config;
     is_throttling := is_throttling config |}.

(** The state of a run on which no failure was recorded and no worker
    sleeps before a retry. *)
Definition no_failure_recorded (l : Loop A St C) : Prop :=
  st_total_failed l.1 = 0 /\ st_total_retried l.1 = 0 /\
  (forall w, AwaitSleep w ∉ l.2).

End Spec.


End ProcessorSpec.

(** *** Concrete configurations, operations and responses *)

Module Examples.

Import AsyncBatchProcessor ProcessorSpec Ingest.

(** [ProcessorConfig(max_attempts=m, num_workers=n)] with the defaults of
    the other fields. *)
Definition default_config (m n : Z) : ProcessorConfig unit :=
  post_init
    {| max_attempts := m;
       num_workers := n;
       retry_strategy := JITTERED;
       handle_throttling := true;
       on_progress := None;
       retryable_exceptions := None;
       is_throttling := None |}.


Definition value_error (msg : string) : PyException :=
  {| exc_mro := ["ValueError"; "Exception"; "BaseException"; "object"];
     exc_code := None;
     exc_msg := msg |}.

Definition type_error (msg : string) : PyException :=
  {| exc_mro := ["TypeError"; "Exception"; "BaseException"; "object"];
     exc_code := None;
     exc_msg := msg |}.

(** [x * 2] on numbers. *)
Definition double : ProcessorFunc Z unit :=
  fun x s =>
    match x with
    | PyVal a => (Return (PyVal (2 * a)), s)
    | _ => (Raise (type_error "unsupported operand type(s) for *"), s)
    end.

(** An operation that returns an exception object instead of raising
    it. *)
Definition returns_error : ProcessorFunc Z unit :=
  fun _ s => (Return (PyExc (value_error "returned")), s).

Definition throttling_error : PyException :=
  {| exc_mro := ["ClientError"; "Exception"; "BaseException"; "object"];
     exc_code := Some "ThrottlingException";
     exc_msg := "An error occurred (ThrottlingException)" |}.

Definition always_throttled : ProcessorFunc Z unit :=
  fun _ s => (Raise throttling_error, s).

(** An operation that is throttled on its first call and returns 2
    afterwards; its state is the number of calls made. *)
Definition throttled_once : ProcessorFunc Z nat :=
  fun _ calls =>
    match calls with
    | O => (Raise throttling_error, 1%nat)
    | S n => (Return (PyVal 2), S (S n))
    end.

(** [x * 2], with a [ValueError] on even numbers. *)
Definition even_fails : ProcessorFunc Z unit :=
  fun x s =>
    match x with
    | PyVal a =>
        if Z.even a then (Raise (value_error "even"), s)
        else (Return (PyVal (2 * a)), s)
    | _ => (Raise (type_error "unsupported operand type(s) for *"), s)
    end.

(** The default configuration with
    [retryable_exceptions = (ThrottlingError,)]. *)
Definition throttling_only_config (m n : Z) : ProcessorConfig unit :=
  post_init
    {| max_attempts := m;
       num_workers := n;
       retry_strategy := JITTERED;
       handle_throttling := true;
       on_progress := None;
       retryable_exceptions := Some ["ThrottlingError"];
       is_throttling := None |}.

(** A progress callback that raises on every call. *)
Definition failing_progress : ProgressCallback unit :=
  fun _ c => (Some (value_error "Progress callback failed"), c).

Definition quiet_progress : ProgressCallback unit :=
  fun _ c => (None, c).

(** A bulk response in which the only document was rejected by the
    mapping. *)
Definition rejected_response : BulkResponse :=
  {| errors := true;
     items := [Some {| doc_id := "0";
                       error := Some {| error_type := "mapper_parsing_exception";
                                        error_reason := "failed to parse" |} |}] |}.

(** A cluster that counts the bulk requests it receives and rejects
    each of them. *)
Definition rejecting_cluster
    : BatchItem unit -> nat -> (PyException + BulkResponse) * nat :=
  fun _ n => (inr rejected_response, S n).



End Examples.

(** *** Notions used to account for calls and retries *)

Module ProcessorLedger.

Import AsyncBatchProcessor ProcessorSpec.

Section Ledger.

Context {A St C : Type}.

(** A processing function instrumented with the number of calls made
    so far; the function itself sees the same state as before. *)
Definition counting (f : ProcessorFunc A St) : ProcessorFunc A (St * nat) :=
  fun x s => let '(o, s') := f x s.1 in (o, (s', S s.2)).

Definition calls (l : Loop A (St * nat) C) : nat := (st_op l.1).2.

Definition awaiting (t : Task A) : nat :=
  match t with
  | AwaitOp _ => 1
  | _ => 0
  end.

Definition held_retries (t : Task A) : nat :=
  match held t with
  | Some w => retries_left w
  | None => 0
  end.

(** The retries made so far plus the retries the pending items can
    still get. *)
Definition retry_potential {St' : Type} (l : Loop A St' C) : Z :=
  st_total_retried l.1 +
  Z.of_nat (sum_list_with retries_left (st_queue l.1) +
            sum_list_with held_retries l.2).

(** Calls made, plus the items still to be called, minus the
    retries. *)
Definition call_ledger (l : Loop A (St * nat) C) : Z :=
  Z.of_nat (calls l) + Z.of_nat (length (st_queue l.1)) +
  Z.of_nat (sum_list_with awaiting l.2) - st_total_retried l.1.

(** How the body of [_worker] ends after the awaited call, with the
    conditions of each branch. *)
Inductive after_call (config : ProcessorConfig C) (w : WorkItem A)
    (s : State A St C) : Outcome A -> State A St C * Task A -> Prop :=
| after_return v :
    after_call config w s (Return v)
      (report_progress config (store_result w v s), AtDequeue)
| after_failure e :
    is_retryable config e = false \/ retry_strategy config = NONE \/
    should_retry config e w = false ->
    after_call config w s (Raise e) (record_failure w e s, AtDequeue)
| after_sleep e :
    is_retryable config e = true -> retry_strategy config <> NONE ->
    should_retry config e w = true ->
    retry_strategy config <> IMMEDIATE ->
    after_call config w s (Raise e) (s, AwaitSleep w)
| after_requeue e :
    is_retryable config e = true ->
    should_retry config e w = true ->
    retry_strategy config = IMMEDIATE ->
    after_call config w s (Raise e) (requeue w s, AtDequeue).

(** No error the processing function raises can be retried: it is
    not retryable, or the strategy is [NONE], or it is a throttling
    error and [handle_throttling] is off. *)
Definition never_retries (f : ProcessorFunc A St)
    (config : ProcessorConfig C) : Prop :=
  forall x s e s', f x s = (Raise e, s') ->
    is_retryable config e = false \/ retry_strategy config = NONE \/
    (throttled config e = true /\ handle_throttling config = false).

(** Every call raises an error that is retried as long as attempts
    remain. *)
Definition always_retryable (f : ProcessorFunc A St)
    (config : ProcessorConfig C) : Prop :=
  retry_strategy config <> NONE /\
  forall x s, exists e s',
    f x s = (Raise e, s') /\ is_retryable config e = true /\
    (throttled config e = true -> handle_throttling config = true).

(** A loop in which no retry has been made and no worker sleeps
    before one. *)
Definition no_retry_recorded {St' : Type} (l : Loop A St' C) : Prop :=
  st_total_retried l.1 = 0 /\ (forall w, AwaitSleep w ∉ l.2).

(** A loop that was started on an empty input. *)
Definition idle {St' : Type} (l : Loop A St' C) : Prop :=
  st_queue l.1 = [] /\ st_results l.1 = [] /\ st_total_retried l.1 = 0 /\
  (forall t, t ∈ l.2 -> t = AtDequeue \/ t = Finished).

(** The outcome of a call does not depend on the state. *)
Definition stateless (f : ProcessorFunc A St) : Prop :=
  forall x s s', (f x s).1 = (f x s').1.


End Ledger.

End ProcessorLedger.

(** *** More concrete configurations *)

Module MoreExamples.

Import AsyncBatchProcessor ProcessorSpec Examples.

(** [ProcessorConfig(max_attempts=m, num_workers=n, retry_strategy=rs)]. *)
Definition strategy_config (rs : RetryStrategy) (m n : Z) : ProcessorConfig unit :=
  post_init
    {| max_attempts := m;
       num_workers := n;
       retry_strategy := rs;
       handle_throttling := true;
       on_progress := None;
       retryable_exceptions := None;
       is_throttling := None |}.

End MoreExamples.

(** *** [lib/bedrock/client.py] and [lib/bedrock/commands/invoke_model_command.py]:
    the gate of the client and the calls that go through it *)

Module InvokeModel.

Import DynamicSemaphore.

(** [BedrockClient.get_semaphore]: the gate is created on first use
    with the parameters fixed in the source and kept afterwards.  The
    result is the gate handed out and the new value of the field, or
    the [ValueError] of the constructor. *)
Definition get_semaphore (initial_concurrency : Z) (semaphore : option t)
    : ValueError + (t * option t) :=
  match semaphore with
  | Some g => inr (g, Some g)
  | None =>
      match init (3 # 4) (Some 100) initial_concurrency 1 with
      | inl err => inl err
      | inr g => inr (g, Some g)
      end
  end.

(** What the request of one call does: it returns a body, raises a
    [ClientError] with the [Code] of its response, or raises something
    else. *)
Inductive Response : Type :=
| Succeeded
| ClientError (code : option string)
| OtherError.

(** [error_code == "ThrottlingException"] in the [except ClientError]
    branch. *)
Definition is_throttling_response (r : Response) : bool :=
  match r with
  | ClientError code => bool_decide (code = Some "ThrottlingException")
  | _ => false
  end.

(** Where a call of [InvokeModelCommand.execute] stands with respect
    to the gate: before [async with semaphore], inside it with the
    request in flight, after [on_success] and before [__aexit__], after
    [__aexit__] and before [on_throttle], and returned (normally or
    not). *)
Inductive Phase : Type :=
| Waiting (r : Response)
| Holding (r : Response)
| Reporting
| Throttled
| Returned (ok : bool).

(** One step of a call on the gate; [None] when the call waits in
    [acquire] or has returned. *)
Definition step (g : t) (p : Phase) : option (t * Phase) :=
  match p with
  | Waiting r =>
      match acquire g with
      | Some g' => Some (g', Holding r)
      | None => None
      end
  | Holding Succeeded => Some (on_success g, Reporting)
  | Holding r =>
      Some (release g,
            if is_throttling_response r then Throttled else Returned false)
  | Reporting => Some (release g, Returned true)
  | Throttled => Some (on_throttle g, Returned false)
  | Returned _ => None
  end.

(** The calls in flight on one gate; the event loop advances one of
    them at a time. *)
Definition System : Type := t * list Phase.

Definition advance (k : nat) (sys : System) : System :=
  match sys.2 !! k with
  | Some p =>
      match step sys.1 p with
      | Some (g', p') => (g', <[k := p']> sys.2)
      | None => sys
      end
  | None => sys
  end.

Fixpoint advance_all (schedule : list nat) (sys : System) : System :=
  match schedule with
  | [] => sys
  | k :: schedule' => advance_all schedule' (advance k sys)
  end.

(** A call holds a slot between [acquire] and [release]. *)
Definition holds (p : Phase) : nat :=
  match p with
  | Holding _ | Reporting => 1
  | _ => 0
  end.

Definition holders (ps : list Phase) : nat := sum_list_with holds ps.

Definition has_returned (p : Phase) : bool :=
  match p with
  | Returned _ => true
  | _ => false
  end.


(** One whole call on a gate no other call touches meanwhile. *)
Definition execute_alone (r : Response) (g : t) : System :=
  advance_all [0; 0; 0]%nat (g, [Waiting r]).

(** The exception object of a [ClientError] with the given code. *)
Definition client_error (code : option string) : AsyncBatchProcessor.PyException :=
  {| AsyncBatchProcessor.exc_mro :=
       ["ClientError"; "Exception"; "BaseException"; "object"];
     AsyncBatchProcessor.exc_code := code;
     AsyncBatchProcessor.exc_msg := "An error occurred" |}.

End InvokeModel.

(** *** [lib/ingest.py]: records, the bulk body and [ingest] itself *)

Module IngestBody.

Import AsyncBatchProcessor Ingest.

Definition newline : string := String (Ascii.Ascii false true false true false false false false) EmptyString.

Section Body.

(** [V]: the scalars of a record other than [None] and the missing
    values of pandas. *)
Context {V : Type}.

(** A value of a record as [_is_valid_value] tells them apart:
    [None]; a scalar that pandas takes for missing (NaN, NaT, NA); a
    list or tuple; any other scalar. *)
#[warnings="-register-all"] Inductive Cell : Type :=
| CNone
| CMissing
| CSequence (xs : list Cell)
| CScalar (v : V).

Definition _is_valid_value (value : Cell) : bool :=
  match value with
  | CNone => false
  | CSequence _ => true
  | CMissing => false
  | CScalar _ => true
  end.

(** A record: a dictionary in insertion order. *)
Definition Record : Type := list (string * Cell).

Definition _filter_nan_values (record : Record) : Record :=
  List.filter (fun kv => _is_valid_value kv.2) record.

(** [json.dumps] on the two shapes [_create_bulk_body] gives it: the
    create action of an index name and a document id, and a
    record. *)
Variable dumps_create : string -> string -> string.
Variable dumps_record : Record -> string.

(** The list [bulk_body] that [_create_bulk_body] builds. *)
Definition bulk_lines (index_name : string) (batch_rows : list Record)
    (start_idx : Z) : list string :=
  concat
    (imap (fun idx row =>
             let doc_id := start_idx + Z.of_nat idx in
             let filtered_record := _filter_nan_values row in
             [dumps_create index_name (pretty doc_id);
              dumps_record filtered_record])
          batch_rows).

Definition _create_bulk_body (batch_rows : list Record) (index_name : string)
    (start_idx : Z) : string :=
  String.concat newline (bulk_lines index_name batch_rows start_idx) +:+ newline.

(** The lines of all the batches of a table, batch after batch. *)
Definition all_bulk_lines (index_name : string) (rows : list Record)
    : list string :=
  concat (map (fun b => bulk_lines index_name (batch_rows b) (start_idx b))
            (batches rows)).

(** [ingest]. *)
Section Run.

Context {Cluster C : Type}.

(** [opensearch.indexes.get(index=...).truncate()] and
    [opensearch.bulk_index(body=...)]. *)
Variable truncate : string -> Cluster -> PyException + Cluster.
Variable bulk_index : string -> Cluster -> (PyException + BulkResponse) * Cluster.

(** The progress bar of the reporter. *)
Variable start_progress : nat -> C -> C.
Variable stop_progress : C -> C.
Variable on_progress : ProgressCallback C.

Definition send_batch (index_name : string) (b : BatchItem Record)
    (cl : Cluster) : (PyException + BulkResponse) * Cluster :=
  bulk_index (_create_bulk_body (batch_rows b) index_name (start_idx b)) cl.

(** What a call of [ingest] leaves behind: the messages sent to the
    reporter, the cluster, the progress bar, and the exception it
    raised, if any. *)
Record IngestOutcome : Type := {
  messages : list string;
  cluster : Cluster;
  progress : C;
  raised : option PyException
}.

Definition completed_message (rows : list Record) : string :=
  newline +:+ "Processing completed successfully. Processed " +:+
  pretty (length rows) +:+ " rows." +:+ newline.

(** [None]: the schedule ends before the workers have returned. *)
Definition ingest (delete : bool) (index_name : string) (max_attempts : Z)
    (rows : list Record) (schedule : list nat) (cl : Cluster) (c0 : C)
    : option IngestOutcome :=
  match rows with
  | [] =>
      Some {| messages := ["No rows to ingest"]; cluster := cl;
              progress := c0; raised := None |}
  | row0 :: _ =>
      let msgs1 :=
        ["Processing all columns: dict_keys(" +:+ repr_list (map fst row0) +:+ ")"] in
      let deleted :=
        if delete then
          match truncate index_name cl with
          | inl e => inl e
          | inr cl' =>
              inr (cl', msgs1 ++ ["Deleted all documents from index " +:+ index_name])
          end
        else inr (cl, msgs1) in
      match deleted with
      | inl e =>
          Some {| messages := msgs1; cluster := cl; progress := c0;
                  raised := Some e |}
      | inr (cl1, msgs2) =>
          let batch_list := batches rows in
          let msgs3 :=
            msgs2 ++ ["Processing " +:+ pretty (length batch_list) +:+
                      " batches of up to " +:+ pretty BATCH_SIZE +:+
                      " rows each" +:+ newline] in
          let c1 := start_progress (length batch_list) c0 in
          let l :=
            run (process_batch (send_batch index_name))
              (ingest_config max_attempts on_progress) schedule
              (start (ingest_config max_attempts on_progress)
                 (map (fun b => PyVal (Batch b)) batch_list) (cl1, []) c1) in
          if forallb is_finished l.2 then
            Some {| messages :=
                      msgs3 ++ (st_op l.1).2 ++ [completed_message rows];
                    cluster := (st_op l.1).1;
                    progress := stop_progress (st_cb l.1);
                    raised := None |}
          else None
      end
  end.

End Run.

End Body.

Arguments Cell : clear implicits.
Arguments Record : clear implicits.
Arguments IngestOutcome : clear implicits.

End IngestBody.

(** *** Concrete tables and clusters *)

Module IngestExamples.

Import AsyncBatchProcessor Ingest IngestBody Examples.

(** A record with a missing value and a list of missing values. *)
Definition a_record : Record Z :=
  [("name", CScalar 1); ("price", CMissing); ("tags", CSequence [CMissing; CNone])].

Definition slash_create (index_name doc_id : string) : string :=
  index_name +:+ "/" +:+ doc_id.

Definition count_record (record : Record Z) : string :=
  pretty (length record).

(** A cluster that counts the bulk bodies it receives and rejects each
    of them. *)
Definition rejecting_index
    : string -> nat -> (PyException + BulkResponse) * nat :=
  fun _ n => (inr rejected_response, S n).

Definition truncated : string -> nat -> PyException + nat :=
  fun _ _ => inr 0%nat.

End IngestExamples.

(** *** [lib/bedrock]: embedding models and their adapters *)

Module Embeddings.

Import AsyncBatchProcessor.

Inductive EmbeddingModelId : Type := TITAN | COHERE.

Definition model_id_value (m : EmbeddingModelId) : string :=
  match m with
  | TITAN => "amazon.titan-embed-text-v2:0"
  | COHERE => "us.cohere.embed-v4:0"
  end.

Inductive EmbeddingType : Type := FLOAT | INT8 | UINT8 | BINARY | UBINARY.

#[global] Instance EmbeddingType_eq_dec : EqDecision EmbeddingType.
Proof. solve_decision. Defined.

Definition embedding_type_name (t : EmbeddingType) : string :=
  match t with
  | FLOAT => "FLOAT"
  | INT8 => "INT8"
  | UINT8 => "UINT8"
  | BINARY => "BINARY"
  | UBINARY => "UBINARY"
  end.

Definition embedding_type_value (t : EmbeddingType) : string :=
  match t with
  | FLOAT => "float"
  | INT8 => "int8"
  | UINT8 => "uint8"
  | BINARY => "binary"
  | UBINARY => "ubinary"
  end.

Inductive InputType : Type :=
  SEARCH_DOCUMENT | SEARCH_QUERY | CLASSIFICATION | CLUSTERING.

Definition input_type_value (t : InputType) : string :=
  match t with
  | SEARCH_DOCUMENT => "search_document"
  | SEARCH_QUERY => "search_query"
  | CLASSIFICATION => "classification"
  | CLUSTERING => "clustering"
  end.

(** The exceptions of this part of the code. *)
Definition value_error (msg : string) : PyException :=
  {| exc_mro := ["ValueError"; "Exception"; "BaseException"; "object"];
     exc_code := None;
     exc_msg := msg |}.

Definition key_error (key : string) : PyException :=
  {| exc_mro := ["KeyError"; "LookupError"; "Exception"; "BaseException"; "object"];
     exc_code := None;
     exc_msg := key |}.

Definition index_error : PyException :=
  {| exc_mro := ["IndexError"; "LookupError"; "Exception"; "BaseException"; "object"];
     exc_code := None;
     exc_msg := "list index out of range" |}.

Definition type_error (msg : string) : PyException :=
  {| exc_mro := ["TypeError"; "Exception"; "BaseException"; "object"];
     exc_code := None;
     exc_msg := msg |}.

Definition attribute_error (msg : string) : PyException :=
  {| exc_mro := ["AttributeError"; "Exception"; "BaseException"; "object"];
     exc_code := None;
     exc_msg := msg |}.

Definition ModelOutputParsingError (message : string) : PyException :=
  {| exc_mro := ["ModelOutputParsingError"; "Exception"; "BaseException"; "object"];
     exc_code := None;
     exc_msg := message |}.

(** Code that returns or raises. *)
Definition bind {X Y : Type} (m : PyException + X) (k : X -> PyException + Y)
    : PyException + Y :=
  match m with
  | inl e => inl e
  | inr x => k x
  end.

(** A list comprehension whose element expression may raise. *)
Fixpoint comprehension {X Y : Type} (k : X -> PyException + Y) (l : list X)
    : PyException + list Y :=
  match l with
  | [] => inr []
  | x :: l' =>
      bind (k x) (fun y => bind (comprehension k l') (fun ys => inr (y :: ys)))
  end.

(** Dictionaries in insertion order. *)
Section Dict.

Context {K V : Type} `{EqDecision K}.

Fixpoint dict_set (k : K) (v : V) (d : list (K * V)) : list (K * V) :=
  match d with
  | [] => [(k, v)]
  | (k', v') :: d' =>
      if decide (k' = k) then (k', v) :: d' else (k', v') :: dict_set k v d'
  end.

Fixpoint dict_get (k : K) (d : list (K * V)) : option V :=
  match d with
  | [] => None
  | (k', v') :: d' => if decide (k' = k) then Some v' else dict_get k d'
  end.

Definition dict_of (pairs : list (K * V)) : list (K * V) :=
  foldl (fun d kv => dict_set kv.1 kv.2 d) [] pairs.

End Dict.

(** [EmbeddingType(key)]: the member with that value. *)
Definition embedding_type_of (key : string) : PyException + EmbeddingType :=
  match dict_get key
          (dict_of (map (fun t => (embedding_type_value t, t))
                      [FLOAT; INT8; UINT8; BINARY; UBINARY])) with
  | Some t => inr t
  | None => inl (value_error ("'" +:+ key +:+ "' is not a valid EmbeddingType"))
  end.

(** [InvokeEmbeddingModelCommand.get_model_id]. *)
Definition get_model_id (model_id : string) : PyException + EmbeddingModelId :=
  match dict_get model_id
          (dict_of (map (fun m => (model_id_value m, m)) [TITAN; COHERE])) with
  | Some m => inr m
  | None => inl (value_error ("Unsupported embedding model ID: " +:+ model_id))
  end.

Section Adapters.

(** [E]: an embedding vector. *)
Context {E : Type}.

Record EmbeddingModelOutput : Type := {
  embeddings : list (EmbeddingType * E)
}.

(** The request bodies the adapters build. *)
Inductive Payload : Type :=
| TitanPayload (inputText : string)
| CoherePayload (input_type : string) (texts : list string)
    (embedding_types : list string) (output_dimension : Z) (truncate : string).

(** What the adapters read of a parsed response: the key
    [embedding], and the key [embeddings], which holds a dictionary
    from type names to lists of vectors, or a plain list of
    vectors. *)
Inductive CohereEmbeddings : Type :=
| ByType (d : list (string * list E))
| Plain (l : list E).

Record Response : Type := {
  r_embedding : option E;
  r_embeddings : option CohereEmbeddings
}.

(** [str] of a parsed response. *)
Variable str_response : Response -> string.

Definition get_supported_dimensions (adapter : EmbeddingModelId) : list Z :=
  match adapter with
  | TITAN => [1024]
  | COHERE => [256; 512; 1024; 1536]
  end.

Definition validate_dimension (adapter : EmbeddingModelId) (dimension : Z)
    : option PyException :=
  if bool_decide (dimension ∈ get_supported_dimensions adapter) then None
  else Some (value_error
               ("Dimension " +:+ pretty dimension +:+
                " is not supported. Supported dimensions: [" +:+
                String.concat ", " (map pretty (get_supported_dimensions adapter))
                +:+ "]")).

Definition format_input (adapter : EmbeddingModelId) (inputs : list string)
    (input_type : InputType) (embedding_types : list EmbeddingType)
    (output_dimension : Z) : list Payload :=
  match adapter with
  | TITAN => map TitanPayload inputs
  | COHERE =>
      [CoherePayload (input_type_value input_type) inputs
         (map embedding_type_value embedding_types) output_dimension "NONE"]
  end.

Definition _format_error_message (preview : string) (max_length : nat) : string :=
  if (max_length <? String.length preview)%nat
  then String.substring 0 max_length preview +:+ "..."
  else preview.

Definition first_response (responses : list Response) : string :=
  match responses with
  | [] => "{}"
  | r :: _ => str_response r
  end.

(** The body of the dictionary comprehension of the Cohere adapter:
    for every key, for every vector under the key. *)
Fixpoint cohere_values (key : string) (value : list E)
    (acc : list (EmbeddingType * E)) : PyException + list (EmbeddingType * E) :=
  match value with
  | [] => inr acc
  | values :: value' =>
      bind (embedding_type_of key)
        (fun t => cohere_values key value' (dict_set t values acc))
  end.

Fixpoint cohere_items (items : list (string * list E))
    (acc : list (EmbeddingType * E)) : PyException + list (EmbeddingType * E) :=
  match items with
  | [] => inr acc
  | (key, value) :: items' =>
      bind (cohere_values key value acc) (cohere_items items')
  end.

Definition parse_response (adapter : EmbeddingModelId) (response : Response)
    : PyException + EmbeddingModelOutput :=
  match adapter with
  | TITAN =>
      match r_embedding response with
      | Some v => inr {| embeddings := [(FLOAT, v)] |}
      | None => inl (key_error "'embedding'")
      end
  | COHERE =>
      match r_embeddings response with
      | None => inl (key_error "'embeddings'")
      | Some (Plain _) =>
          inl (attribute_error "'list' object has no attribute 'items'")
      | Some (ByType d) =>
          bind (cohere_items d []) (fun e => inr {| embeddings := e |})
      end
  end.

Definition adapter_name (adapter : EmbeddingModelId) : string :=
  match adapter with
  | TITAN => "Titan"
  | COHERE => "Cohere"
  end.

Definition format_output (adapter : EmbeddingModelId) (responses : list Response)
    : PyException + list EmbeddingModelOutput :=
  match comprehension (parse_response adapter) responses with
  | inr outputs => inr outputs
  | inl e =>
      if isinstance_of e "KeyError" then
        inl (ModelOutputParsingError
               ("Unexpected response format from " +:+ adapter_name adapter +:+
                " model: " +:+ exc_msg e +:+ ". First response: " +:+
                _format_error_message (first_response responses) 200))
      else inl e
  end.

End Adapters.

Arguments EmbeddingModelOutput : clear implicits.
Arguments Payload : clear implicits.
Arguments CohereEmbeddings : clear implicits.
Arguments Response : clear implicits.

End Embeddings.

(** *** [lib/vectorize_columns.py]: from the results to the columns *)

Module VectorizeColumns.

Import AsyncBatchProcessor Embeddings.

Inductive Strategy : Type := PerColumn | Combined.

Section Tail.

Context {E : Type}.

Local Abbreviation Outputs := (list (EmbeddingModelOutput E)).

(** The loop that raises the first result that is an exception. *)
Fixpoint first_exception (results : list (PyObj Outputs))
    : option PyException :=
  match results with
  | [] => None
  | PyExc e :: _ => Some e
  | _ :: results' => first_exception results'
  end.

(** [[output.embeddings[embedding_type] for output in result]]. *)
Definition row_embeddings (embedding_type : EmbeddingType)
    (result : PyObj Outputs) : PyException + list E :=
  match result with
  | PyVal outputs =>
      comprehension
        (fun output =>
           match dict_get embedding_type (embeddings output) with
           | Some v => inr v
           | None =>
               inl (key_error ("<EmbeddingType." +:+
                               embedding_type_name embedding_type +:+ ": '" +:+
                               embedding_type_value embedding_type +:+ "'>"))
           end)
        outputs
  | PyNone => inl (type_error "'NoneType' object is not iterable")
  | PyExc _ => inl (type_error "'Exception' object is not iterable")
  end.

Definition batch_embeddings (embedding_type : EmbeddingType)
    (results : list (PyObj Outputs)) : PyException + list (list E) :=
  comprehension (row_embeddings embedding_type)
    (List.filter (fun result => negb (is_exception result)) results).

(** [col_vectors] of column [i]. *)
Definition col_vectors (i : nat) (batches : list (list E))
    : PyException + list E :=
  comprehension
    (fun batch =>
       let idx := if (i <? length batch)%nat then i else 0%nat in
       match batch !! idx with
       | Some v => inr v
       | None => inl index_error
       end)
    batches.

(** The assignments [df[name] = col_vectors] made, in order, and the
    exception that ended them, if any. *)
Fixpoint assign_columns (i : nat) (columns : list string) (suffix : string)
    (batches : list (list E)) : list (string * list E) * option PyException :=
  match columns with
  | [] => ([], None)
  | column :: columns' =>
      match col_vectors i batches with
      | inl e => ([], Some e)
      | inr vs =>
          let '(done, raised) := assign_columns (S i) columns' suffix batches in
          ((column +:+ suffix, vs) :: done, raised)
      end
  end.

Record ColumnsOutcome : Type := {
  messages : list string;
  assigned : list (string * list E);
  raised : option PyException
}.

(** [vectorize_columns] from the report of the token usage on. *)
Definition report_and_assign (strategy : Strategy) (columns : list string)
    (embedding_column_suffix : string) (embedding_type : EmbeddingType)
    (input_tokens output_tokens : Z) (processor_result : ProcessorResult Outputs)
    : ColumnsOutcome :=
  let msgs :=
    [IngestBody.newline +:+ "Token usage: " +:+ pretty input_tokens +:+
     " input tokens, " +:+ pretty output_tokens +:+ " output tokens"] ++
    (if 0 <? total_retried processor_result
     then ["Retried: " +:+ pretty (total_retried processor_result) +:+ " requests"]
     else []) ++
    (if 0 <? total_failed processor_result
     then ["Failed: " +:+ pretty (total_failed processor_result) +:+ " requests"]
     else []) in
  match first_exception (results processor_result) with
  | Some e => {| messages := msgs; assigned := []; raised := Some e |}
  | None =>
      match batch_embeddings embedding_type (results processor_result) with
      | inl e => {| messages := msgs; assigned := []; raised := Some e |}
      | inr batches =>
          match strategy with
          | PerColumn =>
              let '(done, raised) :=
                assign_columns 0 columns embedding_column_suffix batches in
              {| messages := msgs; assigned := done; raised := raised |}
          | Combined =>
              match comprehension
                      (fun batch : list E =>
                         match batch !! 0%nat with
                         | Some v => inr v
                         | None => inl index_error
                         end)
                      batches with
              | inl e => {| messages := msgs; assigned := []; raised := Some e |}
              | inr vs =>
                  {| messages := msgs;
                     assigned :=
                       [(String.concat "_" columns +:+ embedding_column_suffix, vs)];
                     raised := None |}
              end
          end
      end
  end.

End Tail.

Arguments ColumnsOutcome : clear implicits.

End VectorizeColumns.

(** *** A model endpoint and a table of texts *)

Module EmbeddingExamples.

Import AsyncBatchProcessor Embeddings VectorizeColumns.

(** An endpoint that answers every payload in the format of its model,
    with the vector [embed text] for each text: Titan one vector per
    request, Cohere one list of vectors per requested type. *)
Definition endpoint {E : Type} (embed : string -> E) (p : Payload) : Response E :=
  match p with
  | TitanPayload inputText =>
      {| r_embedding := Some (embed inputText); r_embeddings := None |}
  | CoherePayload _ texts embedding_types _ _ =>
      {| r_embedding := None;
         r_embeddings :=
           Some (ByType (map (fun ty => (ty, map embed texts)) embedding_types)) |}
  end.

(** What a row gives: the outputs of the adapter on the responses to
    its payloads, in their order, or the exception of the adapter. *)
Definition row_result {E : Type} (str_response : Response E -> string)
    (adapter : EmbeddingModelId) (embed : string -> E) (texts : list string)
    (output_dimension : Z) : PyObj (list (EmbeddingModelOutput E)) :=
  match format_output str_response adapter
          (map (endpoint embed)
             (format_input adapter texts CLASSIFICATION [FLOAT] output_dimension)) with
  | inr outputs => PyVal outputs
  | inl e => PyExc e
  end.

Definition opaque_response : Response nat -> string := fun _ => "{...}".

Definition two_rows : list (list string) :=
  [["ab"; "cde"]; ["f"; "ghij"]].

End EmbeddingExamples.

(** ** Part II: properties *)

(** *** The adaptive gate *)

Section GateFacts.

Import DynamicSemaphore.

Lemma Qltb_lt (x y : Q) : Qltb x y = true <-> (x < y)%Q.
Proof.
  unfold Qltb. rewrite negb_true_iff. split.
  - intros H. apply Qnot_le_lt. intros Hle.
    apply Qle_bool_iff in Hle. congruence.
  - intros H. destruct (Qle_bool y x) eqn:E; [|reflexivity].
    apply Qle_bool_iff in E. exfalso. exact (Qlt_not_le _ _ H E).
Qed.

Lemma init_inr (f : Q) (th : option Z) (initial mn : Z) (g : t) :
  init f th initial mn = inr g ->
  (0 < f)%Q /\ (f < 1)%Q /\ mn <= initial /\
  capacity g = initial /\ min_value g = mn /\ decrease_factor g = f /\
  success_count g = 0 /\ current_count g = 0 /\
  increase_threshold g = match th with Some x => x | None => initial * 10 end.
Proof.
  unfold init.
  destruct (Qltb 0 f) eqn:E0; [|discriminate].
  destruct (Qltb f 1) eqn:E1; [|discriminate].
  cbn [andb negb].
  destruct (initial <? mn) eqn:E2; [discriminate|].
  intros [= <-]. cbn.
  apply Qltb_lt in E0. apply Qltb_lt in E1. apply Z.ltb_ge in E2.
  repeat split; assumption || reflexivity.
Qed.

Lemma init_ok (f : Q) (th : option Z) (initial mn : Z) :
  (0 < f)%Q -> (f < 1)%Q -> mn <= initial ->
  exists g, init f th initial mn = inr g.
Proof.
  intros H0 H1 Hm. unfold init.
  apply Qltb_lt in H0. apply Qltb_lt in H1. rewrite H0, H1. cbn [andb negb].
  apply Z.ltb_ge in Hm. rewrite Hm. eexists. reflexivity.
Qed.




Lemma on_throttle_params (g : t) :
  min_value (on_throttle g) = min_value g /\
  decrease_factor (on_throttle g) = decrease_factor g /\
  increase_threshold (on_throttle g) = increase_threshold g /\
  current_count (on_throttle g) = current_count g.
Proof.
  unfold on_throttle.
  destruct (_ <? _); cbn; repeat split; reflexivity.
Qed.

Lemma on_throttle_le (g : t) : capacity (on_throttle g) <= capacity g.
Proof.
  unfold on_throttle.
  set (new := py_int (inject_Z (capacity g) * decrease_factor g)).
  destruct (Z.ltb_spec (Z.max (min_value g) new) (capacity g));
    cbn [capacity]; lia.
Qed.

Lemma on_throttle_min (g : t) :
  min_value g <= capacity g -> min_value g <= capacity (on_throttle g).
Proof.
  intros Hm. unfold on_throttle.
  set (new := py_int (inject_Z (capacity g) * decrease_factor g)).
  destruct (Z.ltb_spec (Z.max (min_value g) new) (capacity g));
    cbn [capacity]; lia.
Qed.






Lemma apply_op_min (o : op) (g g' : t) :
  apply_op o g = Some g' ->
  min_value g <= capacity g ->
  min_value g' = min_value g /\ min_value g' <= capacity g'.
Proof.
  destruct o; cbn.
  - unfold acquire. destruct (_ <? _); [|discriminate].
    intros [= <-]. cbn. lia.
  - intros [= <-]. cbn. lia.
  - intros [= <-] Hm. destruct (on_throttle_params g) as (-> & _).
    split; [reflexivity|]. by apply on_throttle_min.
  - intros [= <-]. unfold on_success. destruct (_ <=? _); cbn; lia.
Qed.

Lemma apply_op_count (o : op) (g g' : t) :
  o <> OnThrottle ->
  apply_op o g = Some g' ->
  current_count g <= capacity g -> current_count g' <= capacity g'.
Proof.
  destruct o; cbn; try congruence.
  - intros _. unfold acquire. destruct (Z.ltb_spec (current_count g) (capacity g));
      [|discriminate].
    intros [= <-]. cbn. lia.
  - intros _ [= <-]. cbn. lia.
  - intros _ [= <-]. unfold on_success. destruct (_ <=? _); cbn; lia.
Qed.

Lemma apply_ops_min (os : list op) (g g' : t) :
  apply_ops os g = Some g' ->
  min_value g <= capacity g ->
  min_value g' = min_value g /\ min_value g' <= capacity g'.
Proof.
  revert g. induction os as [|o os IH]; intros g; cbn.
  - intros [= <-]. lia.
  - destruct (apply_op o g) as [g1|] eqn:E; [|discriminate].
    intros Hrun Hm. destruct (apply_op_min _ _ _ E Hm) as [E1 H1].
    destruct (IH _ Hrun) as [E2 H2]; [lia|]. split; [congruence|assumption].
Qed.

Lemma apply_ops_count (os : list op) (g g' : t) :
  OnThrottle ∉ os ->
  apply_ops os g = Some g' ->
  current_count g <= capacity g -> current_count g' <= capacity g'.
Proof.
  revert g. induction os as [|o os IH]; intros g Hno; cbn.
  - intros [= <-]. done.
  - destruct (apply_op o g) as [g1|] eqn:E; [|discriminate].
    intros Hrun Hc. apply not_elem_of_cons in Hno as [Hne Hno].
    eapply IH; eauto. eapply apply_op_count; eauto.
Qed.

Lemma apply_op_factor (o : op) (g g' : t) :
  apply_op o g = Some g' -> decrease_factor g' = decrease_factor g.
Proof.
  destruct o; cbn.
  - unfold acquire. destruct (_ <? _); [|discriminate]. by intros [= <-].
  - by intros [= <-].
  - intros [= <-]. by destruct (on_throttle_params g) as (_ & -> & _).
  - intros [= <-]. unfold on_success. by destruct (_ <=? _).
Qed.

Lemma apply_ops_factor (os : list op) (g g' : t) :
  apply_ops os g = Some g' -> decrease_factor g' = decrease_factor g.
Proof.
  revert g. induction os as [|o os IH]; intros g; cbn.
  - by intros [= <-].
  - destruct (apply_op o g) as [g1|] eqn:E; [|discriminate].
    intros Hrun. rewrite (IH _ Hrun). by eapply apply_op_factor.
Qed.

(** The capacity after a throttle, whatever the sign of the numbers:
    the clamped value when it is lower, the old capacity otherwise. *)
Lemma on_throttle_clamp (g : t) :
  capacity (on_throttle g) =
    Z.min (capacity g)
      (Z.max (min_value g) (py_int (inject_Z (capacity g) * decrease_factor g))).
Proof.
  unfold on_throttle.
  set (new := py_int (inject_Z (capacity g) * decrease_factor g)).
  destruct (Z.ltb_spec (Z.max (min_value g) new) (capacity g));
    cbn [capacity]; lia.
Qed.


Lemma on_success_monotone (g : t) : capacity g <= capacity (on_success g).
Proof. unfold on_success. destruct (_ <=? _); cbn; lia. Qed.

End GateFacts.

(** *** Claims about the adaptive gate *)

Section GateClaims.

Import DynamicSemaphore.




(** C4, as stated, fails: a gate of capacity 2 with both slots taken is
    at a quiescent point and satisfies the invariant; [on_throttle]
    lowers the capacity to 1 and leaves [current_count = 2].  It also
    fails in the initial state of a gate built with a negative
    [initial], where [current_count = 0] is above the capacity. *)
Lemma C4_throttle_breaks_count_bound :
  (exists g g1 g2,
     init (1 # 2) None 2 1 = inr g /\
     apply_ops [Acquire; Acquire] g = Some g1 /\
     quiescent_invariant g1 /\
     apply_op OnThrottle g1 = Some g2 /\
     ~ quiescent_invariant g2) /\
  (exists g, init (1 # 2) None (-1) (-5) = inr g /\ ~ quiescent_invariant g).
Proof.
  split.
  - do 3 eexists. split; [reflexivity|]. split; [reflexivity|].
    split; [unfold quiescent_invariant; cbn [capacity current_count min_value]; lia|].
    split; [reflexivity|].
    intros [H _]. vm_compute in H. by apply H.
  - eexists. split; [reflexivity|].
    intros [H _]. vm_compute in H. by apply H.
Qed.

(** C4, amended: in every state a gate can reach,
    [capacity >= min_value], and each of the four operations keeps it;
    [acquire], [release] and [on_success] keep
    [current_count <= capacity], so it holds in every state reached
    without a throttle from a gate built with [initial >= 0];
    [on_throttle] leaves [current_count] as it is
    and does not raise the capacity, so holders in flight can exceed
    the lowered capacity until they release. *)
Theorem C4_gate_invariant (f : Q) (th : option Z) (initial mn : Z)
    (g g1 g2 : t) (os : list op) (o : op) :
  init f th initial mn = inr g ->
  apply_ops os g = Some g1 ->
  apply_op o g1 = Some g2 ->
  min_value g1 <= capacity g1 /\
  min_value g2 <= capacity g2 /\
  (o <> OnThrottle ->
   current_count g1 <= capacity g1 -> current_count g2 <= capacity g2) /\
  (o = OnThrottle ->
   current_count g2 = current_count g1 /\ capacity g2 <= capacity g1) /\
  (0 <= initial -> OnThrottle ∉ os -> current_count g1 <= capacity g1).
Proof.
  intros Hg Hos Ho.
  destruct (init_inr _ _ _ _ _ Hg) as (_ & _ & Hm & Ec & Em & _ & _ & Ecc & _).
  assert (H0 : min_value g <= capacity g) by lia.
  destruct (apply_ops_min _ _ _ Hos H0) as [E1 H1].
  destruct (apply_op_min _ _ _ Ho H1) as [E2 H2].
  split; [assumption|]. split; [assumption|].
  split; [intros Hne; by eapply apply_op_count|].
  split.
  - intros ->. cbn in Ho. injection Ho as <-.
    destruct (on_throttle_params g1) as (_ & _ & _ & ->).
    split; [reflexivity | apply on_throttle_le].
  - intros Hi Hno. eapply apply_ops_count; eauto. lia.
Qed.

Lemma C4_gate_invariant_witness :
  exists g g1 g2,
    init (1 # 2) None 2 1 = inr g /\
    apply_ops [Acquire; OnSuccess] g = Some g1 /\
    apply_op Acquire g1 = Some g2 /\
    min_value g1 <= capacity g1 /\
    min_value g2 <= capacity g2 /\
    (Acquire <> OnThrottle ->
     current_count g1 <= capacity g1 -> current_count g2 <= capacity g2) /\
    (Acquire = OnThrottle ->
     current_count g2 = current_count g1 /\ capacity g2 <= capacity g1) /\
    (0 <= 2 -> OnThrottle ∉ [Acquire; OnSuccess] ->
     current_count g1 <= capacity g1).
Proof.
  do 3 eexists.
  split; [reflexivity|]. split; [reflexivity|]. split; [reflexivity|].
  eapply (C4_gate_invariant (1 # 2) None 2 1); reflexivity.
Defined.




(** C10: construction raises exactly when [decrease_factor] is not
    strictly between 0 and 1 or [initial < min_value]; nothing checks
    [min_value >= 1], so every [min_value <= initial], zero and negative
    ones included, gives a gate that stores it, keeps it under every
    operation, never lets the capacity fall below it, and clamps every
    later throttle at it. *)
Theorem C10_init_checks (f : Q) (th : option Z) (initial mn : Z) :
  ((exists err, init f th initial mn = inl err) <->
   (~ ((0 < f)%Q /\ (f < 1)%Q) \/ initial < mn)) /\
  ((0 < f)%Q -> (f < 1)%Q -> mn <= initial ->
   exists g,
     init f th initial mn = inr g /\ min_value g = mn /\
     forall os g', apply_ops os g = Some g' ->
       min_value g' = mn /\ mn <= capacity g' /\
       capacity (on_throttle g') =
         Z.min (capacity g')
           (Z.max mn (py_int (inject_Z (capacity g') * f)))).
Proof.
  split.
  - split.
    + intros [err Herr]. unfold init in Herr.
      destruct (Qltb 0 f) eqn:E0.
      * destruct (Qltb f 1) eqn:E1.
        -- cbn [andb negb] in Herr.
           destruct (Z.ltb_spec initial mn); [by right | discriminate].
        -- left. intros [_ H]. apply Qltb_lt in H. congruence.
      * left. intros [H _]. apply Qltb_lt in H. congruence.
    + intros H. destruct (init f th initial mn) as [err|g] eqn:E; [by eexists|].
      destruct (init_inr _ _ _ _ _ E) as (H0 & H1 & Hm & _).
      destruct H as [H|H]; [exfalso; by apply H | lia].
  - intros H0 H1 Hm. destruct (init_ok f th initial mn H0 H1 Hm) as [g Hg].
    exists g. split; [assumption|].
    destruct (init_inr _ _ _ _ _ Hg) as (_ & _ & _ & Ec & Em & Ef & _).
    split; [assumption|]. intros os g' Hos.
    destruct (apply_ops_min os g g' Hos) as [E1 H1']; [lia|].
    split; [congruence|]. split; [lia|].
    rewrite on_throttle_clamp, (apply_ops_factor os g g' Hos), Ef.
    congruence.
Qed.

(** A gate built with [min_value = 0]: one throttle brings the capacity
    to zero, and from then on no [acquire] gets through. *)
Lemma gate_with_min_zero_closes :
  exists g,
    init (1 # 2) None 1 0 = inr g /\
    capacity (on_throttle g) = 0 /\
    acquire (on_throttle g) = None.
Proof. eexists. split; [reflexivity|]. split; reflexivity. Qed.

Lemma C10_init_checks_witness :
  exists g,
    init (1 # 2) None 1 0 = inr g /\ min_value g = 0 /\
    forall os g', apply_ops os g = Some g' ->
      min_value g' = 0 /\ 0 <= capacity g' /\
      capacity (on_throttle g') =
        Z.min (capacity g')
          (Z.max 0 (py_int (inject_Z (capacity g') * (1 # 2)))).
Proof.
  apply (C10_init_checks (1 # 2) None 1 0); [reflexivity | reflexivity | lia].
Defined.

End GateClaims.

(** *** The processor: one resumption *)

Section ProcessorSteps.

Import AsyncBatchProcessor ProcessorSpec.

Context {A St C : Type}.
Variable processor_func : ProcessorFunc A St.
Variable config : ProcessorConfig C.

Local Abbreviation worker := (_worker processor_func config).
Local Abbreviation resume := (resume processor_func config).
Local Abbreviation run := (run processor_func config).

Lemma report_progress_fields (s : State A St C) :
  st_queue (report_progress config s) = st_queue s /\
  st_results (report_progress config s) = st_results s /\
  st_total_retried (report_progress config s) = st_total_retried s /\
  st_total_failed (report_progress config s) = st_total_failed s /\
  st_op (report_progress config s) = st_op s.
Proof.
  unfold report_progress. destruct (on_progress config) as [cb|]; [|done].
  destruct (cb 1 (st_cb s)) as [[e|] c]; done.
Qed.

Lemma should_retry_attempts (e : PyException) (w : WorkItem A) :
  should_retry config e w = true -> 1 < remaining_attempts w.
Proof.
  unfold should_retry. destruct (throttled config e).
  - intros [_ H]%andb_true_iff. by apply Z.ltb_lt.
  - apply Z.ltb_lt.
Qed.

(** Every resumption of a worker that has not returned is one of the
    six moves. *)
Lemma worker_moves (t : Task A) (s : State A St C) :
  is_finished t = false ->
  move processor_func s t (worker t s).1 (worker t s).2.
Proof.
  destruct t as [|w|w|]; cbn [is_finished]; intros Hf; [| | |discriminate].
  - cbn. destruct (st_queue s) as [|w q] eqn:E; cbn; by constructor.
  - cbn [_worker].
    destruct (processor_func (data w) (st_op s)) as [o ops] eqn:E.
    assert (Hfail : forall e, o = Raise e ->
               move processor_func s (AwaitOp w)
                 (record_failure w e (set_op ops s)) AtDequeue).
    { intros e ->. apply move_settle with (v := PyExc e); [done|done|].
      exists (st_op s). by rewrite E. }
    destruct o as [v|e]; cbn [after_op].
    + destruct (report_progress_fields (store_result w v (set_op ops s)))
        as (Eq & Er & _).
      apply move_settle with (v := v); cbn [fst snd]; [by rewrite Eq|by rewrite Er|].
      exists (st_op s). by rewrite E.
    + destruct (is_retryable config e); [|by apply Hfail].
      unfold _handle_retryable_error.
      destruct (should_retry config e w) eqn:Er.
      * apply should_retry_attempts in Er.
        destruct (backoff_positive _);
          destruct (retry_strategy config); cbn [fst snd];
          try (by apply Hfail); by constructor.
      * destruct (retry_strategy config); by apply Hfail.
  - cbn. by constructor.
Qed.

Lemma resume_move (l : Loop A St C) (k : nat) (t : Task A) :
  l.2 !! k = Some t -> is_finished t = false ->
  exists s' t', move processor_func l.1 t s' t' /\
                resume k l = (s', <[k := t']> l.2).
Proof.
  intros Hk Hf. exists (worker t l.1).1, (worker t l.1).2.
  split; [by apply worker_moves|].
  unfold AsyncBatchProcessor.resume. rewrite Hk. by destruct (worker t l.1).
Qed.

Lemma sum_list_with_insert {B : Type} (f : B -> nat) (l : list B)
    (k : nat) (x y : B) :
  l !! k = Some x ->
  (sum_list_with f (<[k := y]> l) + f x = sum_list_with f l + f y)%nat.
Proof.
  revert k. induction l as [|z l IH]; intros [|k]; simpl; try done.
  - intros [= ->]. lia.
  - intros Hk. specialize (IH k Hk). lia.
Qed.

Lemma retries_left_decrement (w : WorkItem A) :
  1 < remaining_attempts w ->
  retries_left w = S (retries_left (decrement w)).
Proof. unfold retries_left, decrement. cbn. lia. Qed.

(** Each move lowers the budget, provided a sleeper has a retry left. *)
Lemma move_budget (s s' : State A St C) (t t' : Task A) :
  move processor_func s t s' t' ->
  (forall w, t = AwaitSleep w -> 1 < remaining_attempts w) ->
  (sum_list_with queued_weight (st_queue s') + task_weight t'
   < sum_list_with queued_weight (st_queue s) + task_weight t)%nat.
Proof.
  intros Hm Hs. destruct Hm as [Hq|w q Hq|w v s' Hq _ _|w s' Hq _ Hr
                               |w s' Hq _ Hr|w s' Hq _].
  - cbn. lia.
  - rewrite Hq. cbn. unfold queued_weight. lia.
  - rewrite Hq. cbn. lia.
  - rewrite Hq. cbn. lia.
  - rewrite Hq, sum_list_with_app. cbn. unfold queued_weight.
    rewrite (retries_left_decrement w Hr). lia.
  - rewrite Hq, sum_list_with_app. cbn. unfold queued_weight.
    rewrite (retries_left_decrement w (Hs w eq_refl)). lia.
Qed.

Lemma move_sleepers (s s' : State A St C) (t t' : Task A) (ts : list (Task A))
    (k : nat) :
  move processor_func s t s' t' ->
  sleepers_can_retry ts ->
  sleepers_can_retry (<[k := t']> ts).
Proof.
  intros Hm Hs w Hw.
  apply list_elem_of_lookup in Hw as [j Hj].
  apply list_lookup_insert_Some in Hj as [(-> & Ht & _)|[_ Hj]].
  - destruct Hm; try discriminate. by injection Ht as ->.
  - apply Hs. by eapply list_elem_of_lookup_2.
Qed.

Lemma resume_budget (l : Loop A St C) (k : nat) (t : Task A) :
  sleepers_can_retry l.2 ->
  l.2 !! k = Some t -> is_finished t = false ->
  sleepers_can_retry (resume k l).2 /\
  (budget (resume k l) < budget l)%nat.
Proof.
  intros Hs Hk Hf.
  destruct (resume_move l k t Hk Hf) as (s' & t' & Hm & ->).
  split; [by eapply move_sleepers|].
  unfold budget. cbn [fst snd].
  pose proof (sum_list_with_insert task_weight l.2 k t t' Hk).
  assert (Hsl : forall w, t = AwaitSleep w -> 1 < remaining_attempts w).
  { intros w ->. apply Hs. by eapply list_elem_of_lookup_2. }
  pose proof (move_budget _ _ _ _ Hm Hsl). lia.
Qed.

(** The live tasks are the tasks that have not returned. *)
Lemma live_from_lookup (b : nat) (ts : list (Task A)) (k : nat) :
  k ∈ live_from b ts ->
  exists j t, k = (b + j)%nat /\ ts !! j = Some t /\ is_finished t = false.
Proof.
  revert b. induction ts as [|t ts IH]; intros b; cbn; [by intros ?%elem_of_nil|].
  intros [Hk|Hk]%elem_of_app.
  - destruct (is_finished t) eqn:E; [by apply elem_of_nil in Hk|].
    apply list_elem_of_singleton in Hk as ->. exists 0%nat, t.
    split; [lia | done].
  - destruct (IH _ Hk) as (j & t0 & -> & Hj & Hf).
    exists (S j), t0. split; [lia | done].
Qed.

Lemma live_lookup (ts : list (Task A)) (k : nat) :
  k ∈ live ts -> exists t, ts !! k = Some t /\ is_finished t = false.
Proof.
  intros (j & t & -> & Hj & Hf)%live_from_lookup. by exists t.
Qed.

Lemma live_from_nil (b : nat) (ts : list (Task A)) :
  live_from b ts = [] -> forallb is_finished ts = true.
Proof.
  revert b. induction ts as [|t ts IH]; intros b; cbn; [done|].
  destruct (is_finished t); cbn; [apply IH | discriminate].
Qed.

Lemma live_nil_iff (ts : list (Task A)) :
  live ts = [] <-> forallb is_finished ts = true.
Proof.
  split; [apply live_from_nil|].
  unfold live. generalize 0%nat. induction ts as [|t ts IH]; intros b; cbn; [done|].
  destruct (is_finished t); cbn; [apply IH | discriminate].
Qed.

Lemma chosen_is_live (c k : nat) (ks : list nat) :
  nth (c mod length (k :: ks)) (k :: ks) k ∈ k :: ks.
Proof.
  apply list_elem_of_In, nth_In, Nat.mod_upper_bound. cbn. lia.
Qed.

Lemma live_budget (l : Loop A St C) (k : nat) :
  k ∈ live l.2 -> (0 < budget l)%nat.
Proof.
  intros (t & Hk & Hf)%live_lookup. unfold budget.
  pose proof (sum_list_with_insert task_weight l.2 k t Finished Hk) as H.
  cbn [task_weight] in H.
  assert (0 < task_weight t)%nat by (destruct t; cbn; done || lia).
  lia.
Qed.

Lemma run_cons (c : nat) (schedule : list nat) (l : Loop A St C) :
  run (c :: schedule) l =
    match live l.2 with
    | [] => l
    | k :: ks =>
        run schedule (resume (nth (c mod length (k :: ks)) (k :: ks) k) l)
    end.
Proof. reflexivity. Qed.

(** A schedule at least as long as the budget runs every worker to its
    return, whatever it chooses. *)
Lemma run_finishes (schedule : list nat) (l : Loop A St C) :
  sleepers_can_retry l.2 ->
  (budget l <= length schedule)%nat ->
  forallb is_finished (run schedule l).2 = true.
Proof.
  revert l. induction schedule as [|c schedule IH]; intros l Hs Hb.
  - apply live_nil_iff. destruct (live l.2) as [|k ks] eqn:E; [done|].
    assert (Hk : k ∈ live l.2) by (rewrite E; left).
    apply live_budget in Hk. simpl in Hb. lia.
  - rewrite run_cons.
    destruct (live l.2) as [|k ks] eqn:E; [by apply live_nil_iff|].
    assert (Hin : nth (c mod length (k :: ks)) (k :: ks) k ∈ live l.2)
      by (rewrite E; apply chosen_is_live).
    apply live_lookup in Hin as (t & Hk & Hf).
    destruct (resume_budget l _ t Hs Hk Hf) as [Hs' Hlt].
    apply IH; [exact Hs'|]. simpl in Hb. lia.
Qed.

End ProcessorSteps.

(** *** The processor: the invariant of a run *)

Section ProcessorInvariant.

Import AsyncBatchProcessor ProcessorSpec.

Context {A St C : Type}.
Variable processor_func : ProcessorFunc A St.
Variable config : ProcessorConfig C.

Local Abbreviation resume := (resume processor_func config).
Local Abbreviation run := (run processor_func config).
Local Abbreviation move := (move processor_func).
Local Abbreviation invariant := (invariant processor_func).
Local Abbreviation settled := (settled processor_func).

Lemma pending_elim (l : Loop A St C) (k : nat) (t : Task A) (w : WorkItem A) :
  l.2 !! k = Some t -> pending l w ->
  w ∈ st_queue l.1 \/ held t = Some w \/
  exists j t0, j <> k /\ l.2 !! j = Some t0 /\ held t0 = Some w.
Proof.
  intros Hk [Hq|(j & t0 & Hj & Hh)]; [by left|].
  destruct (decide (j = k)) as [->|Hne].
  - right; left. congruence.
  - right; right. eauto.
Qed.

Lemma pending_insert_elim (s' : State A St C) (ts : list (Task A)) (k : nat)
    (t' : Task A) (w : WorkItem A) :
  pending (s', <[k := t']> ts) w ->
  w ∈ st_queue s' \/ held t' = Some w \/
  exists j t0, j <> k /\ ts !! j = Some t0 /\ held t0 = Some w.
Proof.
  intros [Hq|(j & t0 & Hj & Hh)]; [by left|]. simpl in Hj.
  apply list_lookup_insert_Some in Hj as [(-> & <- & _)|[Hne Hj]].
  - by right; left.
  - right; right. exists j, t0. auto.
Qed.

Lemma pending_queue (s : State A St C) (ts : list (Task A)) (w : WorkItem A) :
  w ∈ st_queue s -> pending (s, ts) w.
Proof. intros H. by left. Qed.

Lemma pending_at (s : State A St C) (ts : list (Task A)) (k : nat)
    (t : Task A) (w : WorkItem A) :
  ts !! k = Some t -> held t = Some w -> pending (s, ts) w.
Proof. intros Hk Hh. right. eauto. Qed.

Lemma pending_self (s' : State A St C) (ts : list (Task A)) (k : nat)
    (t' : Task A) (w : WorkItem A) :
  (k < length ts)%nat -> held t' = Some w -> pending (s', <[k := t']> ts) w.
Proof.
  intros Hk Hh. eapply pending_at; [|exact Hh].
  by apply list_lookup_insert_eq.
Qed.

Lemma pending_other (s' : State A St C) (ts : list (Task A)) (k j : nat)
    (t' t0 : Task A) (w : WorkItem A) :
  j <> k -> ts !! j = Some t0 -> held t0 = Some w ->
  pending (s', <[k := t']> ts) w.
Proof.
  intros Hne Hj Hh. eapply pending_at; [|exact Hh].
  rewrite list_lookup_insert_ne; [done | congruence].
Qed.

(** What a move does to the pending items and to [results]. *)
Lemma move_facts (s s' : State A St C) (ts : list (Task A)) (k : nat)
    (t t' : Task A) :
  ts !! k = Some t -> move s t s' t' ->
  (forall w0, pending (s', <[k := t']> ts) w0 ->
     exists w1, pending (s, ts) w1 /\ index w0 = index w1 /\ data w0 = data w1) /\
  (forall w0, pending (s, ts) w0 ->
     (exists w1, pending (s', <[k := t']> ts) w1 /\ index w1 = index w0) \/
     (held t = Some w0 /\
      exists v, st_results s' = <[index w0 := v]> (st_results s) /\
                exists x, v = outcome_value (processor_func (data w0) x).1)) /\
  (st_results s' = st_results s \/
   exists w v, held t = Some w /\
               st_results s' = <[index w := v]> (st_results s) /\
               exists x, v = outcome_value (processor_func (data w) x).1) /\
  (is_finished t' = false \/ st_queue s' = []).
Proof.
  intros Hk Hm.
  assert (Hlt : (k < length ts)%nat) by (by eapply lookup_lt_Some).
  assert (Hsame : forall w0 : WorkItem A,
             pending (s, ts) w0 ->
             exists w1, pending (s, ts) w1 /\ index w0 = index w1 /\ data w0 = data w1)
    by (intros w0 H; by exists w0).
  destruct Hm as [Hq|w q Hq|w v s' Hq Hr Hv|w s' Hq Hr Hat
                 |w s' Hq Hr Hat|w s' Hq Hr].
  - split; [|split; [|split; [by left | by right]]].
    + intros w0 [H|[H|(j & t0 & Hne & Hj & Hh)]]%pending_insert_elim;
        [| discriminate |].
      * apply Hsame. by apply pending_queue.
      * apply Hsame. by eapply pending_at.
    + intros w0 [H|[H|(j & t0 & Hne & Hj & Hh)]]%(pending_elim _ k AtDequeue);
        [| discriminate | | done]; left; exists w0; split; try done.
      * by apply pending_queue.
      * by eapply pending_other.
  - split; [|split; [|split; [by left | by left]]].
    + intros w0 [H|[H|(j & t0 & Hne & Hj & Hh)]]%pending_insert_elim.
      * apply Hsame. apply pending_queue. rewrite Hq. by right.
      * injection H as <-. apply Hsame. apply pending_queue. rewrite Hq. by left.
      * apply Hsame. by eapply pending_at.
    + intros w0 [H|[H|(j & t0 & Hne & Hj & Hh)]]%(pending_elim _ k AtDequeue);
        [| discriminate | | done]; left; exists w0; split; try done.
      * simpl in H. rewrite Hq in H. apply elem_of_cons in H as [->|H].
        -- by apply pending_self.
        -- by apply pending_queue.
      * by eapply pending_other.
  - split; [|split; [|split; [right; by exists w, v | by left]]].
    + intros w0 [H|[H|(j & t0 & Hne & Hj & Hh)]]%pending_insert_elim;
        [| discriminate |].
      * apply Hsame. apply pending_queue. by rewrite <- Hq.
      * apply Hsame. by eapply pending_at.
    + intros w0 [H|[H|(j & t0 & Hne & Hj & Hh)]]%(pending_elim _ k (AwaitOp w));
        [| | | done].
      * left. exists w0. split; [|done]. apply pending_queue. by rewrite Hq.
      * injection H as <-. right. split; [done|]. by exists v.
      * left. exists w0. split; [|done]. by eapply pending_other.
  - split; [|split; [|split; [by left | by left]]].
    + intros w0 [H|[H|(j & t0 & Hne & Hj & Hh)]]%pending_insert_elim.
      * apply Hsame. apply pending_queue. by rewrite <- Hq.
      * injection H as <-. apply Hsame. by eapply pending_at.
      * apply Hsame. by eapply pending_at.
    + intros w0 [H|[H|(j & t0 & Hne & Hj & Hh)]]%(pending_elim _ k (AwaitOp w));
        [| | | done]; left; exists w0; split; try done.
      * apply pending_queue. by rewrite Hq.
      * injection H as <-. by apply pending_self.
      * by eapply pending_other.
  - split; [|split; [|split; [by left | by left]]].
    + intros w0 [H|[H|(j & t0 & Hne & Hj & Hh)]]%pending_insert_elim;
        [| discriminate |].
      * rewrite Hq in H. apply elem_of_app in H as [H|H].
        -- apply Hsame. by apply pending_queue.
        -- apply list_elem_of_singleton in H as ->. exists w.
           split; [by eapply pending_at | done].
      * apply Hsame. by eapply pending_at.
    + intros w0 [H|[H|(j & t0 & Hne & Hj & Hh)]]%(pending_elim _ k (AwaitOp w));
        [| | | done]; left.
      * exists w0. split; [|done]. apply pending_queue. rewrite Hq.
        apply elem_of_app. by left.
      * injection H as <-. exists (decrement w). split; [|done].
        apply pending_queue. rewrite Hq. apply elem_of_app. right. by left.
      * exists w0. split; [|done]. by eapply pending_other.
  - split; [|split; [|split; [by left | by left]]].
    + intros w0 [H|[H|(j & t0 & Hne & Hj & Hh)]]%pending_insert_elim;
        [| discriminate |].
      * rewrite Hq in H. apply elem_of_app in H as [H|H].
        -- apply Hsame. by apply pending_queue.
        -- apply list_elem_of_singleton in H as ->. exists w.
           split; [by eapply pending_at | done].
      * apply Hsame. by eapply pending_at.
    + intros w0 [H|[H|(j & t0 & Hne & Hj & Hh)]]%(pending_elim _ k (AwaitSleep w));
        [| | | done]; left.
      * exists w0. split; [|done]. apply pending_queue. rewrite Hq.
        apply elem_of_app. by left.
      * injection H as <-. exists (decrement w). split; [|done].
        apply pending_queue. rewrite Hq. apply elem_of_app. right. by left.
      * exists w0. split; [|done]. by eapply pending_other.
Qed.

(** Every move keeps the invariant. *)
Lemma move_invariant (items : list (PyObj A)) (s s' : State A St C)
    (ts : list (Task A)) (k : nat) (t t' : Task A) :
  invariant items (s, ts) -> ts !! k = Some t -> move s t s' t' ->
  invariant items (s', <[k := t']> ts).
Proof.
  intros [Hlen Hit Hlive Hsl] Hk Hm. simpl in Hlen, Hit, Hlive, Hsl.
  assert (Hlt : (k < length ts)%nat) by (by eapply lookup_lt_Some).
  destruct (move_facts s s' ts k t t' Hk Hm) as (Hback & Hfwd & Hres & Hfin).
  assert (Hidx : forall w, pending (s, ts) w -> (index w < length (st_results s))%nat).
  { intros w Hw. rewrite Hlen. eapply lookup_lt_Some. by apply Hit. }
  split; simpl.
  - destruct Hres as [->|(w & v & _ & -> & _)]; [done|].
    by rewrite length_insert.
  - intros w0 Hw0. destruct (Hback w0 Hw0) as (w1 & Hw1 & -> & ->). by apply Hit.
  - intros Hne. destruct Hfin as [Hfin|Hfin]; [|done].
    exists k, t'. split; [by apply list_lookup_insert_eq | done].
  - intros i Hi. destruct (Hsl i Hi) as [(w0 & Hw0 & <-)|(v & Hv & Hset)].
    + destruct (Hfwd w0 Hw0) as [(w1 & Hw1 & Hi1)|(Hh & v & Hr & x & Hx)].
      * left. by exists w1.
      * right. exists v. split.
        -- rewrite Hr. apply list_lookup_insert_eq. by apply Hidx.
        -- exists (data w0), x. split; [by apply Hit | done].
    + right. destruct Hres as [->|(w & v' & Hh & -> & x & Hx)]; [by exists v|].
      destruct (decide (index w = i)) as [<-|Hne].
      * exists v'. split.
        -- apply list_lookup_insert_eq. apply Hidx. by eapply pending_at.
        -- exists (data w), x. split; [|done]. apply Hit. by eapply pending_at.
      * exists v. split; [|done]. by rewrite list_lookup_insert_ne.
Qed.

End ProcessorInvariant.

(** *** The processor: whole runs *)

Section ProcessorRuns.

Import AsyncBatchProcessor ProcessorSpec.

Context {A St C : Type}.
Variable processor_func : ProcessorFunc A St.
Variable config : ProcessorConfig C.

Local Abbreviation run := (run processor_func config).
Local Abbreviation invariant := (invariant processor_func).
Local Abbreviation settled := (settled processor_func).

Lemma run_invariant (items : list (PyObj A)) (schedule : list nat)
    (l : Loop A St C) :
  invariant items l -> invariant items (run schedule l).
Proof.
  revert l. induction schedule as [|c schedule IH]; intros l Hinv; [done|].
  rewrite run_cons. destruct (live l.2) as [|k ks] eqn:E; [done|].
  assert (Hin : nth (c mod length (k :: ks)) (k :: ks) k ∈ live l.2)
    by (rewrite E; apply chosen_is_live).
  apply live_lookup in Hin as (t & Hk & Hf).
  destruct (resume_move processor_func config l _ t Hk Hf) as (s' & t' & Hm & ->).
  apply IH. destruct l as [s ts]. by eapply move_invariant.
Qed.

Lemma start_sleepers (items : list (PyObj A)) (s0 : St) (c0 : C) :
  sleepers_can_retry (start config items s0 c0).2.
Proof. intros w [Hw _]%elem_of_replicate. discriminate. Qed.

Lemma start_invariant (items : list (PyObj A)) (s0 : St) (c0 : C) :
  1 <= num_workers config -> invariant items (start config items s0 c0).
Proof.
  intros Hn. split; simpl.
  - apply length_replicate.
  - intros w [Hw|(j & t & Hj & Hh)].
    + simpl in Hw. apply elem_of_lookup_imap_1 in Hw as (i & x & -> & Hi). done.
    + simpl in Hj. apply lookup_replicate in Hj as [-> _]. discriminate.
  - intros _. exists 0%nat, AtDequeue. split; [|done].
    apply lookup_replicate_2. lia.
  - intros i Hi. left.
    destruct (lookup_lt_is_Some_2 items i Hi) as [x Hx].
    eexists. split; [left; simpl; by eapply elem_of_lookup_imap_2 | done].
Qed.

(** When every worker has returned, every slot holds the success value
    or the error of its input. *)
Lemma finished_slots (items : list (PyObj A)) (l : Loop A St C) :
  invariant items l -> forallb is_finished l.2 = true ->
  forall i x, items !! i = Some x ->
    exists v, st_results l.1 !! i = Some v /\ settled items i v.
Proof.
  intros [Hlen Hit Hlive Hsl] Hfin i x Hi.
  assert (Hall : forall j t, l.2 !! j = Some t -> is_finished t = true).
  { intros j t Hj. rewrite forallb_forall in Hfin. apply Hfin.
    apply list_elem_of_In. by eapply list_elem_of_lookup_2. }
  assert (Hq : st_queue l.1 = []).
  { destruct (st_queue l.1) as [|w q] eqn:E; [done|].
    destruct Hlive as (j & t & Hj & Hf); [done|].
    rewrite (Hall j t Hj) in Hf. discriminate. }
  destruct (Hsl i) as [(w & Hw & _)|H]; [by eapply lookup_lt_Some| |done].
  exfalso. destruct Hw as [Hw|(j & t & Hj & Hh)].
  - rewrite Hq in Hw. by apply elem_of_nil in Hw.
  - specialize (Hall j t Hj). destruct t; discriminate.
Qed.

(** With a schedule that is long enough, [process] returns. *)
Lemma process_returns (items : list (PyObj A)) (schedule : list nat)
    (s0 : St) (c0 : C) :
  (budget (start config items s0 c0) <= length schedule)%nat ->
  forallb is_finished (run schedule (start config items s0 c0)).2 = true /\
  process processor_func config items schedule s0 c0 =
    Some (finish items (run schedule (start config items s0 c0)).1).
Proof.
  intros Hb.
  pose proof (run_finishes processor_func config schedule _
                (start_sleepers items s0 c0) Hb) as Hfin.
  split; [done|]. unfold process. by rewrite Hfin.
Qed.

(** With at least one worker it returns with every slot settled. *)
Lemma process_settles (items : list (PyObj A)) (schedule : list nat)
    (s0 : St) (c0 : C) :
  1 <= num_workers config ->
  (budget (start config items s0 c0) <= length schedule)%nat ->
  exists r,
    process processor_func config items schedule s0 c0 = Some r /\
    r = finish items (run schedule (start config items s0 c0)).1 /\
    length (results r) = length items /\
    forall i x, items !! i = Some x ->
      exists v, results r !! i = Some v /\ settled items i v.
Proof.
  intros Hn Hb. destruct (process_returns items schedule s0 c0 Hb) as [Hfin Hp].
  eexists. split; [exact Hp|]. split; [done|].
  pose proof (run_invariant items schedule _ (start_invariant items s0 c0 Hn))
    as Hinv.
  split; [apply Hinv|]. simpl. by apply finished_slots.
Qed.


Lemma sum_exceptions_all (l : list (PyObj A)) :
  (forall v, v ∈ l -> is_exception v = true) ->
  sum_list_with (fun r => if is_exception r then 1 else 0)%nat l = length l.
Proof.
  induction l as [|v l IH]; simpl; [done|]. intros H.
  rewrite (H v) by left. rewrite IH; [done|]. intros v' Hv'. apply H. by right.
Qed.

Lemma sum_exceptions_filter (l : list (PyObj A)) :
  sum_list_with (fun r => if is_exception r then 1 else 0)%nat l =
  length (List.filter is_exception l).
Proof.
  induction l as [|v l IH]; simpl; [done|].
  destruct (is_exception v); simpl; lia.
Qed.

End ProcessorRuns.

(** *** The processor: the progress sink and the counters *)

Section ProcessorSink.

Import AsyncBatchProcessor ProcessorSpec.

Context {A St C : Type}.
Variable processor_func : ProcessorFunc A St.
Variable config : ProcessorConfig C.
Variables cb1 cb2 : option (ProgressCallback C).

Local Abbreviation config1 := (with_progress config cb1).
Local Abbreviation config2 := (with_progress config cb2).

Lemma same_state_report (s1 s2 : State A St C) :
  same_state s1 s2 ->
  same_state (report_progress config1 s1) (report_progress config2 s2).
Proof.
  intros (Hq & Hr & Ht & Hf & Ho).
  destruct (report_progress_fields config1 s1) as (E1 & E2 & E3 & E4 & E5).
  destruct (report_progress_fields config2 s2) as (F1 & F2 & F3 & F4 & F5).
  unfold same_state. rewrite E1, E2, E3, E4, E5, F1, F2, F3, F4, F5.
  by repeat split.
Qed.

Lemma same_state_failure (w : WorkItem A) (e : PyException)
    (s1 s2 : State A St C) :
  same_state s1 s2 ->
  same_state (record_failure w e s1) (record_failure w e s2).
Proof.
  intros (Hq & Hr & Ht & Hf & Ho). unfold same_state. simpl.
  by rewrite Hq, Hr, Ht, Hf, Ho.
Qed.

Lemma same_state_requeue (w : WorkItem A) (s1 s2 : State A St C) :
  same_state s1 s2 -> same_state (requeue w s1) (requeue w s2).
Proof.
  intros (Hq & Hr & Ht & Hf & Ho). unfold same_state. simpl.
  by rewrite Hq, Hr, Ht, Hf, Ho.
Qed.

Lemma same_state_handle (e : PyException) (w : WorkItem A)
    (s1 s2 : State A St C) :
  same_state s1 s2 ->
  same_state (_handle_retryable_error config1 e w s1).1
             (_handle_retryable_error config2 e w s2).1 /\
  (_handle_retryable_error config1 e w s1).2 =
  (_handle_retryable_error config2 e w s2).2.
Proof.
  intros Hs. unfold _handle_retryable_error.
  change (retry_strategy config2) with (retry_strategy config1).
  change (should_retry config2 e w) with (should_retry config1 e w).
  change (_calculate_backoff config2 (remaining_attempts w))
    with (_calculate_backoff config1 (remaining_attempts w)).
  pose proof (same_state_failure w e _ _ Hs).
  pose proof (same_state_requeue w _ _ Hs).
  destruct (retry_strategy config1); try done;
    destruct (should_retry config1 e w); try done;
    destruct (backoff_positive _); done.
Qed.

(** One resumption does the same to two states that differ in the sink
    only, whatever the two callbacks do. *)
Lemma same_state_worker (t : Task A) (s1 s2 : State A St C) :
  same_state s1 s2 ->
  same_state (_worker processor_func config1 t s1).1
             (_worker processor_func config2 t s2).1 /\
  (_worker processor_func config1 t s1).2 =
  (_worker processor_func config2 t s2).2.
Proof.
  intros Hs. pose proof Hs as (Hq & Hr & Ht & Hf & Ho).
  destruct t as [|w|w|]; simpl.
  - rewrite Hq. destruct (st_queue s2); simpl; [done|].
    split; [|done]. unfold same_state. simpl. by rewrite Hr, Ht, Hf, Ho.
  - rewrite Ho. destruct (processor_func (data w) (st_op s2)) as [o ops].
    assert (Hs' : same_state (set_op ops s1) (set_op ops s2)).
    { unfold same_state. simpl. by rewrite Hq, Hr, Ht, Hf. }
    destruct o as [v|e]; simpl.
    + split; [|done]. apply same_state_report.
      unfold same_state. simpl. by rewrite Hq, Hr, Ht, Hf.
    + change (is_retryable config2 e) with (is_retryable config1 e).
      destruct (is_retryable config1 e).
      * by apply same_state_handle.
      * split; [|done]. by apply same_state_failure.
  - split; [|done]. by apply same_state_requeue.
  - done.
Qed.

Lemma same_resume (k : nat) (l1 l2 : Loop A St C) :
  same_but_sink l1 l2 ->
  same_but_sink (resume processor_func config1 k l1)
                (resume processor_func config2 k l2).
Proof.
  intros [Hs Ht]. unfold resume. rewrite Ht.
  destruct (l2.2 !! k) as [t|]; [|by split].
  destruct (same_state_worker t _ _ Hs) as [Hs' Ht'].
  destruct (_worker processor_func config1 t l1.1) as [s1' t1'].
  destruct (_worker processor_func config2 t l2.1) as [s2' t2'].
  simpl in *. subst. by split.
Qed.

Lemma same_run (schedule : list nat) (l1 l2 : Loop A St C) :
  same_but_sink l1 l2 ->
  same_but_sink (run processor_func config1 schedule l1)
                (run processor_func config2 schedule l2).
Proof.
  revert l1 l2. induction schedule as [|c schedule IH]; intros l1 l2 Hs; [done|].
  rewrite !run_cons. destruct Hs as [Hs Ht]. rewrite Ht.
  destruct (live l2.2) as [|k ks]; [by split|].
  apply IH, same_resume. by split.
Qed.

(** [process] returns the same result under the two callbacks. *)
Lemma same_process (items : list (PyObj A)) (schedule : list nat)
    (s0 : St) (c1 c2 : C) :
  process processor_func config1 items schedule s0 c1 =
  process processor_func config2 items schedule s0 c2.
Proof.
  unfold process.
  assert (H0 : same_but_sink (start config1 items s0 c1) (start config2 items s0 c2))
    by (by repeat split).
  destruct (same_run schedule _ _ H0) as [(Hq & Hr & Ht & Hf & Ho) Hts].
  rewrite Hts. destruct (forallb is_finished _); [|done].
  unfold finish. by rewrite Hr, Ht.
Qed.

End ProcessorSink.

Section ProcessorNoFailure.

Import AsyncBatchProcessor ProcessorSpec.

Context {A St C : Type}.
Variable processor_func : ProcessorFunc A St.
Variable config : ProcessorConfig C.

(** The processing function never raises. *)
Hypothesis never_raises :
  forall x s, exists v s', processor_func x s = (Return v, s').

Lemma no_failure_resume (k : nat) (l : Loop A St C) :
  no_failure_recorded l ->
  no_failure_recorded (resume processor_func config k l).
Proof.
  intros (Hf & Hr & Hs). unfold resume.
  destruct (l.2 !! k) as [t|] eqn:Hk; [|done].
  assert (Hins : forall (s' : State A St C) t', (forall w, t' <> AwaitSleep w) ->
            st_total_failed s' = 0 -> st_total_retried s' = 0 ->
            no_failure_recorded (s', <[k := t']> l.2)).
  { intros s' t' Ht' Hf' Hr'. split; [done|]. split; [done|].
    intros w Hw. apply list_elem_of_lookup in Hw as [j Hj]. simpl in Hj.
    apply list_lookup_insert_Some in Hj as [(_ & Ht & _)|[_ Hj]].
    - by apply (Ht' w).
    - apply (Hs w). by eapply list_elem_of_lookup_2. }
  destruct t as [|w|w|]; simpl.
  - destruct (st_queue l.1); by apply Hins.
  - destruct (never_raises (data w) (st_op l.1)) as (v & s' & ->). simpl.
    destruct (report_progress_fields config (store_result w v (set_op s' l.1)))
      as (_ & _ & Er & Ef & _).
    apply Hins; [done | by rewrite Ef | by rewrite Er].
  - exfalso. apply (Hs w). by eapply list_elem_of_lookup_2.
  - by apply Hins.
Qed.

Lemma no_failure_run (schedule : list nat) (l : Loop A St C) :
  no_failure_recorded l ->
  no_failure_recorded (run processor_func config schedule l).
Proof.
  revert l. induction schedule as [|c schedule IH]; intros l Hl; [done|].
  rewrite run_cons. destruct (live l.2); [done|].
  by apply IH, no_failure_resume.
Qed.

Lemma no_failure_start (items : list (PyObj A)) (s0 : St) (c0 : C) :
  no_failure_recorded (start config items s0 c0).
Proof.
  split; [done|]. split; [done|].
  intros w [Hw _]%elem_of_replicate. discriminate.
Qed.

End ProcessorNoFailure.

(** *** Claims about the batch processor *)

Section ProcessorClaims.

Import AsyncBatchProcessor ProcessorSpec Examples.

Context {A St C : Type}.
Variable processor_func : ProcessorFunc A St.
Variable config : ProcessorConfig C.

Lemma strategy_none_or_not (rs : RetryStrategy) : rs = NONE \/ rs <> NONE.
Proof. destruct rs; (by left) || (by right). Qed.




(** C8: whatever the progress callback does, raising on any of its
    calls included, [process] returns, and it returns the result
    ([results] and the three counters) of the run without a callback
    and of the run with any other callback. *)
Theorem C8_progress_exceptions_swallowed (callback : ProgressCallback C)
    (items : list (PyObj A)) (schedule : list nat) (s0 : St) (c0 : C) :
  (budget (start config items s0 c0) <= length schedule)%nat ->
  exists r,
    process processor_func (with_progress config (Some callback))
      items schedule s0 c0 = Some r /\
    (forall c, process processor_func (with_progress config None)
                 items schedule s0 c = Some r) /\
    (forall other c, process processor_func (with_progress config (Some other))
                       items schedule s0 c = Some r).
Proof.
  intros Hb.
  destruct (process_returns processor_func (with_progress config (Some callback))
              items schedule s0 c0 Hb) as [_ Hp].
  eexists. split; [exact Hp|]. split.
  - intros c. rewrite <- Hp. apply same_process.
  - intros other c. rewrite <- Hp. apply same_process.
Qed.

(** C9: [total_failed] of the result is the number of slots of
    [results] that hold an exception object, and [total_processed] is
    the rest.  So when the processing function returns an exception
    object as its value for every input, every item is counted in
    [total_failed] and none in [total_processed], although no failure
    was recorded during the run. *)
Theorem C9_total_failed_counts_exception_slots (items : list (PyObj A))
    (schedule : list nat) (s0 : St) (c0 : C) :
  1 <= num_workers config ->
  (budget (start config items s0 c0) <= length schedule)%nat ->
  exists r,
    process processor_func config items schedule s0 c0 = Some r /\
    total_failed r = Z.of_nat (length (List.filter is_exception (results r))) /\
    total_processed r = Z.of_nat (length items) - total_failed r /\
    (forall i x, items !! i = Some x ->
       (forall s, exists e s', processor_func x s = (Return (PyExc e), s')) ->
       exists e, results r !! i = Some (PyExc e)) /\
    ((forall x s, exists e s', processor_func x s = (Return (PyExc e), s')) ->
     total_failed r = Z.of_nat (length items) /\
     total_processed r = 0 /\
     st_total_failed
       (run processor_func config schedule (start config items s0 c0)).1 = 0).
Proof.
  intros Hn Hb.
  destruct (process_settles processor_func config items schedule s0 c0 Hn Hb)
    as (r & Hp & Hr & Hlen & Hslots).
  exists r. split; [done|]. subst r. simpl in *.
  split; [by rewrite sum_exceptions_filter|]. split; [done|].
  split.
  { intros i x Hi Hx.
    destruct (Hslots i x Hi) as (v & Hv & x' & s & Hx' & ->).
    assert (x' = x) as -> by congruence.
    destruct (Hx s) as (e & s' & He). exists e. by rewrite Hv, He. }
  intros Hexc.
  set (l := run processor_func config schedule (start config items s0 c0)) in *.
  assert (Hall : forall v, v ∈ st_results l.1 -> is_exception v = true).
  { intros v [i Hi]%list_elem_of_lookup.
    assert (Hlt : (i < length items)%nat)
      by (rewrite <- Hlen; by eapply lookup_lt_Some).
    destruct (lookup_lt_is_Some_2 items i Hlt) as [x Hx].
    destruct (Hslots i x Hx) as (v' & Hv' & x' & s & _ & ->).
    rewrite Hi in Hv'. injection Hv' as ->.
    destruct (Hexc x' s) as (e & s' & ->). done. }
  rewrite (sum_exceptions_all _ Hall), Hlen.
  split; [done|]. split; [lia|].
  assert (Hnr : forall x s, exists v s', processor_func x s = (Return v, s')).
  { intros x s. destruct (Hexc x s) as (e & s' & H). eauto. }
  apply (no_failure_run processor_func config Hnr schedule _
           (no_failure_start config items s0 c0)).
Qed.

End ProcessorClaims.

Section ProcessorWitnesses.

Import AsyncBatchProcessor ProcessorSpec Examples.






Lemma C8_progress_exceptions_swallowed_witness :
  exists r,
    process double (with_progress (default_config 2 2) (Some failing_progress))
      [PyVal 1; PyVal 2] (replicate 18 0%nat) tt tt = Some r /\
    (forall c, process double (with_progress (default_config 2 2) None)
                 [PyVal 1; PyVal 2] (replicate 18 0%nat) tt c = Some r) /\
    (forall other c,
       process double (with_progress (default_config 2 2) (Some other))
         [PyVal 1; PyVal 2] (replicate 18 0%nat) tt c = Some r).
Proof.
  apply (C8_progress_exceptions_swallowed double (default_config 2 2)
           failing_progress [PyVal 1; PyVal 2] (replicate 18 0%nat) tt tt).
  vm_compute. lia.
Defined.

Lemma C9_total_failed_counts_exception_slots_witness :
  exists r,
    process returns_error (default_config 2 2) [PyVal 1; PyVal 2]
      (replicate 18 0%nat) tt tt = Some r /\
    total_failed r = Z.of_nat (length (List.filter is_exception (results r))) /\
    total_processed r = Z.of_nat (length [PyVal 1; PyVal 2]) - total_failed r /\
    (forall i x, [PyVal 1; PyVal 2] !! i = Some x ->
       (forall s, exists e s', returns_error x s = (Return (PyExc e), s')) ->
       exists e, results r !! i = Some (PyExc e)) /\
    ((forall x s, exists e s', returns_error x s = (Return (PyExc e), s')) ->
     total_failed r = Z.of_nat (length [PyVal 1; PyVal 2]) /\
     total_processed r = 0 /\
     st_total_failed
       (run returns_error (default_config 2 2) (replicate 18 0%nat)
          (start (default_config 2 2) [PyVal 1; PyVal 2] tt tt)).1 = 0).
Proof.
  apply (C9_total_failed_counts_exception_slots returns_error
           (default_config 2 2) [PyVal 1; PyVal 2] (replicate 18 0%nat) tt tt);
    [simpl; lia | vm_compute; lia].
Defined.

End ProcessorWitnesses.

(** *** The bulk indexer *)

Section IngestClaims.

Import AsyncBatchProcessor ProcessorSpec Ingest Examples.

Lemma triage_count_mono (its : list (option CreateResult))
    (acc : list string * ErrorTable * Z) :
  acc.2 <= (triage its acc).2.
Proof.
  revert acc. induction its as [|item its IH]; intros acc; simpl; [lia|].
  destruct item as [[d [e|]]|]; try apply IH.
  destruct acc as [[msgs tbl] n].
  destruct (String.eqb (error_type e) "version_conflict_engine_exception").
  - etransitivity; [|apply IH]. simpl. lia.
  - etransitivity; [|apply IH]. simpl. lia.
Qed.

Lemma triage_count_pos (its : list (option CreateResult))
    (acc : list string * ErrorTable * Z) (d : string) (e : BulkError) :
  Some {| doc_id := d; error := Some e |} ∈ its ->
  error_type e <> "version_conflict_engine_exception" ->
  acc.2 < (triage its acc).2.
Proof.
  intros Hin Hne. revert acc.
  induction its as [|item its IH]; intros acc; [by apply elem_of_nil in Hin|].
  apply elem_of_cons in Hin as [<-|Hin].
  - simpl. destruct acc as [[msgs tbl] n].
    apply String.eqb_neq in Hne. rewrite Hne.
    eapply Z.lt_le_trans; [|apply triage_count_mono]. simpl. lia.
  - specialize (IH Hin). simpl.
    destruct item as [[d' [e'|]]|]; try apply IH.
    destruct acc as [[msgs tbl] n].
    destruct (String.eqb (error_type e') "version_conflict_engine_exception").
    + eapply Z.le_lt_trans; [|apply IH]. simpl. lia.
    + eapply Z.le_lt_trans; [|apply IH]. simpl. lia.
Qed.

(** A response with an error that is not a version conflict makes
    [_parse_bulk_errors] raise a plain [Exception]. *)
Lemma parse_bulk_errors_raises (response : BulkResponse) (n : Z)
    (d : string) (e : BulkError) :
  errors response = true ->
  Some {| doc_id := d; error := Some e |} ∈ items response ->
  error_type e <> "version_conflict_engine_exception" ->
  exists msgs msg,
    _parse_bulk_errors response n = (msgs, Some (plain_exception msg)).
Proof.
  intros He Hin Hne. unfold _parse_bulk_errors. rewrite He. simpl.
  pose proof (triage_count_pos (items response) ([], [], 0) d e Hin Hne) as Hpos.
  destruct (triage (items response) ([], [], 0)) as [[msgs tbl] k].
  simpl in Hpos. apply Z.ltb_lt in Hpos. rewrite Hpos. eauto.
Qed.

(** Under the configuration of [ingest], a plain [Exception] is not
    retryable: the worker stores it and never re-enqueues the batch,
    whatever [max_attempts] is. *)
Lemma ingest_plain_exception_terminal {Row Cluster C : Type} (max_attempts : Z)
    (on_progress : ProgressCallback C) (msg : string)
    (w : WorkItem (Payload Row))
    (s : State (Payload Row) (Cluster * list string) C) :
  is_retryable (ingest_config max_attempts on_progress) (plain_exception msg) = false /\
  after_op (ingest_config max_attempts on_progress) w (Raise (plain_exception msg)) s =
    (record_failure w (plain_exception msg) s, AtDequeue).
Proof. split; reflexivity. Qed.

(** C6: the behaviour of the code on a batch whose response holds a
    mapping error, with [max_attempts = 5]: [_parse_bulk_errors] raises
    a plain [Exception]; the configuration that [ingest] builds keeps
    the default [retryable_exceptions = (ClientError,)], so the
    exception is not retryable; the run stores it in the slot of the
    batch, retries nothing, and the cluster receives one request. *)
Theorem C6_rejected_batch_is_not_retried :
  (exists msgs,
     _parse_bulk_errors rejected_response 1 =
       (msgs, Some (plain_exception
                      "Batch 1 has 1 errors (['mapper_parsing_exception'])"))) /\
  is_retryable (ingest_config 5 quiet_progress)
    (plain_exception "Batch 1 has 1 errors (['mapper_parsing_exception'])") = false /\
  ingest_process rejecting_cluster 5 quiet_progress [tt]
    (replicate 30 0%nat) 0%nat tt =
    Some {| results :=
              [PyExc (plain_exception
                        "Batch 1 has 1 errors (['mapper_parsing_exception'])")];
            total_processed := 0;
            total_failed := 1;
            total_retried := 0 |} /\
  (st_op (run (process_batch rejecting_cluster) (ingest_config 5 quiet_progress)
            (replicate 30 0%nat)
            (start (ingest_config 5 quiet_progress)
               (map (fun b => PyVal (Batch b)) (batches [tt])) (0%nat, []) tt)).1).1
  = 1%nat.
Proof.
  split; [eexists; reflexivity|]. split; [reflexivity|].
  split; [vm_compute; reflexivity | vm_compute; reflexivity].
Qed.

End IngestClaims.

(** *** The scenarios of the specification, evaluated *)

Section Scenarios.

Import AsyncBatchProcessor ProcessorSpec Examples.

Example scenario_doubling :
  process double (default_config 10 2)
    [PyVal 1; PyVal 2; PyVal 3; PyVal 4; PyVal 5] (seq 0 210) tt tt =
  Some {| results := [PyVal 2; PyVal 4; PyVal 6; PyVal 8; PyVal 10];
          total_processed := 5; total_failed := 0; total_retried := 0 |}.
Proof. vm_compute. reflexivity. Qed.

Example scenario_always_throttled :
  process always_throttled (default_config 2 2) [PyVal 1; PyVal 2]
    (seq 0 20) tt tt =
  Some {| results := [PyExc throttling_error; PyExc throttling_error];
          total_processed := 0; total_failed := 2; total_retried := 2 |}.
Proof. vm_compute. reflexivity. Qed.

Example scenario_throttled_once :
  process throttled_once (default_config 3 1) [PyVal 1] (seq 0 20) 0%nat tt =
  Some {| results := [PyVal 2];
          total_processed := 1; total_failed := 0; total_retried := 1 |}.
Proof. vm_compute. reflexivity. Qed.

Example scenario_non_retryable :
  process even_fails (throttling_only_config 10 2)
    [PyVal 1; PyVal 2; PyVal 3] (seq 0 130) tt tt =
  Some {| results := [PyVal 2; PyExc (value_error "even"); PyVal 6];
          total_processed := 2; total_failed := 1; total_retried := 0 |}.
Proof. vm_compute. reflexivity. Qed.

Example scenario_throttles :
  exists g,
    DynamicSemaphore.init (1 # 2) None 10 1 = inr g /\
    map (fun n => DynamicSemaphore.capacity
                    (Nat.iter n DynamicSemaphore.on_throttle g))
      [0; 1; 2; 3]%nat = [10; 5; 2; 1].
Proof. eexists. split; reflexivity. Qed.

Example scenario_successes :
  exists g,
    DynamicSemaphore.init (1 # 2) (Some 5) 10 1 = inr g /\
    map (fun n =>
           (DynamicSemaphore.capacity (Nat.iter n DynamicSemaphore.on_success g),
            DynamicSemaphore.success_count
              (Nat.iter n DynamicSemaphore.on_success g)))
      [4; 5; 10]%nat = [(10, 4); (11, 0); (12, 0)].
Proof. eexists. split; reflexivity. Qed.

End Scenarios.

(** *** The processor: calls and retries *)

Section LedgerFacts.

Import AsyncBatchProcessor ProcessorSpec ProcessorLedger.

Context {A St C : Type}.
Variable config : ProcessorConfig C.

Lemma backoff_positive_iff (remaining : Z) :
  backoff_positive (_calculate_backoff config remaining) = true <->
  retry_strategy config <> IMMEDIATE.
Proof.
  unfold _calculate_backoff.
  destruct (retry_strategy config); simpl; split; try done.
  intros _. apply Qltb_lt. apply Q.min_glb_lt; [|done].
  by apply Qpower_0_lt.
Qed.

Lemma after_op_cases (w : WorkItem A) (o : Outcome A) (s : State A St C) :
  after_call config w s o (after_op config w o s).
Proof.
  destruct o as [v|e]; simpl; [constructor|].
  destruct (is_retryable config e) eqn:Hr; [|constructor; auto].
  unfold _handle_retryable_error.
  destruct (strategy_none_or_not (retry_strategy config)) as [Hn|Hn].
  { rewrite Hn. constructor. auto. }
  destruct (should_retry config e w) eqn:Hs.
  - destruct (backoff_positive _) eqn:Hb.
    + apply backoff_positive_iff in Hb.
      destruct (retry_strategy config) eqn:E; try done;
        apply after_sleep; rewrite ?E; done.
    + assert (Hi : retry_strategy config = IMMEDIATE).
      { destruct (retry_strategy config) eqn:E; try done;
          exfalso; apply not_true_iff_false in Hb; apply Hb;
          apply backoff_positive_iff; by rewrite E. }
      rewrite Hi. by apply after_requeue.
  - destruct (retry_strategy config); try done; apply after_failure; auto.
Qed.

End LedgerFacts.

Section LedgerRuns.

Import AsyncBatchProcessor ProcessorSpec ProcessorLedger.

Context {A St C : Type}.
Variable processor_func : ProcessorFunc A St.
Variable config : ProcessorConfig C.

Local Abbreviation worker := (_worker processor_func config).
Local Abbreviation resume := (resume processor_func config).
Local Abbreviation run := (run processor_func config).

(** A property kept by every resumption of a live worker is kept by
    every run. *)
Lemma run_preserves (P : Loop A St C -> Prop) :
  (forall l k t, P l -> l.2 !! k = Some t -> is_finished t = false ->
                 P (resume k l)) ->
  forall schedule l, P l -> P (run schedule l).
Proof.
  intros Hstep schedule. induction schedule as [|c schedule IH]; intros l Hl; [done|].
  rewrite run_cons. destruct (live l.2) as [|k ks] eqn:E; [done|].
  assert (Hin : nth (c mod length (k :: ks)) (k :: ks) k ∈ live l.2)
    by (rewrite E; apply chosen_is_live).
  apply live_lookup in Hin as (t & Hk & Hf).
  apply IH. by eapply Hstep.
Qed.

Lemma resume_at (l : Loop A St C) (k : nat) (t : Task A) :
  l.2 !! k = Some t ->
  resume k l = ((worker t l.1).1, <[k := (worker t l.1).2]> l.2).
Proof.
  intros Hk. unfold AsyncBatchProcessor.resume. rewrite Hk.
  by destruct (worker t l.1).
Qed.

Lemma run_sleepers (schedule : list nat) (l : Loop A St C) :
  sleepers_can_retry l.2 -> sleepers_can_retry (run schedule l).2.
Proof.
  revert l. apply (run_preserves (fun l => sleepers_can_retry l.2)).
  intros l k t Hs Hk Hf.
  by destruct (resume_budget processor_func config l k t Hs Hk Hf).
Qed.

(** The potential of one worker and the queue: what a resumption does
    to it. *)
Lemma worker_potential (t : Task A) (s : State A St C) :
  (forall w, t = AwaitSleep w -> 1 < remaining_attempts w) ->
  st_total_retried (worker t s).1 +
  Z.of_nat (sum_list_with retries_left (st_queue (worker t s).1) +
            held_retries (worker t s).2) <=
  st_total_retried s +
  Z.of_nat (sum_list_with retries_left (st_queue s) + held_retries t).
Proof.
  intros Hsl. destruct t as [|w|w|]; simpl.
  - destruct (st_queue s) as [|w q] eqn:E; simpl; rewrite ?E;
      unfold held_retries; simpl; lia.
  - destruct (processor_func (data w) (st_op s)) as [o ops].
    pose proof (after_op_cases config w o (set_op ops s)) as Hc.
    destruct Hc as [v|e _|e _ _ _ _|e _ Hr _]; simpl.
    + destruct (report_progress_fields config (store_result w v (set_op ops s)))
        as (-> & _ & -> & _). simpl. unfold held_retries. simpl. lia.
    + unfold held_retries. simpl. lia.
    + unfold held_retries. simpl. lia.
    + apply should_retry_attempts in Hr.
      rewrite sum_list_with_app. unfold held_retries. simpl.
      rewrite (retries_left_decrement w Hr). lia.
  - rewrite sum_list_with_app. unfold held_retries. simpl.
    rewrite (retries_left_decrement w (Hsl w eq_refl)). lia.
  - lia.
Qed.

(** When every call raises an error that is retried while attempts
    remain, the potential is conserved. *)
Lemma worker_potential_exact (t : Task A) (s : State A St C) :
  always_retryable processor_func config ->
  (forall w, t = AwaitSleep w -> 1 < remaining_attempts w) ->
  st_total_retried (worker t s).1 +
  Z.of_nat (sum_list_with retries_left (st_queue (worker t s).1) +
            held_retries (worker t s).2) =
  st_total_retried s +
  Z.of_nat (sum_list_with retries_left (st_queue s) + held_retries t).
Proof.
  intros [Hnone Hal] Hsl. destruct t as [|w|w|]; simpl.
  - destruct (st_queue s) as [|w q] eqn:E; simpl; rewrite ?E;
      unfold held_retries; simpl; lia.
  - destruct (Hal (data w) (st_op s)) as (e & ops & -> & Hre & Hth).
    pose proof (after_op_cases config w (Raise e) (set_op ops s)) as Hc.
    revert Hc. generalize (after_op config w (Raise e) (set_op ops s)).
    intros r Hc.
    inversion Hc as [|e' Hf|e' _ _ _ _|e' _ Hr _]; subst; simpl.
    + assert (Hno : should_retry config e w = false)
        by (destruct Hf as [Hf|[Hf|Hf]]; congruence).
      unfold should_retry in Hno. unfold held_retries, retries_left. simpl.
      destruct (throttled config e).
      * rewrite Hth in Hno by done. simpl in Hno. apply Z.ltb_ge in Hno. lia.
      * apply Z.ltb_ge in Hno. lia.
    + unfold held_retries. simpl. lia.
    + apply should_retry_attempts in Hr.
      rewrite sum_list_with_app. unfold held_retries. simpl.
      rewrite (retries_left_decrement w Hr). lia.
  - rewrite sum_list_with_app. unfold held_retries. simpl.
    rewrite (retries_left_decrement w (Hsl w eq_refl)). lia.
  - lia.
Qed.

Lemma resume_potential (l : Loop A St C) (k : nat) (t : Task A) :
  sleepers_can_retry l.2 -> l.2 !! k = Some t ->
  retry_potential (resume k l) <= retry_potential l.
Proof.
  intros Hs Hk. rewrite (resume_at l k t Hk). unfold retry_potential. simpl.
  pose proof (sum_list_with_insert held_retries l.2 k t (worker t l.1).2 Hk).
  assert (Hsl : forall w, t = AwaitSleep w -> 1 < remaining_attempts w).
  { intros w ->. apply Hs. by eapply list_elem_of_lookup_2. }
  pose proof (worker_potential t l.1 Hsl). lia.
Qed.

Lemma resume_potential_exact (l : Loop A St C) (k : nat) (t : Task A) :
  always_retryable processor_func config ->
  sleepers_can_retry l.2 -> l.2 !! k = Some t ->
  retry_potential (resume k l) = retry_potential l.
Proof.
  intros Hal Hs Hk. rewrite (resume_at l k t Hk). unfold retry_potential. simpl.
  pose proof (sum_list_with_insert held_retries l.2 k t (worker t l.1).2 Hk).
  assert (Hsl : forall w, t = AwaitSleep w -> 1 < remaining_attempts w).
  { intros w ->. apply Hs. by eapply list_elem_of_lookup_2. }
  pose proof (worker_potential_exact t l.1 Hal Hsl). lia.
Qed.

Lemma run_potential (schedule : list nat) (l : Loop A St C) :
  sleepers_can_retry l.2 ->
  retry_potential (run schedule l) <= retry_potential l.
Proof.
  intros Hs.
  enough (H : sleepers_can_retry (run schedule l).2 /\
              retry_potential (run schedule l) <= retry_potential l) by apply H.
  revert Hs.
  assert (Hgen : forall l0,
             sleepers_can_retry l0.2 /\ retry_potential l0 <= retry_potential l ->
             sleepers_can_retry (run schedule l0).2 /\
             retry_potential (run schedule l0) <= retry_potential l).
  { apply (run_preserves
             (fun l0 => sleepers_can_retry l0.2 /\
                        retry_potential l0 <= retry_potential l)).
    intros l0 k t [Hs0 Hp0] Hk Hf. split.
    - by destruct (resume_budget processor_func config l0 k t Hs0 Hk Hf).
    - pose proof (resume_potential l0 k t Hs0 Hk). lia. }
  intros Hs. apply Hgen. split; [done | lia].
Qed.

Lemma run_potential_exact (schedule : list nat) (l : Loop A St C) :
  always_retryable processor_func config ->
  sleepers_can_retry l.2 ->
  retry_potential (run schedule l) = retry_potential l.
Proof.
  intros Hal Hs.
  enough (H : sleepers_can_retry (run schedule l).2 /\
              retry_potential (run schedule l) = retry_potential l) by apply H.
  apply (run_preserves
           (fun l0 => sleepers_can_retry l0.2 /\
                      retry_potential l0 = retry_potential l)); [|done].
  intros l0 k t [Hs0 Hp0] Hk Hf. split.
  - by destruct (resume_budget processor_func config l0 k t Hs0 Hk Hf).
  - by rewrite (resume_potential_exact l0 k t Hal Hs0 Hk).
Qed.

Lemma sum_list_with_imap_const {B D : Type} (g : D -> nat) (h : nat -> B -> D)
    (c : nat) (l : list B) :
  (forall i x, g (h i x) = c) ->
  sum_list_with g (imap h l) = (length l * c)%nat.
Proof.
  revert h. induction l as [|x l IH]; intros h Hc; simpl; [done|].
  rewrite Hc, IH; [lia|]. intros i y. apply Hc.
Qed.

Lemma sum_list_with_replicate_zero {B : Type} (g : B -> nat) (n : nat) (x : B) :
  g x = 0%nat -> sum_list_with g (replicate n x) = 0%nat.
Proof. intros Hx. induction n as [|n IH]; simpl; [done|]. lia. Qed.

Lemma start_potential (items : list (PyObj A)) (s0 : St) (c0 : C) :
  retry_potential (start config items s0 c0) =
  Z.of_nat (length items * Z.to_nat (max_attempts config - 1)).
Proof.
  unfold retry_potential, start.
  cbn [fst snd st_queue st_total_retried]. unfold enqueue_all.
  rewrite (sum_list_with_imap_const _ _ (Z.to_nat (max_attempts config - 1))) by done.
  rewrite sum_list_with_replicate_zero by done. lia.
Qed.

(** In a loop whose workers have all returned under the invariant,
    nothing is pending. *)
Lemma finished_nothing_pending (items : list (PyObj A)) (l : Loop A St C) :
  invariant processor_func items l -> forallb is_finished l.2 = true ->
  st_queue l.1 = [] /\
  sum_list_with held_retries l.2 = 0%nat /\
  sum_list_with awaiting l.2 = 0%nat.
Proof.
  intros [_ _ Hlive _] Hfin.
  assert (Hall : forall t, t ∈ l.2 -> t = Finished).
  { intros t Ht. rewrite forallb_forall in Hfin.
    apply list_elem_of_In, Hfin in Ht. by destruct t. }
  split.
  - destruct (st_queue l.1) as [|w q] eqn:E; [done|].
    destruct Hlive as (j & t & Hj & Hf); [done|].
    rewrite (Hall t) in Hf by (by eapply list_elem_of_lookup_2). discriminate.
  - clear Hlive Hfin. induction l.2 as [|t ts IH]; [done|]. simpl.
    rewrite (Hall t) by left. simpl. apply IH. intros t' Ht'. apply Hall. by right.
Qed.

End LedgerRuns.

Section LedgerCalls.

Import AsyncBatchProcessor ProcessorSpec ProcessorLedger.

Context {A St C : Type}.
Variable f : ProcessorFunc A St.
Variable config : ProcessorConfig C.

Lemma worker_calls (t : Task A) (s : State A (St * nat) C) :
  Z.of_nat (st_op (_worker (counting f) config t s).1).2 +
  Z.of_nat (length (st_queue (_worker (counting f) config t s).1)) +
  Z.of_nat (awaiting (_worker (counting f) config t s).2) -
  st_total_retried (_worker (counting f) config t s).1 =
  Z.of_nat (st_op s).2 + Z.of_nat (length (st_queue s)) +
  Z.of_nat (awaiting t) - st_total_retried s.
Proof.
  destruct t as [|w|w|]; simpl.
  - destruct (st_queue s) as [|w q] eqn:E; simpl; rewrite ?E; simpl; lia.
  - unfold counting. destruct (f (data w) (st_op s).1) as [o s'].
    pose proof (after_op_cases config w o (set_op (s', S (st_op s).2) s)) as Hc.
    destruct Hc as [v|e _|e _ _ _ _|e _ _ _]; simpl.
    + destruct (report_progress_fields config
                  (store_result w v (set_op (s', S (st_op s).2) s)))
        as (-> & _ & -> & _ & ->). simpl. lia.
    + lia.
    + lia.
    + rewrite length_app. simpl. lia.
  - rewrite length_app. simpl. lia.
  - lia.
Qed.

Lemma run_calls (schedule : list nat) (l : Loop A (St * nat) C) :
  call_ledger (run (counting f) config schedule l) = call_ledger l.
Proof.
  apply (run_preserves (counting f) config
           (fun l0 => call_ledger l0 = call_ledger l)); [|done].
  intros l0 k t <- Hk _. rewrite (resume_at _ _ l0 k t Hk).
  unfold call_ledger, calls. simpl.
  pose proof (sum_list_with_insert awaiting l0.2 k t
                (_worker (counting f) config t l0.1).2 Hk).
  pose proof (worker_calls t l0.1). lia.
Qed.

Lemma start_calls (items : list (PyObj A)) (s0 : St) (c0 : C) :
  call_ledger (start config items (s0, 0%nat) c0) = Z.of_nat (length items).
Proof.
  unfold call_ledger, calls, start. cbn [fst snd st_queue st_total_retried st_op].
  unfold enqueue_all. rewrite length_imap.
  rewrite sum_list_with_replicate_zero by done. lia.
Qed.

Lemma counting_never_retries :
  never_retries f config -> never_retries (counting f) config.
Proof.
  intros H x s e s'. unfold counting.
  destruct (f x s.1) as [o s1] eqn:E. intros [= -> <-]. by eapply H.
Qed.

Lemma counting_always_retryable :
  always_retryable f config -> always_retryable (counting f) config.
Proof.
  intros [Hn H]. split; [done|]. intros x s. unfold counting.
  destruct (H x s.1) as (e & s1 & -> & Hr & Ht). eauto.
Qed.

End LedgerCalls.

Section LedgerNoRetry.

Import AsyncBatchProcessor ProcessorSpec ProcessorLedger.

Context {A St C : Type}.
Variable f : ProcessorFunc A St.
Variable config : ProcessorConfig C.

Lemma no_retry_run (schedule : list nat) (l : Loop A St C) :
  never_retries f config ->
  no_retry_recorded l -> no_retry_recorded (run f config schedule l).
Proof.
  intros Hnr. apply (run_preserves f config no_retry_recorded).
  clear l. intros l k t [Hr Hs] Hk _. rewrite (resume_at _ _ l k t Hk).
  assert (Hins : forall (s' : State A St C) t',
             (forall w, t' <> AwaitSleep w) -> st_total_retried s' = 0 ->
             no_retry_recorded (s', <[k := t']> l.2)).
  { intros s' t' Ht' Hr'. split; [done|].
    intros w Hw. apply list_elem_of_lookup in Hw as [j Hj]. simpl in Hj.
    apply list_lookup_insert_Some in Hj as [(_ & Ht & _)|[_ Hj]].
    - by apply (Ht' w).
    - apply (Hs w). by eapply list_elem_of_lookup_2. }
  destruct t as [|w|w|]; simpl.
  - destruct (st_queue l.1); by apply Hins.
  - destruct (f (data w) (st_op l.1)) as [o ops] eqn:E.
    pose proof (after_op_cases config w o (set_op ops l.1)) as Hc.
    destruct Hc as [v|e _|e Hre Hn Hsr _|e Hre Hsr Hi]; simpl.
    + destruct (report_progress_fields config (store_result w v (set_op ops l.1)))
        as (_ & _ & Er & _).
      apply Hins; [done | by rewrite Er].
    + by apply Hins.
    + exfalso. destruct (Hnr _ _ _ _ E) as [H|[H|[H1 H2]]]; [congruence|done|].
      unfold should_retry in Hsr. by rewrite H1, H2 in Hsr.
    + exfalso. destruct (Hnr _ _ _ _ E) as [H|[H|[H1 H2]]]; [congruence|congruence|].
      unfold should_retry in Hsr. by rewrite H1, H2 in Hsr.
  - exfalso. apply (Hs w). by eapply list_elem_of_lookup_2.
  - by apply Hins.
Qed.

Lemma no_retry_start (items : list (PyObj A)) (s0 : St) (c0 : C) :
  no_retry_recorded (start config items s0 c0).
Proof. split; [done|]. intros w [Hw _]%elem_of_replicate. discriminate. Qed.

Lemma idle_run (schedule : list nat) (l : Loop A St C) :
  idle l -> idle (run f config schedule l).
Proof.
  apply (run_preserves f config idle).
  clear l. intros l k t (Hq & Hres & Hr & Hts) Hk Hf.
  rewrite (resume_at _ _ l k t Hk).
  destruct (Hts t) as [->| ->]; [by eapply list_elem_of_lookup_2| |done].
  simpl. rewrite Hq. simpl. repeat split; try done.
  intros t' Ht'. apply list_elem_of_lookup in Ht' as [j Hj].
  apply list_lookup_insert_Some in Hj as [(_ & <- & _)|[_ Hj]]; [by right|].
  apply Hts. by eapply list_elem_of_lookup_2.
Qed.

End LedgerNoRetry.

(** *** Further properties of the batch processor *)

Section ProcessorExtras.

Import AsyncBatchProcessor ProcessorSpec ProcessorLedger.

Context {A St C : Type}.
Variable f : ProcessorFunc A St.
Variable config : ProcessorConfig C.

(** X1: every call of the processing function is the first attempt of
    an item or one of its retries: when [process] returns, the number
    of calls made is [|input| + total_retried]. *)
Theorem X1_calls_are_items_plus_retries (items : list (PyObj A))
    (schedule : list nat) (s0 : St) (c0 : C) :
  1 <= num_workers config ->
  (budget (start config items (s0, 0%nat) c0) <= length schedule)%nat ->
  exists r,
    process (counting f) config items schedule (s0, 0%nat) c0 = Some r /\
    Z.of_nat (calls (run (counting f) config schedule
                       (start config items (s0, 0%nat) c0))) =
      Z.of_nat (length items) + total_retried r.
Proof.
  intros Hn Hb.
  destruct (process_returns (counting f) config items schedule (s0, 0%nat) c0 Hb)
    as [Hfin Hp].
  eexists. split; [exact Hp|]. simpl.
  pose proof (run_invariant (counting f) config items schedule _
                (start_invariant (counting f) config items (s0, 0%nat) c0 Hn))
    as Hinv.
  destruct (finished_nothing_pending _ items _ Hinv Hfin) as (Hq & _ & Ha).
  pose proof (run_calls f config schedule (start config items (s0, 0%nat) c0))
    as Hl.
  rewrite start_calls in Hl. unfold call_ledger in Hl.
  rewrite Hq, Ha in Hl. simpl in Hl. lia.
Qed.

(** X2: with [max_attempts >= 1], no run retries more than
    [(max_attempts - 1) * |input|] times, and so no run calls the
    processing function more than [max_attempts * |input|] times. *)
Theorem X2_retries_are_bounded (items : list (PyObj A))
    (schedule : list nat) (s0 : St) (c0 : C) :
  1 <= max_attempts config ->
  1 <= num_workers config ->
  (budget (start config items (s0, 0%nat) c0) <= length schedule)%nat ->
  exists r,
    process (counting f) config items schedule (s0, 0%nat) c0 = Some r /\
    total_retried r <= (max_attempts config - 1) * Z.of_nat (length items) /\
    Z.of_nat (calls (run (counting f) config schedule
                       (start config items (s0, 0%nat) c0))) <=
      max_attempts config * Z.of_nat (length items).
Proof.
  intros Hm Hn Hb.
  destruct (process_returns (counting f) config items schedule (s0, 0%nat) c0 Hb)
    as [Hfin Hp].
  eexists. split; [exact Hp|]. simpl.
  pose proof (run_invariant (counting f) config items schedule _
                (start_invariant (counting f) config items (s0, 0%nat) c0 Hn))
    as Hinv.
  destruct (finished_nothing_pending _ items _ Hinv Hfin) as (Hq & _ & Ha).
  pose proof (run_calls f config schedule (start config items (s0, 0%nat) c0))
    as Hl.
  rewrite start_calls in Hl. unfold call_ledger in Hl.
  rewrite Hq, Ha in Hl. simpl in Hl.
  pose proof (run_potential (counting f) config schedule _
                (start_sleepers config items (s0, 0%nat) c0)) as Hpot.
  rewrite start_potential in Hpot. unfold retry_potential in Hpot.
  assert (Hr : st_total_retried
                 (run (counting f) config schedule
                    (start config items (s0, 0%nat) c0)).1 <=
               (max_attempts config - 1) * Z.of_nat (length items)) by nia.
  split; [exact Hr | lia].
Qed.

(** X3: when the outcome of a call depends on its input only,
    [results] is the list of the outcomes of the inputs, whatever the
    schedule, the number of workers (at least one), the retry strategy
    and [max_attempts]. *)
Theorem X3_stateless_results_are_determined (items : list (PyObj A))
    (schedule : list nat) (s0 : St) (c0 : C) :
  stateless f ->
  1 <= num_workers config ->
  (budget (start config items s0 c0) <= length schedule)%nat ->
  exists r,
    process f config items schedule s0 c0 = Some r /\
    results r = map (fun x => outcome_value (f x s0).1) items.
Proof.
  intros Hst Hn Hb.
  destruct (process_settles f config items schedule s0 c0 Hn Hb)
    as (r & Hp & _ & Hlen & Hslots).
  exists r. split; [done|]. apply list_eq. intros i.
  rewrite list_lookup_fmap.
  destruct (items !! i) as [x|] eqn:Hi; simpl.
  - destruct (Hslots i x Hi) as (v & Hv & x' & s & Hx' & ->).
    rewrite Hv. f_equal. assert (x' = x) as -> by congruence.
    f_equal. apply Hst.
  - apply lookup_ge_None. rewrite Hlen. by apply lookup_ge_None.
Qed.

(** X4: when no error of the processing function can be retried (it is
    not retryable, or the strategy is [NONE], or it is a throttling
    error and [handle_throttling] is off), nothing is retried: each item
    is called exactly once, whatever [max_attempts] is. *)
Theorem X4_no_retry_means_one_call_each (items : list (PyObj A))
    (schedule : list nat) (s0 : St) (c0 : C) :
  never_retries f config ->
  1 <= num_workers config ->
  (budget (start config items (s0, 0%nat) c0) <= length schedule)%nat ->
  exists r,
    process (counting f) config items schedule (s0, 0%nat) c0 = Some r /\
    total_retried r = 0 /\
    calls (run (counting f) config schedule
             (start config items (s0, 0%nat) c0)) = length items.
Proof.
  intros Hnr Hn Hb.
  destruct (process_returns (counting f) config items schedule (s0, 0%nat) c0 Hb)
    as [Hfin Hp].
  eexists. split; [exact Hp|]. simpl.
  destruct (no_retry_run (counting f) config schedule _
              (counting_never_retries f config Hnr)
              (no_retry_start config items (s0, 0%nat) c0)) as [Hr _].
  split; [exact Hr|].
  pose proof (run_invariant (counting f) config items schedule _
                (start_invariant (counting f) config items (s0, 0%nat) c0 Hn))
    as Hinv.
  destruct (finished_nothing_pending _ items _ Hinv Hfin) as (Hq & _ & Ha).
  pose proof (run_calls f config schedule (start config items (s0, 0%nat) c0))
    as Hl.
  rewrite start_calls in Hl. unfold call_ledger in Hl.
  rewrite Hq, Ha, Hr in Hl. simpl in Hl. lia.
Qed.

(** X5: on an empty input [process] returns the empty result with all
    counters at zero, for every configuration (without workers too) and
    every processing function, which is never called. *)
Theorem X5_empty_input (schedule : list nat) (s0 : St) (c0 : C) :
  (Z.to_nat (num_workers config) <= length schedule)%nat ->
  process (counting f) config [] schedule (s0, 0%nat) c0 =
    Some {| results := []; total_processed := 0;
            total_failed := 0; total_retried := 0 |} /\
  calls (run (counting f) config schedule (start config [] (s0, 0%nat) c0)) = 0%nat.
Proof.
  intros Hb.
  assert (Hbud : (budget (start config ([] : list (PyObj A)) (s0, 0%nat) c0)
                  <= length schedule)%nat).
  { unfold budget, start. simpl.
    assert (Hw : forall n, sum_list_with (task_weight (A:=A)) (replicate n AtDequeue) = n).
    { induction n as [|n IH]; simpl; [done|]. by rewrite IH. }
    rewrite Hw. lia. }
  destruct (process_returns (counting f) config [] schedule (s0, 0%nat) c0 Hbud)
    as [Hfin Hp].
  assert (Hidle : idle (start config ([] : list (PyObj A)) (s0, 0%nat) c0)).
  { repeat split; try done. intros t [-> _]%elem_of_replicate. by left. }
  destruct (idle_run (counting f) config schedule _ Hidle) as (Hq & Hres & Hr & Hts).
  split.
  - rewrite Hp. unfold finish. rewrite Hres, Hr. done.
  - pose proof (run_calls f config schedule (start config [] (s0, 0%nat) c0)) as Hl.
    rewrite start_calls in Hl. unfold call_ledger in Hl.
    rewrite Hq, Hr in Hl. simpl in Hl. lia.
Qed.

(** X7: when every call raises an error that is retried while attempts
    remain (a retryable error, a strategy other than [NONE], and
    throttling handled when the error is a throttling one), with
    [max_attempts >= 1] every item uses all its attempts:
    [total_retried = (max_attempts - 1) * |input|], the function is
    called [max_attempts * |input|] times, every item fails and none is
    processed. *)
Theorem X7_failing_items_use_every_attempt (items : list (PyObj A))
    (schedule : list nat) (s0 : St) (c0 : C) :
  always_retryable f config ->
  1 <= max_attempts config ->
  1 <= num_workers config ->
  (budget (start config items (s0, 0%nat) c0) <= length schedule)%nat ->
  exists r,
    process (counting f) config items schedule (s0, 0%nat) c0 = Some r /\
    total_retried r = (max_attempts config - 1) * Z.of_nat (length items) /\
    Z.of_nat (calls (run (counting f) config schedule
                       (start config items (s0, 0%nat) c0))) =
      max_attempts config * Z.of_nat (length items) /\
    total_failed r = Z.of_nat (length items) /\
    total_processed r = 0.
Proof.
  intros Hal Hm Hn Hb.
  destruct (process_settles (counting f) config items schedule (s0, 0%nat) c0 Hn Hb)
    as (r & Hp & Hr & Hlen & Hslots).
  exists r. split; [done|]. subst r. simpl in *.
  set (l := run (counting f) config schedule (start config items (s0, 0%nat) c0))
    in *.
  destruct (process_returns (counting f) config items schedule (s0, 0%nat) c0 Hb)
    as [Hfin _]. fold l in Hfin.
  pose proof (run_invariant (counting f) config items schedule _
                (start_invariant (counting f) config items (s0, 0%nat) c0 Hn))
    as Hinv. fold l in Hinv.
  destruct (finished_nothing_pending _ items _ Hinv Hfin) as (Hq & Hh & Ha).
  pose proof (run_calls f config schedule (start config items (s0, 0%nat) c0))
    as Hl. fold l in Hl.
  rewrite start_calls in Hl. unfold call_ledger in Hl.
  rewrite Hq, Ha in Hl. simpl in Hl.
  pose proof (run_potential_exact (counting f) config schedule _
                (counting_always_retryable f config Hal)
                (start_sleepers config items (s0, 0%nat) c0)) as Hpot.
  fold l in Hpot. rewrite start_potential in Hpot. unfold retry_potential in Hpot.
  rewrite Hq, Hh in Hpot. simpl in Hpot.
  assert (Hr : st_total_retried l.1 =
               (max_attempts config - 1) * Z.of_nat (length items)) by nia.
  split; [exact Hr|]. split; [lia|].
  assert (Hall : forall v, v ∈ st_results l.1 -> is_exception v = true).
  { intros v [i Hi]%list_elem_of_lookup.
    assert (Hlt : (i < length items)%nat)
      by (rewrite <- Hlen; by eapply lookup_lt_Some).
    destruct (lookup_lt_is_Some_2 items i Hlt) as [x Hx].
    destruct (Hslots i x Hx) as (v' & Hv' & x' & s & _ & ->).
    rewrite Hi in Hv'. injection Hv' as ->.
    destruct (counting_always_retryable f config Hal) as [_ Hc].
    destruct (Hc x' s) as (e & s' & -> & _). done. }
  rewrite (sum_exceptions_all _ Hall), Hlen. lia.
Qed.

End ProcessorExtras.

Section BackoffExtras.

Import AsyncBatchProcessor ProcessorSpec ProcessorLedger.

Context {C : Type}.
Variable config : ProcessorConfig C.



End BackoffExtras.

Section ProcessorExtraWitnesses.

Import AsyncBatchProcessor ProcessorSpec ProcessorLedger Examples MoreExamples.

Lemma X1_calls_are_items_plus_retries_witness :
  exists r,
    process (counting always_throttled) (default_config 2 2)
      [PyVal 1; PyVal 2] (replicate 18 0%nat) (tt, 0%nat) tt = Some r /\
    Z.of_nat (calls (run (counting always_throttled) (default_config 2 2)
                       (replicate 18 0%nat)
                       (start (default_config 2 2) [PyVal 1; PyVal 2]
                          (tt, 0%nat) tt))) =
      Z.of_nat (length [PyVal 1; PyVal 2]) + total_retried r.
Proof.
  apply (X1_calls_are_items_plus_retries always_throttled (default_config 2 2)
           [PyVal 1; PyVal 2] (replicate 18 0%nat) tt tt);
    [simpl; lia | vm_compute; lia].
Defined.

Lemma X2_retries_are_bounded_witness :
  exists r,
    process (counting always_throttled) (default_config 2 2)
      [PyVal 1; PyVal 2] (replicate 18 0%nat) (tt, 0%nat) tt = Some r /\
    total_retried r <=
      (max_attempts (default_config 2 2) - 1) *
      Z.of_nat (length [PyVal 1; PyVal 2]) /\
    Z.of_nat (calls (run (counting always_throttled) (default_config 2 2)
                       (replicate 18 0%nat)
                       (start (default_config 2 2) [PyVal 1; PyVal 2]
                          (tt, 0%nat) tt))) <=
      max_attempts (default_config 2 2) * Z.of_nat (length [PyVal 1; PyVal 2]).
Proof.
  apply (X2_retries_are_bounded always_throttled (default_config 2 2)
           [PyVal 1; PyVal 2] (replicate 18 0%nat) tt tt);
    [simpl; lia | simpl; lia | vm_compute; lia].
Defined.

Lemma X3_stateless_results_are_determined_witness :
  exists r,
    process double (default_config 2 2) [PyVal 1; PyVal 2]
      (replicate 18 1%nat) tt tt = Some r /\
    results r = map (fun x => outcome_value (double x tt).1) [PyVal 1; PyVal 2].
Proof.
  apply (X3_stateless_results_are_determined double (default_config 2 2)
           [PyVal 1; PyVal 2] (replicate 18 1%nat) tt tt);
    [intros x [] []; reflexivity | simpl; lia | vm_compute; lia].
Defined.

Lemma X4_no_retry_means_one_call_each_witness :
  exists r,
    process (counting always_throttled) (strategy_config NONE 3 1)
      [PyVal 1; PyVal 2] (replicate 25 0%nat) (tt, 0%nat) tt = Some r /\
    total_retried r = 0 /\
    calls (run (counting always_throttled) (strategy_config NONE 3 1)
             (replicate 25 0%nat)
             (start (strategy_config NONE 3 1) [PyVal 1; PyVal 2]
                (tt, 0%nat) tt)) = length [PyVal 1; PyVal 2].
Proof.
  apply (X4_no_retry_means_one_call_each always_throttled
           (strategy_config NONE 3 1) [PyVal 1; PyVal 2]
           (replicate 25 0%nat) tt tt);
    [intros x s e s' _; right; left; reflexivity | simpl; lia | vm_compute; lia].
Defined.

Lemma X5_empty_input_witness :
  process (counting double) (default_config 10 3) [] [0; 0; 0]%nat (tt, 0%nat) tt =
    Some {| results := []; total_processed := 0;
            total_failed := 0; total_retried := 0 |} /\
  calls (run (counting double) (default_config 10 3) [0; 0; 0]%nat
           (start (default_config 10 3) [] (tt, 0%nat) tt)) = 0%nat.
Proof.
  apply (X5_empty_input double (default_config 10 3) [0; 0; 0]%nat tt tt).
  simpl. lia.
Defined.


Lemma X7_failing_items_use_every_attempt_witness :
  exists r,
    process (counting always_throttled) (default_config 3 2)
      [PyVal 1; PyVal 2] (replicate 26 0%nat) (tt, 0%nat) tt = Some r /\
    total_retried r =
      (max_attempts (default_config 3 2) - 1) *
      Z.of_nat (length [PyVal 1; PyVal 2]) /\
    Z.of_nat (calls (run (counting always_throttled) (default_config 3 2)
                       (replicate 26 0%nat)
                       (start (default_config 3 2) [PyVal 1; PyVal 2]
                          (tt, 0%nat) tt))) =
      max_attempts (default_config 3 2) * Z.of_nat (length [PyVal 1; PyVal 2]) /\
    total_failed r = Z.of_nat (length [PyVal 1; PyVal 2]) /\
    total_processed r = 0.
Proof.
  apply (X7_failing_items_use_every_attempt always_throttled (default_config 3 2)
           [PyVal 1; PyVal 2] (replicate 26 0%nat) tt tt);
    [split; [discriminate|]; intros x s; exists Examples.throttling_error, s;
       split; [reflexivity|]; split; [reflexivity | intros _; reflexivity]
    | simpl; lia | simpl; lia | vm_compute; lia].
Defined.

End ProcessorExtraWitnesses.

(** *** Further properties of the adaptive gate *)

Section GateExtras.

Import DynamicSemaphore.

Lemma on_success_fields (g : t) :
  min_value (on_success g) = min_value g /\
  decrease_factor (on_success g) = decrease_factor g /\
  increase_threshold (on_success g) = increase_threshold g /\
  current_count (on_success g) = current_count g.
Proof. unfold on_success. destruct (_ <=? _); done. Qed.

Lemma one_success (g : t) :
  1 <= increase_threshold g ->
  0 <= success_count g < increase_threshold g ->
  capacity (on_success g) =
    capacity g + (success_count g + 1) / increase_threshold g /\
  success_count (on_success g) =
    (success_count g + 1) mod increase_threshold g.
Proof.
  intros Ht Hs. unfold on_success.
  destruct (Z.leb_spec (increase_threshold g) (success_count g + 1)); simpl.
  - assert (success_count g + 1 = increase_threshold g) as -> by lia.
    rewrite Z.div_same, Z.mod_same by lia. lia.
  - rewrite Z.div_small, Z.mod_small by lia. lia.
Qed.

(** [k] successes in a row on a gate with a positive threshold. *)
Lemma successes_closed_form (g : t) (k : nat) :
  1 <= increase_threshold g ->
  0 <= success_count g < increase_threshold g ->
  capacity (Nat.iter k on_success g) =
    capacity g + (success_count g + Z.of_nat k) / increase_threshold g /\
  success_count (Nat.iter k on_success g) =
    (success_count g + Z.of_nat k) mod increase_threshold g /\
  increase_threshold (Nat.iter k on_success g) = increase_threshold g.
Proof.
  intros Ht Hs. induction k as [|k (IHc & IHs & IHt)].
  - simpl. rewrite Z.add_0_r, Z.div_small, Z.mod_small by lia. lia.
  - rewrite !Nat.iter_succ.
    set (g' := Nat.iter k on_success g) in *.
    destruct (on_success_fields g') as (_ & _ & Et & _).
    rewrite Et, IHt. split; [|split; [|done]].
    + destruct (one_success g') as [Ec _].
      { lia. } { rewrite IHs, IHt. apply Z.mod_pos_bound. lia. }
      rewrite Ec, IHc, IHs, IHt.
      replace (success_count g + Z.of_nat (S k))
        with (success_count g + Z.of_nat k + 1) by lia.
      set (a := success_count g + Z.of_nat k).
      set (T := increase_threshold g) in *.
      rewrite (Z.div_mod a T) at 3 by lia.
      replace (T * (a / T) + a mod T + 1) with ((a mod T + 1) + (a / T) * T) by lia.
      rewrite Z.div_add by lia. lia.
    + destruct (one_success g') as [_ Es].
      { lia. } { rewrite IHs, IHt. apply Z.mod_pos_bound. lia. }
      rewrite Es, IHs, IHt.
      replace (success_count g + Z.of_nat (S k))
        with (success_count g + Z.of_nat k + 1) by lia.
      rewrite Z.add_mod_idemp_l by lia. done.
Qed.

Lemma successes_without_threshold (g : t) (k : nat) :
  increase_threshold g <= 0 -> 0 <= success_count g -> (1 <= k)%nat ->
  capacity (Nat.iter k on_success g) = capacity g + Z.of_nat k /\
  success_count (Nat.iter k on_success g) = 0 /\
  increase_threshold (Nat.iter k on_success g) = increase_threshold g.
Proof.
  intros Ht Hs Hk. induction k as [|k IH]; [lia|].
  rewrite !Nat.iter_succ. destruct k as [|k].
  - simpl. unfold on_success.
    destruct (Z.leb_spec (increase_threshold g) (success_count g + 1)); simpl; lia.
  - destruct IH as (IHc & IHs & IHt); [lia|].
    set (g' := Nat.iter (S k) on_success g) in *.
    unfold on_success. rewrite IHs, IHt.
    destruct (Z.leb_spec (increase_threshold g) (0 + 1)); simpl; lia.
Qed.




End GateExtras.

(** *** Calls of [InvokeModelCommand.execute] through the gate *)

Section InvokeModelFacts.

Import DynamicSemaphore InvokeModel.

Lemma gate_eq (g g' : t) :
  capacity g = capacity g' -> min_value g = min_value g' ->
  increase_threshold g = increase_threshold g' ->
  decrease_factor g = decrease_factor g' ->
  success_count g = success_count g' -> current_count g = current_count g' ->
  g = g'.
Proof. destruct g, g'; simpl; intros; subst; reflexivity. Qed.

Lemma release_acquire (g g' : t) : acquire g = Some g' -> release g' = g.
Proof.
  unfold acquire. destruct (_ <? _); [|discriminate]. intros [= <-].
  apply gate_eq; simpl; lia || reflexivity.
Qed.

Lemma release_on_success (g : t) :
  release (on_success g) = on_success (release g).
Proof. unfold on_success, release; simpl. destruct (_ <=? _); reflexivity. Qed.

Lemma step_count (g g' : t) (p p' : Phase) :
  step g p = Some (g', p') ->
  current_count g' + Z.of_nat (holds p) = current_count g + Z.of_nat (holds p').
Proof.
  destruct p as [r|r| | |ok]; simpl.
  - unfold acquire. destruct (_ <? _); [|discriminate]. intros [= <- <-]. simpl. lia.
  - destruct r as [|code|]; intros [= <- <-]; simpl.
    + destruct (on_success_fields g) as (_ & _ & _ & ->). lia.
    + destruct (bool_decide _); simpl; lia.
    + lia.
  - intros [= <- <-]. simpl. lia.
  - intros [= <- <-]. destruct (on_throttle_params g) as (_ & _ & _ & ->).
    simpl. lia.
  - discriminate.
Qed.

Lemma step_floor (g g' : t) (p p' : Phase) :
  step g p = Some (g', p') ->
  min_value g <= capacity g ->
  min_value g' = min_value g /\ min_value g' <= capacity g'.
Proof.
  destruct p as [r|r| | |ok]; simpl.
  - unfold acquire. destruct (_ <? _); [|discriminate]. intros [= <- <-]. simpl. lia.
  - destruct r as [|code|]; intros [= <- <-] Hm; simpl; try lia.
    destruct (on_success_fields g) as (-> & _).
    pose proof (on_success_monotone g). lia.
  - intros [= <- <-]. simpl. lia.
  - intros [= <- <-] Hm. destruct (on_throttle_params g) as (-> & _).
    pose proof (on_throttle_min g Hm). lia.
  - discriminate.
Qed.

Lemma advance_invariant (k : nat) (sys : System) :
  min_value sys.1 <= capacity sys.1 ->
  current_count (advance k sys).1 - Z.of_nat (holders (advance k sys).2) =
    current_count sys.1 - Z.of_nat (holders sys.2) /\
  min_value (advance k sys).1 = min_value sys.1 /\
  min_value (advance k sys).1 <= capacity (advance k sys).1 /\
  length (advance k sys).2 = length sys.2.
Proof.
  intros Hm. unfold advance.
  destruct (sys.2 !! k) as [p|] eqn:Hk; [|done].
  destruct (step sys.1 p) as [[g' p']|] eqn:Hs; [|done]. simpl.
  pose proof (step_count _ _ _ _ Hs).
  destruct (step_floor _ _ _ _ Hs Hm) as [Em Hm'].
  pose proof (sum_list_with_insert holds sys.2 k p p' Hk).
  rewrite length_insert. unfold holders. repeat split; try done. lia.
Qed.

Lemma advance_all_invariant (schedule : list nat) (sys : System) :
  min_value sys.1 <= capacity sys.1 ->
  current_count (advance_all schedule sys).1 -
    Z.of_nat (holders (advance_all schedule sys).2) =
    current_count sys.1 - Z.of_nat (holders sys.2) /\
  min_value (advance_all schedule sys).1 = min_value sys.1 /\
  min_value (advance_all schedule sys).1 <= capacity (advance_all schedule sys).1 /\
  length (advance_all schedule sys).2 = length sys.2.
Proof.
  revert sys. induction schedule as [|k schedule IH]; intros sys Hm; [done|].
  simpl. destruct (advance_invariant k sys Hm) as (Ec & Em & Hm' & El).
  destruct (IH _ Hm') as (Ec' & Em' & Hm'' & El').
  repeat split; try done; congruence || lia.
Qed.

Lemma holders_le_length (ps : list Phase) : (holders ps <= length ps)%nat.
Proof.
  unfold holders. induction ps as [|p ps IH]; simpl; [done|].
  destruct p; simpl; lia.
Qed.

Lemma holders_returned (ps : list Phase) :
  forallb has_returned ps = true -> holders ps = 0%nat.
Proof.
  unfold holders. induction ps as [|p ps IH]; simpl; [done|].
  intros [Hp Hps]%andb_true_iff. rewrite IH by done. by destruct p.
Qed.

Lemma holders_waiting (rs : list Response) : holders (map Waiting rs) = 0%nat.
Proof. unfold holders. induction rs as [|r rs IH]; simpl; done. Qed.

Lemma get_semaphore_fresh (c : Z) :
  1 <= c ->
  exists g, get_semaphore c None = inr (g, Some g) /\
            capacity g = c /\ min_value g = 1 /\ current_count g = 0 /\
            success_count g = 0 /\ increase_threshold g = 100 /\
            decrease_factor g = (3 # 4)%Q.
Proof.
  intros Hc. unfold get_semaphore.
  destruct (init_ok (3 # 4) (Some 100) c 1) as [g Hg]; [done|done|done|].
  rewrite Hg. exists g. split; [done|].
  destruct (init_inr _ _ _ _ _ Hg) as (_ & _ & _ & ? & ? & ? & ? & ? & ?).
  done.
Qed.

End InvokeModelFacts.

Section GateExtraClaims.

Import DynamicSemaphore InvokeModel.

(** X8: on a fresh gate with [increase_threshold = T >= 1], after [k]
    successes with no throttle in between the capacity is
    [initial + k / T] (integer division) and [success_count] is
    [k mod T]; with a threshold that is zero or negative every success
    raises the capacity by one. *)
Theorem X8_successes_closed_form (f : Q) (th : option Z) (initial mn : Z)
    (g : t) (k : nat) :
  init f th initial mn = inr g ->
  (1 <= increase_threshold g ->
   capacity (Nat.iter k on_success g) =
     initial + Z.of_nat k / increase_threshold g /\
   success_count (Nat.iter k on_success g) =
     Z.of_nat k mod increase_threshold g) /\
  (increase_threshold g <= 0 ->
   capacity (Nat.iter k on_success g) = initial + Z.of_nat k /\
   success_count (Nat.iter k on_success g) = 0).
Proof.
  intros Hg.
  destruct (init_inr _ _ _ _ _ Hg) as (_ & _ & _ & Ec & _ & _ & Es & _).
  split.
  - intros Ht. destruct (successes_closed_form g k Ht) as (Hc & Hs & _); [lia|].
    rewrite Hc, Hs, Es, Ec. done.
  - intros Ht. destruct k as [|k]; [simpl; lia|].
    destruct (successes_without_threshold g (S k) Ht) as (Hc & Hs & _); [lia|lia|].
    rewrite Hc, Hs, Ec. done.
Qed.

Lemma X8_successes_closed_form_witness :
  exists g,
    init (1 # 2) (Some 5) 10 1 = inr g /\
    capacity (Nat.iter 12 on_success g) = 10 + Z.of_nat 12 / increase_threshold g /\
    success_count (Nat.iter 12 on_success g) = Z.of_nat 12 mod increase_threshold g.
Proof.
  eexists. split; [reflexivity|].
  eapply (X8_successes_closed_form (1 # 2) (Some 5) 10 1 _ 12);
    [reflexivity | simpl; lia].
Defined.



(** X10: any number of calls of [InvokeModelCommand.execute] on the
    gate of a client built with [initial_concurrency >= 1], advanced in
    any order: [current_count] is the number of calls between their
    [acquire] and their [release], so it is never negative and never
    above the number of calls; the capacity never falls below 1; and
    once every call has returned, normally or not, no slot is held. *)
Theorem X10_every_call_releases_its_slot (c : Z) (responses : list Response)
    (schedule : list nat) :
  1 <= c ->
  exists g,
    get_semaphore c None = inr (g, Some g) /\
    let sys := advance_all schedule (g, map Waiting responses) in
    current_count sys.1 = Z.of_nat (holders sys.2) /\
    0 <= current_count sys.1 <= Z.of_nat (length responses) /\
    1 <= capacity sys.1 /\
    (forallb has_returned sys.2 = true -> current_count sys.1 = 0).
Proof.
  intros Hc. destruct (get_semaphore_fresh c Hc) as (g & Hg & Ec & Em & Ecc & _).
  exists g. split; [done|]. intros sys.
  destruct (advance_all_invariant schedule (g, map Waiting responses))
    as (Hh & Hm & Hcap & Hl); [simpl; lia|].
  fold sys in Hh, Hm, Hcap, Hl. simpl in Hh, Hm, Hl.
  rewrite holders_waiting, Ecc in Hh. rewrite length_map in Hl.
  pose proof (holders_le_length sys.2).
  split; [lia|]. split; [lia|]. split; [lia|].
  intros Hret. rewrite (holders_returned _ Hret) in Hh. lia.
Qed.

Lemma X10_every_call_releases_its_slot_witness :
  exists g,
    get_semaphore 2 None = inr (g, Some g) /\
    let sys := advance_all [0; 1; 2; 0; 1; 0; 2; 2; 1]%nat
                 (g, map Waiting [Succeeded;
                                  ClientError (Some "ThrottlingException");
                                  OtherError]) in
    current_count sys.1 = Z.of_nat (holders sys.2) /\
    0 <= current_count sys.1 <=
      Z.of_nat (length [Succeeded; ClientError (Some "ThrottlingException");
                        OtherError]) /\
    1 <= capacity sys.1 /\
    (forallb has_returned sys.2 = true -> current_count sys.1 = 0).
Proof.
  apply (X10_every_call_releases_its_slot 2
           [Succeeded; ClientError (Some "ThrottlingException"); OtherError]
           [0; 1; 2; 0; 1; 0; 2; 2; 1]%nat).
  lia.
Defined.



(** X12: one call alone on a gate with a free slot: whatever the
    request does, the call returns with [current_count] as it found it.
    The gate ends as after [on_success] alone when the request
    succeeded, as after [on_throttle] alone when it raised a
    [ClientError] with code ["ThrottlingException"], and unchanged
    after any other error.  The errors that shrink the gate are the
    [ClientError]s that the processor, with no [is_throttling] of its
    own, takes for throttling, and all of them are retryable under
    [retryable_exceptions = (ClientError,)]. *)
Theorem X12_call_acts_by_its_feedback (r : Response) (g : t) {C : Type}
    (config : AsyncBatchProcessor.ProcessorConfig C) :
  current_count g < capacity g ->
  AsyncBatchProcessor.is_throttling config = None ->
  AsyncBatchProcessor.retryable_exceptions config = Some ["ClientError"] ->
  (execute_alone r g).2 =
    [Returned match r with Succeeded => true | _ => false end] /\
  (execute_alone r g).1 =
    match r with
    | Succeeded => on_success g
    | _ => if is_throttling_response r then on_throttle g else g
    end /\
  current_count (execute_alone r g).1 = current_count g /\
  (forall code,
     is_throttling_response (ClientError code) =
       AsyncBatchProcessor.throttled config (client_error code) /\
     AsyncBatchProcessor.is_retryable config (client_error code) = true).
Proof.
  intros Hfree Hth Hre.
  assert (Hacq : exists g', acquire g = Some g' /\ release g' = g).
  { unfold acquire. destruct (Z.ltb_spec (current_count g) (capacity g)); [|lia].
    eexists. split; [reflexivity|]. apply gate_eq; simpl; lia || reflexivity. }
  destruct Hacq as (g' & Ha & Hr).
  assert (Hmain :
    (execute_alone r g).2 =
      [Returned match r with Succeeded => true | _ => false end] /\
    (execute_alone r g).1 =
      match r with
      | Succeeded => on_success g
      | _ => if is_throttling_response r then on_throttle g else g
      end).
  { unfold execute_alone, advance_all, advance. simpl. rewrite Ha. simpl.
    destruct r as [|code|]; simpl.
    - split; [done|]. by rewrite release_on_success, Hr.
    - destruct (bool_decide (code = Some "ThrottlingException")); simpl;
        by rewrite Hr.
    - by rewrite Hr. }
  destruct Hmain as [Hp Hgate]. split; [done|]. split; [done|]. split.
  - rewrite Hgate. destruct r as [|code|]; simpl.
    + by destruct (on_success_fields g) as (_ & _ & _ & ->).
    + destruct (bool_decide _); [|done].
      by destruct (on_throttle_params g) as (_ & _ & _ & ->).
    + done.
  - intros code. split.
    + unfold AsyncBatchProcessor.throttled. rewrite Hth. reflexivity.
    + unfold AsyncBatchProcessor.is_retryable. rewrite Hre. reflexivity.
Qed.

Lemma X12_call_acts_by_its_feedback_witness :
  (execute_alone (ClientError (Some "ThrottlingException"))
     {| capacity := 4; min_value := 1; increase_threshold := 100;
        decrease_factor := 3 # 4; success_count := 0; current_count := 0 |}).2 =
    [Returned false] /\
  (execute_alone (ClientError (Some "ThrottlingException"))
     {| capacity := 4; min_value := 1; increase_threshold := 100;
        decrease_factor := 3 # 4; success_count := 0; current_count := 0 |}).1 =
    on_throttle
      {| capacity := 4; min_value := 1; increase_threshold := 100;
         decrease_factor := 3 # 4; success_count := 0; current_count := 0 |} /\
  current_count
    (execute_alone (ClientError (Some "ThrottlingException"))
       {| capacity := 4; min_value := 1; increase_threshold := 100;
          decrease_factor := 3 # 4; success_count := 0; current_count := 0 |}).1 =
    0 /\
  (forall code,
     is_throttling_response (ClientError code) =
       AsyncBatchProcessor.throttled (Examples.default_config 3 1)
         (client_error code) /\
     AsyncBatchProcessor.is_retryable (Examples.default_config 3 1)
       (client_error code) = true).
Proof.
  apply (X12_call_acts_by_its_feedback (ClientError (Some "ThrottlingException"))
           {| capacity := 4; min_value := 1; increase_threshold := 100;
              decrease_factor := 3 # 4; success_count := 0; current_count := 0 |}
           (Examples.default_config 3 1));
    [simpl; lia | reflexivity | reflexivity].
Defined.

End GateExtraClaims.

(** *** [lib/ingest.py]: batches, bulk bodies, records *)

Section BatchFacts.

Import AsyncBatchProcessor Ingest.

Context {Row : Type}.

Lemma make_batches_nil (fuel : nat) (num i : Z) :
  make_batches fuel num i (@nil Row) = [].
Proof. by destruct fuel. Qed.

Lemma make_batches_cons (fuel : nat) (num i : Z) (r : Row) (rows : list Row) :
  make_batches (S fuel) num i (r :: rows) =
  {| batch_rows := take BATCH_SIZE (r :: rows); batch_num := num; start_idx := i |}
  :: make_batches fuel (num + 1) (i + Z.of_nat BATCH_SIZE)
       (drop BATCH_SIZE (r :: rows)).
Proof. reflexivity. Qed.

Lemma drop_batch_length (fuel : nat) (r : Row) (rows : list Row) :
  (length (r :: rows) <= S fuel)%nat ->
  (length (drop BATCH_SIZE (r :: rows)) <= fuel)%nat.
Proof. rewrite length_drop. unfold BATCH_SIZE. simpl. lia. Qed.

(** The batches, one after the other, are the table. *)
Lemma make_batches_concat (fuel : nat) (num i : Z) (rows : list Row) :
  (length rows <= fuel)%nat ->
  concat (map batch_rows (make_batches fuel num i rows)) = rows.
Proof.
  revert num i rows. induction fuel as [|fuel IH]; intros num i rows Hf.
  - destruct rows; [done|simpl in Hf; lia].
  - destruct rows as [|r rows]; [done|].
    rewrite make_batches_cons. cbn [map concat batch_rows].
    rewrite IH by by apply drop_batch_length.
    apply take_drop.
Qed.

(** The [j]-th batch. *)
Lemma make_batches_lookup (fuel : nat) (num i : Z) (rows : list Row)
    (j : nat) (b : BatchItem Row) :
  (length rows <= fuel)%nat ->
  make_batches fuel num i rows !! j = Some b ->
  batch_num b = num + Z.of_nat j /\
  start_idx b = i + Z.of_nat (BATCH_SIZE * j) /\
  batch_rows b = take BATCH_SIZE (drop (BATCH_SIZE * j) rows) /\
  (BATCH_SIZE * j < length rows)%nat.
Proof.
  revert num i rows j. induction fuel as [|fuel IH]; intros num i rows j Hf Hb.
  - destruct rows; [done|simpl in Hf; lia].
  - destruct rows as [|r rows]; [done|].
    rewrite make_batches_cons in Hb. destruct j as [|j].
    + injection Hb as <-. cbn [batch_num start_idx batch_rows].
      rewrite Nat.mul_0_r. simpl. repeat split; lia.
    + rewrite lookup_cons_Some in Hb.
      destruct Hb as [[? _]|[_ Hb]]; [lia|].
      replace (S j - 1)%nat with j in Hb by lia.
      apply IH in Hb as (Hn & Hi & Hr & Hl); [|by apply drop_batch_length].
      rewrite drop_drop in Hr. rewrite length_drop in Hl.
      replace (BATCH_SIZE * S j)%nat with (BATCH_SIZE + BATCH_SIZE * j)%nat by lia.
      repeat split; [lia|lia|done|lia].
Qed.

(** There are as many batches as [range(0, len(rows), BATCH_SIZE)] has
    elements. *)
Lemma make_batches_length (fuel : nat) (num i : Z) (rows : list Row) :
  (length rows <= fuel)%nat ->
  length (make_batches fuel num i rows) =
  ((length rows + (BATCH_SIZE - 1)) / BATCH_SIZE)%nat.
Proof.
  revert num i rows. induction fuel as [|fuel IH]; intros num i rows Hf.
  - destruct rows; [done|simpl in Hf; lia].
  - destruct rows as [|r rows]; [done|].
    rewrite make_batches_cons. cbn [length].
    rewrite IH by by apply drop_batch_length.
    rewrite length_drop. unfold BATCH_SIZE.
    destruct (decide (50 <= S (length rows))%nat) as [Hge|Hlt].
    + replace (S (length rows) + (50 - 1))%nat
        with ((S (length rows) - 50 + (50 - 1)) + 1 * 50)%nat by lia.
      rewrite Nat.div_add by lia. cbn [length]. lia.
    + replace (length (r :: rows) - 50)%nat with 0%nat by (simpl; lia).
      cbn [length].
      assert ((S (length rows) + (50 - 1)) / 50 = 1)%nat as ->; [|done].
      symmetry. apply (Nat.div_unique _ 50 1 (S (length rows) - 1)); lia.
Qed.

End BatchFacts.

Section BodyFacts.

Import AsyncBatchProcessor Ingest IngestBody.

Context {V : Type}.
Variable dumps_create : string -> string -> string.
Variable dumps_record : Record V -> string.

Local Abbreviation lines := (bulk_lines dumps_create dumps_record).

Lemma bulk_lines_nil (index_name : string) (s : Z) :
  lines index_name [] s = [].
Proof. reflexivity. Qed.

Lemma bulk_lines_cons (index_name : string) (row : Record V)
    (rows : list (Record V)) (s : Z) :
  lines index_name (row :: rows) s =
  dumps_create index_name (pretty s)
  :: dumps_record (_filter_nan_values row)
  :: lines index_name rows (s + 1).
Proof.
  unfold bulk_lines. rewrite imap_cons. cbn [concat app].
  rewrite Z.add_0_r. do 2 f_equal. f_equal.
  apply imap_ext. intros k x _. simpl. do 3 f_equal. lia.
Qed.

Lemma bulk_lines_app (index_name : string) (l1 l2 : list (Record V)) (s : Z) :
  lines index_name (l1 ++ l2) s =
  lines index_name l1 s ++ lines index_name l2 (s + Z.of_nat (length l1)).
Proof.
  revert s. induction l1 as [|row l1 IH]; intros s.
  - simpl. by rewrite Z.add_0_r.
  - rewrite <- app_comm_cons, !bulk_lines_cons, IH. cbn [app length].
    do 3 f_equal. f_equal. lia.
Qed.

Lemma bulk_lines_length (index_name : string) (rows : list (Record V)) (s : Z) :
  length (lines index_name rows s) = (2 * length rows)%nat.
Proof.
  revert s. induction rows as [|row rows IH]; intros s; [done|].
  rewrite bulk_lines_cons. cbn [length]. rewrite IH. lia.
Qed.

Lemma bulk_lines_lookup (index_name : string) (rows : list (Record V)) (s : Z)
    (k : nat) (row : Record V) :
  rows !! k = Some row ->
  lines index_name rows s !! (2 * k)%nat =
    Some (dumps_create index_name (pretty (s + Z.of_nat k))) /\
  lines index_name rows s !! (2 * k + 1)%nat =
    Some (dumps_record (_filter_nan_values row)).
Proof.
  revert s k. induction rows as [|r rows IH]; intros s k Hk; [done|].
  rewrite bulk_lines_cons. destruct k as [|k].
  - injection Hk as ->. simpl. by rewrite Z.add_0_r.
  - simpl in Hk. apply (IH (s + 1)) in Hk as [H1 H2].
    replace (2 * S k)%nat with (S (S (2 * k))) by lia.
    replace (S (S (2 * k)) + 1)%nat with (S (S (2 * k + 1))) by lia.
    split.
    + transitivity (lines index_name rows (s + 1) !! (2 * k)%nat); [reflexivity|].
      rewrite H1. do 3 f_equal. lia.
    + transitivity (lines index_name rows (s + 1) !! (2 * k + 1)%nat);
        [reflexivity|done].
Qed.

(** Cutting the table into batches does not change the lines sent. *)
Lemma make_batches_lines (index_name : string) (fuel : nat) (num i : Z)
    (rows : list (Record V)) :
  (length rows <= fuel)%nat ->
  concat (map (fun b => lines index_name (batch_rows b) (start_idx b))
            (make_batches fuel num i rows)) =
  lines index_name rows i.
Proof.
  revert num i rows. induction fuel as [|fuel IH]; intros num i rows Hf.
  - destruct rows; [done|simpl in Hf; lia].
  - destruct rows as [|r rows]; [done|].
    rewrite make_batches_cons. cbn [map concat batch_rows start_idx].
    rewrite IH by by apply drop_batch_length.
    rewrite <- (take_drop BATCH_SIZE (r :: rows)) at 3.
    rewrite bulk_lines_app.
    destruct (decide (BATCH_SIZE <= length (r :: rows))%nat) as [Hge|Hlt].
    + by rewrite length_take_le.
    + rewrite (drop_ge (r :: rows)) by lia. by rewrite !bulk_lines_nil.
Qed.

Lemma filter_nan_elem (record : Record V) (kv : string * Cell V) :
  kv ∈ _filter_nan_values record <-> kv ∈ record /\ _is_valid_value kv.2 = true.
Proof.
  unfold _filter_nan_values. rewrite !list_elem_of_In, filter_In. done.
Qed.

Lemma filter_nan_idempotent (record : Record V) :
  _filter_nan_values (_filter_nan_values record) = _filter_nan_values record.
Proof.
  unfold _filter_nan_values. induction record as [|[k v] record IH]; [done|].
  simpl. destruct (_is_valid_value v) eqn:E; [|done].
  simpl. rewrite E. by f_equal.
Qed.

Lemma filter_nan_sublist (record : Record V) :
  sublist (_filter_nan_values record) record.
Proof.
  unfold _filter_nan_values. induction record as [|[k v] record IH]; [done|].
  simpl. destruct (_is_valid_value v); by constructor.
Qed.

Lemma filter_nan_fixpoint (record : Record V) :
  _filter_nan_values record = record <->
  forall kv, kv ∈ record -> _is_valid_value kv.2 = true.
Proof.
  unfold _filter_nan_values. induction record as [|[k v] record IH].
  - split; [|done]. intros _ kv Hin. by apply elem_of_nil in Hin.
  - simpl. destruct (_is_valid_value v) eqn:E.
    + split.
      * intros Heq. injection Heq as Heq. intros kv Hin.
        apply elem_of_cons in Hin as [->|Hin]; [done|].
        by apply IH.
      * intros Hall. f_equal. apply IH. intros kv Hin. apply Hall. by right.
    + split.
      * intros Heq.
        assert (Hlen : (length (List.filter (fun kv : string * Cell V =>
                   _is_valid_value kv.2) record) <= length record)%nat)
          by apply filter_length_le.
        rewrite Heq in Hlen. simpl in Hlen. lia.
      * intros Hall. specialize (Hall (k, v)). simpl in Hall.
        rewrite E in Hall. discriminate Hall. left.
Qed.

End BodyFacts.

Section ParseFacts.

Import AsyncBatchProcessor Ingest.

Lemma triage_count_inv (its : list (option CreateResult))
    (acc : list string * ErrorTable * Z) :
  acc.2 < (triage its acc).2 ->
  exists d e,
    Some {| doc_id := d; error := Some e |} ∈ its /\
    error_type e <> "version_conflict_engine_exception".
Proof.
  revert acc. induction its as [|item its IH]; intros acc Hlt.
  - simpl in Hlt. lia.
  - simpl in Hlt.
    assert (Hrec : forall acc', acc'.2 < (triage its acc').2 ->
              exists d e, Some {| doc_id := d; error := Some e |} ∈ item :: its /\
                error_type e <> "version_conflict_engine_exception").
    { intros acc' H. destruct (IH acc' H) as (d & e & Hin & Hne).
      exists d, e. split; [by right|done]. }
    destruct item as [[d [e|]]|]; try by apply (Hrec acc).
    destruct acc as [[msgs tbl] n].
    destruct (String.eqb (error_type e) "version_conflict_engine_exception") eqn:E.
    + by apply (Hrec _ Hlt).
    + exists d, e. split; [left|]. by apply String.eqb_neq.
Qed.

(** The messages of the ignored errors: one for each version conflict,
    whatever else the response holds. *)
Lemma parse_bulk_errors_cases (response : BulkResponse) (n : Z) :
  (exists msgs, _parse_bulk_errors response n = (msgs, None)) \/
  (exists msgs msg, _parse_bulk_errors response n = (msgs, Some (plain_exception msg)) /\
     errors response = true /\
     0 < (triage (items response) ([], [], 0)).2).
Proof.
  unfold _parse_bulk_errors. destruct (errors response); simpl; [|by left; eexists].
  destruct (triage (items response) ([], [], 0)) as [[msgs tbl] c] eqn:E.
  destruct (0 <? c) eqn:Hc.
  - right. do 2 eexists. split; [reflexivity|]. split; [done|].
    simpl. by apply Z.ltb_lt.
  - left. by eexists.
Qed.

End ParseFacts.

(** *** Further properties of [lib/ingest.py] *)

Section IngestRunFacts.

Import AsyncBatchProcessor ProcessorSpec ProcessorLedger Ingest.

Context {A St C : Type}.

(** The budget of a fresh run. *)
Lemma start_budget (config : ProcessorConfig C) (items : list (PyObj A))
    (s0 : St) (c0 : C) :
  budget (start config items s0 c0) =
  (length items * (4 * Z.to_nat (max_attempts config - 1) + 4) +
   Z.to_nat (num_workers config))%nat.
Proof.
  unfold budget, start. cbn [fst snd st_queue]. unfold enqueue_all.
  f_equal.
  - assert (H : forall (g : nat -> PyObj A -> WorkItem A) n,
              (forall i x, queued_weight (g i x) = n) ->
              sum_list_with queued_weight (imap g items) = (length items * n)%nat).
    { induction items as [|x xs IH]; intros g n Hg; [done|].
      rewrite imap_cons. cbn [sum_list_with length].
      rewrite Hg, (IH (g ∘ S) n) by (intros; apply Hg). lia. }
    apply H. intros i x. reflexivity.
  - induction (Z.to_nat (num_workers config)) as [|n IH]; [done|].
    simpl. by rewrite IH.
Qed.

Context {Row Cluster : Type}.
Variable bulk_index :
  BatchItem Row -> Cluster -> (PyException + BulkResponse) * Cluster.

(** What [process_batch] raises when the cluster answers. *)
Lemma process_batch_raises (x : PyObj (Payload Row)) (st st' : Cluster * list string)
    (e : PyException) :
  (forall b cl, exists response cl', bulk_index b cl = (inr response, cl')) ->
  process_batch bulk_index x st = (Raise e, st') ->
  e = attribute_error \/ exists msg, e = plain_exception msg.
Proof.
  intros Hans Hr. unfold process_batch in Hr.
  destruct x as [| |[b|n ok]]; try (injection Hr as <- _; by left).
  destruct (Hans b st.1) as (response & cl' & Hb). rewrite Hb in Hr.
  destruct (parse_bulk_errors_cases response (batch_num b))
    as [[msgs Hp]|(msgs & msg & Hp & _)]; rewrite Hp in Hr.
  - discriminate Hr.
  - injection Hr as <- _. right. by eexists.
Qed.

Lemma ingest_never_retries (max_attempts : Z) (on_progress : ProgressCallback C) :
  (forall b cl, exists response cl', bulk_index b cl = (inr response, cl')) ->
  never_retries (process_batch bulk_index) (ingest_config max_attempts on_progress).
Proof.
  intros Hans x s e s' Hr. left.
  destruct (process_batch_raises x s s' e Hans Hr) as [->|[msg ->]]; reflexivity.
Qed.

End IngestRunFacts.

Section IngestExtras.

Import AsyncBatchProcessor ProcessorSpec ProcessorLedger Ingest IngestBody.

(** X13: the batches [ingest] builds cut the table into consecutive
    slices: put end to end they are the table; there are
    [ceil(len(rows) / 50)] of them; batch [j] (from 0) has number
    [j + 1], starts at row [50 * j], and holds between 1 and 50 rows,
    the rows [50 * j .. 50 * j + 49] that exist. *)
Theorem X13_batches_partition_the_table {Row : Type} (rows : list Row) :
  concat (map batch_rows (batches rows)) = rows /\
  length (batches rows) = ((length rows + 49) / 50)%nat /\
  forall (j : nat) (b : BatchItem Row), batches rows !! j = Some b ->
    batch_num b = Z.of_nat j + 1 /\
    start_idx b = 50 * Z.of_nat j /\
    batch_rows b = take 50 (drop (50 * j) rows) /\
    (1 <= length (batch_rows b) <= 50)%nat.
Proof.
  unfold batches. split; [by apply make_batches_concat|].
  split; [by apply make_batches_length|].
  intros j b Hb. apply make_batches_lookup in Hb as (Hn & Hi & Hr & Hl); [|done].
  unfold BATCH_SIZE in *.
  split; [lia|]. split; [lia|]. split; [done|].
  rewrite Hr, length_take, length_drop. lia.
Qed.

Context {V : Type}.
Variable dumps_create : string -> string -> string.
Variable dumps_record : Record V -> string.

(** X14: over the bulk bodies of all the batches, the document of row
    [k] of the table is created with [_id] the decimal form of [k],
    whatever batch the row falls in, and is followed by the record
    without its missing values; two lines are sent per row. *)
Theorem X14_document_ids_are_row_positions (index_name : string)
    (rows : list (Record V)) (k : nat) (row : Record V) :
  rows !! k = Some row ->
  length (all_bulk_lines dumps_create dumps_record index_name rows) =
    (2 * length rows)%nat /\
  all_bulk_lines dumps_create dumps_record index_name rows !! (2 * k)%nat =
    Some (dumps_create index_name (pretty (Z.of_nat k))) /\
  all_bulk_lines dumps_create dumps_record index_name rows !! (2 * k + 1)%nat =
    Some (dumps_record (_filter_nan_values row)).
Proof.
  intros Hk. unfold all_bulk_lines, batches.
  rewrite make_batches_lines by done.
  split; [apply bulk_lines_length|].
  by apply (bulk_lines_lookup dumps_create dumps_record index_name rows 0 k row).
Qed.

(** X15: [_filter_nan_values] keeps, in their order, exactly the
    entries whose value is neither [None] nor a missing scalar; a list
    is kept whatever it holds; filtering twice is filtering once; and a
    record comes back unchanged exactly when it has no such value. *)
Theorem X15_filter_keeps_valid_entries (record : Record V) :
  (forall k v, (k, v) ∈ _filter_nan_values record <->
               (k, v) ∈ record /\ v <> CNone /\ v <> CMissing) /\
  (forall k xs, (k, CSequence xs) ∈ record ->
                (k, CSequence xs) ∈ _filter_nan_values record) /\
  sublist (_filter_nan_values record) record /\
  _filter_nan_values (_filter_nan_values record) = _filter_nan_values record /\
  (_filter_nan_values record = record <->
   forall k v, (k, v) ∈ record -> v <> CNone /\ v <> CMissing).
Proof.
  assert (Hv : forall v : Cell V,
            _is_valid_value v = true <-> v <> CNone /\ v <> CMissing).
  { intros [| | |]; simpl; split; try done; intros [? ?]; done. }
  split; [|split; [|split; [|split]]].
  - intros k v. rewrite filter_nan_elem. simpl. by rewrite Hv.
  - intros k xs Hin. by apply filter_nan_elem.
  - apply filter_nan_sublist.
  - apply filter_nan_idempotent.
  - rewrite filter_nan_fixpoint. split.
    + intros H k v Hin. apply Hv. by apply (H (k, v)).
    + intros H [k v] Hin. apply Hv. by apply (H k v).
Qed.

(** X16: [_parse_bulk_errors] raises exactly when the response has its
    [errors] flag set and one of its create items carries an error
    whose type is not [version_conflict_engine_exception]; what it
    raises is a plain [Exception], after at least two messages to the
    reporter.  A response without the flag is accepted without a
    message, whatever its items hold. *)
Theorem X16_bulk_errors_raise_iff (response : BulkResponse) (n : Z) :
  ((exists msgs e, _parse_bulk_errors response n = (msgs, Some e)) <->
   errors response = true /\
   exists d e, Some {| doc_id := d; error := Some e |} ∈ items response /\
               error_type e <> "version_conflict_engine_exception") /\
  (forall msgs e, _parse_bulk_errors response n = (msgs, Some e) ->
     e = plain_exception (exc_msg e) /\ (2 <= length msgs)%nat) /\
  (errors response = false -> _parse_bulk_errors response n = ([], None)).
Proof.
  split; [split|split].
  - intros (msgs & e & Hp).
    destruct (parse_bulk_errors_cases response n)
      as [[msgs' Hp']|(msgs' & msg & Hp' & He & Hc)]; [congruence|].
    split; [done|]. by apply (triage_count_inv _ ([], [], 0)).
  - intros (He & d & e & Hin & Hne).
    destruct (parse_bulk_errors_raises response n d e He Hin Hne)
      as (msgs & msg & Hp).
    by exists msgs, (plain_exception msg).
  - intros msgs e Hp. unfold _parse_bulk_errors in Hp.
    destruct (errors response); simpl in Hp; [|discriminate Hp].
    destruct (triage (items response) ([], [], 0)) as [[ms tbl] c].
    destruct (0 <? c); [|discriminate Hp].
    injection Hp as <- <-. split; [done|].
    rewrite length_app. simpl. lia.
  - intros He. unfold _parse_bulk_errors. by rewrite He.
Qed.

Context {Cluster C : Type}.
Variable truncate : string -> Cluster -> PyException + Cluster.
Variable bulk_index : string -> Cluster -> (PyException + BulkResponse) * Cluster.
Variable start_progress : nat -> C -> C.
Variable stop_progress : C -> C.
Variable on_progress : ProgressCallback C.

(** X17: on a table with rows, and a schedule long enough for the
    workers, [ingest] returns.  When [delete] is set and truncating the
    index raises, that exception leaves [ingest] before any request is
    sent and before the progress bar starts.  Otherwise [ingest] raises
    nothing and its last message is the one of success with the number
    of rows of the table, whatever the cluster answered to the bulk
    requests and however many batches failed. *)
Theorem X17_ingest_reports_success_whatever_failed (delete : bool)
    (index_name : string) (max_attempts : Z) (rows : list (Record V))
    (schedule : list nat) (cl : Cluster) (c0 : C) :
  rows <> [] ->
  (length (batches rows) * (4 * Z.to_nat (max_attempts - 1) + 4) + 10
     <= length schedule)%nat ->
  exists out,
    ingest dumps_create dumps_record truncate bulk_index start_progress
      stop_progress on_progress delete index_name max_attempts rows schedule
      cl c0 = Some out /\
    match (if delete then truncate index_name cl else inr cl) with
    | inl e => raised out = Some e /\ cluster out = cl /\ progress out = c0
    | inr _ =>
        raised out = None /\
        last (messages out) = Some (completed_message rows)
    end.
Proof.
  intros Hrows Hb. destruct rows as [|row0 rows']; [done|].
  set (rs := row0 :: rows') in *. unfold ingest. fold rs.
  assert (Hfin : forall cl1 c1,
            forallb is_finished
              (run (process_batch (send_batch dumps_create dumps_record
                                     bulk_index index_name))
                 (ingest_config max_attempts on_progress) schedule
                 (start (ingest_config max_attempts on_progress)
                    (map (fun b => PyVal (Batch b)) (batches rs))
                    (cl1, []) c1)).2 = true).
  { intros cl1 c1. apply process_returns.
    rewrite start_budget, length_map. exact Hb. }
  destruct delete.
  - destruct (truncate index_name cl) as [e|cl'].
    + eexists. split; [reflexivity|]. done.
    + rewrite Hfin. eexists. split; [reflexivity|].
      split; [done|]. cbn [messages]. by rewrite !app_assoc, last_snoc.
  - rewrite Hfin. eexists. split; [reflexivity|].
    split; [done|]. cbn [messages]. by rewrite !app_assoc, last_snoc.
Qed.

End IngestExtras.

Section IngestRetryExtras.

Import AsyncBatchProcessor ProcessorSpec ProcessorLedger Ingest.

Context {Row Cluster C : Type}.
Variable bulk_index :
  BatchItem Row -> Cluster -> (PyException + BulkResponse) * Cluster.

(** X18: as long as the cluster answers the bulk requests (the call
    itself does not raise), the processor of [ingest] retries nothing,
    whatever [max_attempts] is: a batch whose response reports errors
    fails after its one request, and the cluster receives one request
    per batch. *)
Theorem X18_answered_batches_are_sent_once (max_attempts : Z)
    (on_progress : ProgressCallback C) (rows : list Row)
    (schedule : list nat) (cl : Cluster) (c0 : C) :
  (forall b cl, exists response cl', bulk_index b cl = (inr response, cl')) ->
  (length (batches rows) * (4 * Z.to_nat (max_attempts - 1) + 4) + 10
     <= length schedule)%nat ->
  exists r,
    process (counting (process_batch bulk_index))
      (ingest_config max_attempts on_progress)
      (map (fun b => PyVal (Batch b)) (batches rows)) schedule
      ((cl, []), 0%nat) c0 = Some r /\
    total_retried r = 0 /\
    calls (run (counting (process_batch bulk_index))
             (ingest_config max_attempts on_progress) schedule
             (start (ingest_config max_attempts on_progress)
                (map (fun b => PyVal (Batch b)) (batches rows))
                ((cl, []), 0%nat) c0)) = length (batches rows).
Proof.
  intros Hans Hb.
  set (config := ingest_config max_attempts on_progress).
  set (items := map (fun b => PyVal (Batch b)) (batches rows)).
  assert (Hbud : (budget (start config items ((cl, @nil string), 0%nat) c0)
                  <= length schedule)%nat).
  { rewrite start_budget. unfold items. rewrite length_map. exact Hb. }
  destruct (process_returns (counting (process_batch bulk_index)) config items
              schedule ((cl, @nil string), 0%nat) c0 Hbud) as [Hfin Hp].
  eexists. split; [exact Hp|]. simpl.
  destruct (no_retry_run (counting (process_batch bulk_index)) config schedule _
              (counting_never_retries _ config
                 (ingest_never_retries bulk_index max_attempts on_progress Hans))
              (no_retry_start config items ((cl, @nil string), 0%nat) c0)) as [Hr _].
  split; [exact Hr|].
  assert (Hn : 1 <= num_workers config) by (unfold config; simpl; unfold NUM_WORKERS; lia).
  pose proof (run_invariant (counting (process_batch bulk_index)) config items
                schedule _
                (start_invariant (counting (process_batch bulk_index)) config
                   items ((cl, @nil string), 0%nat) c0 Hn)) as Hinv.
  destruct (finished_nothing_pending _ items _ Hinv Hfin) as (Hq & _ & Ha).
  pose proof (run_calls (process_batch bulk_index) config schedule
                (start config items ((cl, @nil string), 0%nat) c0)) as Hl.
  rewrite start_calls in Hl. unfold call_ledger in Hl.
  rewrite Hq, Ha, Hr in Hl. cbn [length] in Hl.
  assert (Hlen : length items = length (batches rows)) by apply length_map.
  lia.
Qed.

End IngestRetryExtras.

Section IngestExtraWitnesses.

Import AsyncBatchProcessor ProcessorSpec ProcessorLedger Ingest IngestBody.
Import Examples IngestExamples.

Lemma X14_document_ids_are_row_positions_witness :
  replicate 120 a_record !! 75%nat = Some a_record /\
  length (all_bulk_lines slash_create count_record "products"
            (replicate 120 a_record)) = (2 * length (replicate 120 a_record))%nat /\
  all_bulk_lines slash_create count_record "products" (replicate 120 a_record)
    !! (2 * 75)%nat = Some (slash_create "products" (pretty (Z.of_nat 75))) /\
  all_bulk_lines slash_create count_record "products" (replicate 120 a_record)
    !! (2 * 75 + 1)%nat = Some (count_record (_filter_nan_values a_record)).
Proof.
  split; [reflexivity|].
  apply (X14_document_ids_are_row_positions slash_create count_record
           "products" (replicate 120 a_record) 75 a_record).
  reflexivity.
Defined.

Lemma X17_ingest_reports_success_whatever_failed_witness :
  exists out,
    ingest slash_create count_record truncated rejecting_index
      (fun _ c => c) (fun c => c) quiet_progress false "products" 5
      (replicate 60 a_record) (replicate 50 0%nat) 0%nat tt = Some out /\
    raised out = None /\
    last (messages out) = Some (completed_message (replicate 60 a_record)).
Proof.
  apply (X17_ingest_reports_success_whatever_failed slash_create count_record
           truncated rejecting_index (fun _ c => c) (fun c => c) quiet_progress
           false "products" 5 (replicate 60 a_record) (replicate 50 0%nat)
           0%nat tt);
    [discriminate | vm_compute; lia].
Defined.

Lemma X18_answered_batches_are_sent_once_witness :
  exists r,
    process (counting (process_batch rejecting_cluster))
      (ingest_config 5 quiet_progress)
      (map (fun b => PyVal (Batch b)) (batches (replicate 120 tt)))
      (replicate 70 0%nat) ((0%nat, []), 0%nat) tt = Some r /\
    total_retried r = 0 /\
    calls (run (counting (process_batch rejecting_cluster))
             (ingest_config 5 quiet_progress) (replicate 70 0%nat)
             (start (ingest_config 5 quiet_progress)
                (map (fun b => PyVal (Batch b)) (batches (replicate 120 tt)))
                ((0%nat, []), 0%nat) tt)) = length (batches (replicate 120 tt)).
Proof.
  apply (X18_answered_batches_are_sent_once rejecting_cluster 5 quiet_progress
           (replicate 120 tt) (replicate 70 0%nat) 0%nat tt);
    [intros b cl; by do 2 eexists | vm_compute; lia].
Defined.

End IngestExtraWitnesses.

(** *** [lib/bedrock] and [lib/vectorize_columns.py] *)

Section DictFacts.

Import Embeddings.

Context {K V : Type} `{EqDecision K}.

Lemma dict_set_twice (k : K) (v v' : V) (d : list (K * V)) :
  dict_set k v' (dict_set k v d) = dict_set k v' d.
Proof.
  induction d as [|[k0 v0] d IH]; simpl.
  - by rewrite decide_True.
  - destruct (decide (k0 = k)) as [->|Hne]; simpl.
    + by rewrite decide_True.
    + rewrite decide_False by done. by rewrite IH.
Qed.

Lemma dict_get_set (k : K) (v : V) (d : list (K * V)) :
  dict_get k (dict_set k v d) = Some v.
Proof.
  induction d as [|[k0 v0] d IH]; simpl.
  - by rewrite decide_True.
  - destruct (decide (k0 = k)) as [->|Hne]; simpl.
    + by rewrite decide_True.
    + by rewrite decide_False.
Qed.

End DictFacts.

Section ComprehensionFacts.

Import AsyncBatchProcessor Embeddings.

Context {X Y : Type}.

Lemma comprehension_total (k : X -> PyException + Y) (g : X -> Y) (l : list X) :
  (forall x, x ∈ l -> k x = inr (g x)) ->
  comprehension k l = inr (map g l).
Proof.
  induction l as [|x l IH]; intros Hk; [done|].
  simpl. rewrite (Hk x) by left. simpl.
  rewrite IH by (intros y Hy; apply Hk; by right). done.
Qed.

Lemma comprehension_fmap {W : Type} (k : X -> PyException + Y) (h : W -> X)
    (g : W -> Y) (l : list W) :
  (forall w, w ∈ l -> k (h w) = inr (g w)) ->
  comprehension k (map h l) = inr (map g l).
Proof.
  induction l as [|w l IH]; intros Hk; [done|].
  simpl. rewrite (Hk w) by left. simpl.
  rewrite IH by (intros y Hy; apply Hk; by right). done.
Qed.

Lemma comprehension_length (k : X -> PyException + Y) (l : list X) (ys : list Y) :
  comprehension k l = inr ys -> length ys = length l.
Proof.
  revert ys. induction l as [|x l IH]; intros ys Hc; simpl in Hc.
  - by injection Hc as <-.
  - destruct (k x) as [e|y]; [discriminate Hc|]. simpl in Hc.
    destruct (comprehension k l) as [e|ys']; [discriminate Hc|]. simpl in Hc.
    injection Hc as <-. simpl. f_equal. by apply IH.
Qed.

Lemma comprehension_raises (k : X -> PyException + Y) (l : list X)
    (x : X) (e : PyException) :
  x ∈ l -> k x = inl e -> exists e', comprehension k l = inl e'.
Proof.
  intros Hin Hx. induction l as [|x0 l IH]; [by apply elem_of_nil in Hin|].
  simpl. apply elem_of_cons in Hin as [<-|Hin].
  - rewrite Hx. by eexists.
  - destruct (k x0) as [e0|y]; [by eexists|]. simpl.
    destruct (IH Hin) as [e' ->]. by eexists.
Qed.

End ComprehensionFacts.

Section AdapterFacts.

Import AsyncBatchProcessor Embeddings VectorizeColumns EmbeddingExamples.

Context {E : Type}.
Variable str_response : Response E -> string.

Lemma embedding_type_round_trip (t : EmbeddingType) :
  embedding_type_of (embedding_type_value t) = inr t.
Proof. by destruct t. Qed.

Lemma embedding_type_of_inv (key : string) (t : EmbeddingType) :
  embedding_type_of key = inr t -> embedding_type_value t = key.
Proof.
  unfold embedding_type_of, dict_of. simpl.
  repeat (destruct (decide (_ = key)) as [<-|?]; [by intros [= <-]|]).
  discriminate.
Qed.

Lemma model_id_round_trip (m : EmbeddingModelId) :
  get_model_id (model_id_value m) = inr m.
Proof. by destruct m. Qed.

Lemma get_model_id_inv (s : string) (m : EmbeddingModelId) :
  get_model_id s = inr m -> model_id_value m = s.
Proof.
  unfold get_model_id, dict_of. simpl.
  repeat (destruct (decide (_ = s)) as [<-|?]; [by intros [= <-]|]).
  discriminate.
Qed.

Lemma get_model_id_error (s : string) (e : PyException) :
  get_model_id s = inl e ->
  e = value_error ("Unsupported embedding model ID: " +:+ s) /\
  forall m, model_id_value m <> s.
Proof.
  unfold get_model_id, dict_of. simpl.
  repeat (destruct (decide (_ = s)) as [<-|?]; [discriminate|]).
  intros [= <-]. split; [done|]. by intros [].
Qed.

(** Under one key the comprehension keeps the last vector. *)
Lemma cohere_values_last (key : string) (t : EmbeddingType) (value : list E)
    (v : E) (acc : list (EmbeddingType * E)) :
  embedding_type_of key = inr t ->
  last value = Some v ->
  cohere_values key value acc = inr (dict_set t v acc).
Proof.
  intros Ht. revert acc. induction value as [|x value IH]; intros acc Hl; [done|].
  simpl. rewrite Ht. simpl. destruct value as [|y value].
  - simpl in Hl. by injection Hl as ->.
  - rewrite IH by done. by rewrite dict_set_twice.
Qed.

Lemma cohere_values_nil (key : string) (acc : list (EmbeddingType * E)) :
  cohere_values key [] acc = inr acc.
Proof. reflexivity. Qed.

Lemma format_output_length (adapter : EmbeddingModelId)
    (responses : list (Response E)) (outputs : list (EmbeddingModelOutput E)) :
  format_output str_response adapter responses = inr outputs ->
  length outputs = length responses.
Proof.
  unfold format_output.
  destruct (comprehension (parse_response adapter) responses) as [e|outs] eqn:Hc.
  - destruct (isinstance_of e "KeyError"); discriminate.
  - intros [= <-]. by apply comprehension_length in Hc.
Qed.

Lemma format_output_titan (embed : string -> E) (texts : list string)
    (it : InputType) (ets : list EmbeddingType) (dim : Z) :
  format_output str_response TITAN
    (map (endpoint embed) (format_input TITAN texts it ets dim)) =
  inr (map (fun t => {| embeddings := [(FLOAT, embed t)] |}) texts).
Proof.
  unfold format_output, format_input. rewrite map_map.
  by rewrite (comprehension_fmap _ _
                (fun t => {| embeddings := [(FLOAT, embed t)] |})).
Qed.

Lemma format_output_cohere (embed : string -> E) (texts : list string)
    (it : InputType) (dim : Z) (t : string) :
  last texts = Some t ->
  format_output str_response COHERE
    (map (endpoint embed) (format_input COHERE texts it [FLOAT] dim)) =
  inr [{| embeddings := [(FLOAT, embed t)] |}].
Proof.
  intros Hl. unfold format_output, format_input. simpl.
  assert (Hv : last (map embed texts) = Some (embed t))
    by (by rewrite fmap_last, Hl).
  by rewrite (cohere_values_last "float" FLOAT (map embed texts) (embed t) []
                eq_refl Hv).
Qed.

End AdapterFacts.

Section TailFacts.

Import AsyncBatchProcessor Embeddings VectorizeColumns.

Context {E : Type}.

Local Abbreviation Outputs := (list (EmbeddingModelOutput E)).



Lemma first_exception_values (outs : list Outputs) :
  first_exception (map PyVal outs) = None.
Proof. by induction outs. Qed.

Lemma filter_values (outs : list Outputs) :
  List.filter (fun result : PyObj Outputs => negb (is_exception result))
    (map PyVal outs) = map PyVal outs.
Proof. induction outs as [|o outs IH]; [done|]. simpl. by rewrite IH. Qed.

Lemma batch_embeddings_values (vectors : list (list E)) :
  batch_embeddings FLOAT
    (map (fun vs => PyVal (map (fun v => {| embeddings := [(FLOAT, v)] |}) vs))
       vectors) =
  inr vectors.
Proof.
  unfold batch_embeddings.
  rewrite <- (map_map (fun vs => map (fun v => {| embeddings := [(FLOAT, v)] |}) vs)
                PyVal).
  rewrite filter_values, map_map.
  rewrite (comprehension_fmap _ _ (fun vs => vs)); [by rewrite map_id|].
  intros vs _. simpl.
  rewrite (comprehension_fmap _ _ (fun v => v)); [by rewrite map_id|].
  intros v _. reflexivity.
Qed.

(** Column [i] when every row has an [i]-th vector, and when every row
    has one vector only. *)
Lemma col_vectors_nth (i : nat) (batches : list (list E)) (pick : list E -> E) :
  (forall batch, batch ∈ batches ->
     batch !! (if (i <? length batch)%nat then i else 0%nat) = Some (pick batch)) ->
  col_vectors i batches = inr (map pick batches).
Proof.
  intros Hp. unfold col_vectors. apply comprehension_total.
  intros batch Hin. by rewrite (Hp batch Hin).
Qed.

Lemma col_vectors_empty (i : nat) (batches : list (list E)) :
  [] ∈ batches -> exists e, col_vectors i batches = inl e.
Proof.
  intros Hin. unfold col_vectors.
  by apply (comprehension_raises _ _ [] index_error).
Qed.

Lemma assign_columns_all (pick : nat -> list E -> E) (columns : list string)
    (suffix : string) (batches : list (list E)) (i : nat) :
  (forall k batch, (k < length columns)%nat -> batch ∈ batches ->
     batch !! (if (i + k <? length batch)%nat then (i + k)%nat else 0%nat) =
     Some (pick (i + k)%nat batch)) ->
  assign_columns i columns suffix batches =
  (imap (fun k column => (column +:+ suffix, map (pick (i + k)%nat) batches))
     columns, None).
Proof.
  revert i. induction columns as [|c columns IH]; intros i Hp; [done|].
  simpl. rewrite (col_vectors_nth i batches (pick i)).
  - rewrite (IH (S i)).
    + rewrite Nat.add_0_r. do 2 f_equal.
      apply imap_ext. intros k x _. simpl. do 3 f_equal. lia.
    + intros k batch Hk Hin.
      replace (S i + k)%nat with (i + S k)%nat by lia.
      apply Hp; [simpl; lia|done].
  - intros batch Hin. specialize (Hp 0%nat batch). rewrite Nat.add_0_r in Hp.
    apply Hp; [simpl; lia|done].
Qed.

Lemma first_exception_vectors (vectors : list (list E)) :
  first_exception
    (map (fun vs => PyVal (map (fun v => {| embeddings := [(FLOAT, v)] |}) vs))
       vectors) = None.
Proof. by induction vectors. Qed.

(** The per-column strategy on rows that all came back with vectors. *)
Lemma report_per_column (columns : list string) (suffix : string)
    (input_tokens output_tokens : Z) (r : ProcessorResult Outputs)
    (vectors : list (list E)) :
  results r =
    map (fun vs => PyVal (map (fun v => {| embeddings := [(FLOAT, v)] |}) vs))
      vectors ->
  raised (report_and_assign PerColumn columns suffix FLOAT input_tokens
            output_tokens r) = (assign_columns 0 columns suffix vectors).2 /\
  assigned (report_and_assign PerColumn columns suffix FLOAT input_tokens
              output_tokens r) = (assign_columns 0 columns suffix vectors).1.
Proof.
  intros Hr. unfold report_and_assign. rewrite Hr.
  rewrite first_exception_vectors, batch_embeddings_values.
  by destruct (assign_columns 0 columns suffix vectors).
Qed.

End TailFacts.

(** *** Further properties of [lib/bedrock] and [lib/vectorize_columns.py] *)

Section EmbeddingExtras.

Import AsyncBatchProcessor ProcessorSpec Embeddings VectorizeColumns.
Import EmbeddingExamples.

(** X19: [get_model_id] and [EmbeddingType(...)] are the inverses of
    [.value]: the value of a member is mapped back to the member, a
    string that is accepted is the value of the member returned, and a
    string that is the value of no model is refused with a
    [ValueError] that names it. *)
Theorem X19_enum_values_round_trip :
  (forall m, get_model_id (model_id_value m) = inr m) /\
  (forall s m, get_model_id s = inr m -> model_id_value m = s) /\
  (forall s e, get_model_id s = inl e ->
     e = value_error ("Unsupported embedding model ID: " +:+ s) /\
     forall m, model_id_value m <> s) /\
  (forall t, embedding_type_of (embedding_type_value t) = inr t) /\
  (forall key t, embedding_type_of key = inr t -> embedding_type_value t = key).
Proof.
  split; [apply model_id_round_trip|].
  split; [apply get_model_id_inv|].
  split; [apply get_model_id_error|].
  split; [apply embedding_type_round_trip | apply embedding_type_of_inv].
Qed.

Context {E : Type}.
Variable str_response : Response E -> string.

Local Abbreviation Outputs := (list (EmbeddingModelOutput E)).

(** X20: the Cohere adapter sends all the texts in one payload, and of
    the vectors a response lists under a type its output keeps the last
    one only. *)
Theorem X20_cohere_output_keeps_last_vector (inputs : list string)
    (input_type : InputType) (embedding_types : list EmbeddingType)
    (output_dimension : Z) (response : Response E) (key : string)
    (t : EmbeddingType) (vs : list E) (v : E) :
  r_embeddings response = Some (ByType [(key, vs)]) ->
  embedding_type_of key = inr t ->
  last vs = Some v ->
  length (format_input COHERE inputs input_type embedding_types output_dimension)
    = 1%nat /\
  format_output str_response COHERE [response] =
    inr [{| embeddings := [(t, v)] |}].
Proof.
  intros Hr Ht Hl. split; [done|].
  unfold format_output. simpl. rewrite Hr. simpl.
  by rewrite (cohere_values_last key t vs v [] Ht Hl).
Qed.

(** X21: with the Titan adapter and an endpoint that answers every
    request, the per-column strategy gives column [i] of every row the
    vector of the text of that column: one payload and one output per
    text, in the order of the columns. *)
Theorem X21_titan_columns_get_their_own_vectors (embed : string -> E)
    (columns : list string) (suffix : string) (rows : list (list string))
    (output_dimension input_tokens output_tokens : Z)
    (r : ProcessorResult Outputs) :
  (forall texts, texts ∈ rows -> length texts = length columns) ->
  results r =
    map (fun texts => row_result str_response TITAN embed texts output_dimension)
      rows ->
  raised (report_and_assign PerColumn columns suffix FLOAT input_tokens
            output_tokens r) = None /\
  assigned (report_and_assign PerColumn columns suffix FLOAT input_tokens
              output_tokens r) =
    imap (fun i column =>
            (column +:+ suffix,
             map (fun texts => embed (nth i texts EmptyString)) rows))
      columns.
Proof.
  intros Hlen Hres.
  assert (Hr : results r =
               map (fun vs => PyVal (map (fun v => {| embeddings := [(FLOAT, v)] |}) vs))
                 (map (map embed) rows)).
  { rewrite Hres, map_map. apply map_ext. intros texts.
    unfold row_result. by rewrite format_output_titan, map_map. }
  destruct (report_per_column columns suffix input_tokens output_tokens r _ Hr)
    as [-> ->].
  rewrite (assign_columns_all
             (fun k batch => default (embed EmptyString) (batch !! k))).
  - split; [done|]. cbn [fst].
    apply imap_ext. intros i c _. simpl. f_equal.
    rewrite map_map. apply map_ext. intros texts.
    rewrite list_lookup_fmap, nth_lookup. by destruct (texts !! i).
  - intros k batch Hk Hin. simpl.
    apply list_elem_of_fmap in Hin as (texts & -> & Hin).
    rewrite length_map, (Hlen texts Hin).
    apply Nat.ltb_lt in Hk as Hk'. rewrite Hk'.
    destruct (lookup_lt_is_Some_2 (map embed texts) k) as [v Hv].
    { rewrite length_map, (Hlen texts Hin). done. }
    change (embed <$> texts) with (map embed texts). by rewrite Hv.
Qed.

(** X22: with the Cohere adapter and an endpoint that answers every
    request, the per-column strategy gives every column of a row the
    same vector, the one of the text of the last column: the single
    payload of the row comes back as a single output that keeps the
    last vector, and every column falls back on it. *)
Theorem X22_cohere_columns_share_last_vector (embed : string -> E)
    (columns : list string) (suffix : string) (rows : list (list string))
    (output_dimension input_tokens output_tokens : Z)
    (r : ProcessorResult Outputs) :
  (forall texts, texts ∈ rows -> texts <> []) ->
  results r =
    map (fun texts => row_result str_response COHERE embed texts output_dimension)
      rows ->
  raised (report_and_assign PerColumn columns suffix FLOAT input_tokens
            output_tokens r) = None /\
  assigned (report_and_assign PerColumn columns suffix FLOAT input_tokens
              output_tokens r) =
    map (fun column =>
           (column +:+ suffix,
            map (fun texts => embed (default EmptyString (last texts))) rows))
      columns.
Proof.
  intros Hne Hres.
  assert (Hr : results r =
               map (fun vs => PyVal (map (fun v => {| embeddings := [(FLOAT, v)] |}) vs))
                 (map (fun texts => [embed (default EmptyString (last texts))])
                    rows)).
  { rewrite Hres, map_map. apply list_eq. intros j.
    change (map ?f rows) with (f <$> rows).
    rewrite !list_lookup_fmap. destruct (rows !! j) as [texts|] eqn:Hj; [|done].
    simpl. f_equal. unfold row_result.
    assert (Hin : texts ∈ rows) by by eapply list_elem_of_lookup_2.
    destruct (last texts) as [t|] eqn:Hl.
    - by rewrite (format_output_cohere str_response embed texts _ _ t Hl).
    - apply last_None in Hl. by apply Hne in Hin. }
  destruct (report_per_column columns suffix input_tokens output_tokens r _ Hr)
    as [-> ->].
  rewrite (assign_columns_all
             (fun k batch => default (embed EmptyString) (batch !! 0%nat))).
  - split; [done|]. cbn [fst].
    rewrite <- (imap_const (fun column =>
                  (column +:+ suffix,
                   map (fun texts => embed (default EmptyString (last texts))) rows))).
    apply imap_ext. intros i c _. simpl. f_equal.
    rewrite map_map. by apply map_ext.
  - intros k batch Hk Hin. simpl.
    apply list_elem_of_fmap in Hin as (texts & -> & Hin). simpl.
    by destruct k.
Qed.


End EmbeddingExtras.

Section EmbeddingExtraWitnesses.

Import AsyncBatchProcessor ProcessorSpec Embeddings VectorizeColumns.
Import EmbeddingExamples.

Lemma X20_cohere_output_keeps_last_vector_witness :
  length (format_input COHERE ["ab"; "cde"] CLASSIFICATION [FLOAT] 1024) = 1%nat /\
  format_output opaque_response COHERE
    [{| r_embedding := None;
        r_embeddings := Some (ByType [("float", [2; 3]%nat)]) |}] =
    inr [{| embeddings := [(FLOAT, 3%nat)] |}].
Proof.
  apply (X20_cohere_output_keeps_last_vector opaque_response ["ab"; "cde"]
           CLASSIFICATION [FLOAT] 1024
           {| r_embedding := None;
              r_embeddings := Some (ByType [("float", [2; 3]%nat)]) |}
           "float" FLOAT [2; 3]%nat 3%nat);
    reflexivity.
Defined.

Lemma X21_titan_columns_get_their_own_vectors_witness :
  raised (report_and_assign PerColumn ["name"; "brand"] "_embedding" FLOAT 7 0
            {| results := map (fun texts =>
                                 row_result opaque_response TITAN String.length
                                   texts 1024) two_rows;
               total_processed := 2; total_failed := 0; total_retried := 0 |})
    = None /\
  assigned (report_and_assign PerColumn ["name"; "brand"] "_embedding" FLOAT 7 0
              {| results := map (fun texts =>
                                   row_result opaque_response TITAN String.length
                                     texts 1024) two_rows;
                 total_processed := 2; total_failed := 0; total_retried := 0 |})
    = imap (fun i column =>
              (column +:+ "_embedding",
               map (fun texts => String.length (nth i texts EmptyString)) two_rows))
        ["name"; "brand"].
Proof.
  apply (X21_titan_columns_get_their_own_vectors opaque_response String.length
           ["name"; "brand"] "_embedding" two_rows 1024 7 0);
    [apply Forall_forall; repeat constructor | reflexivity].
Defined.

Lemma X22_cohere_columns_share_last_vector_witness :
  raised (report_and_assign PerColumn ["name"; "brand"] "_embedding" FLOAT 7 0
            {| results := map (fun texts =>
                                 row_result opaque_response COHERE String.length
                                   texts 1024) two_rows;
               total_processed := 2; total_failed := 0; total_retried := 0 |})
    = None /\
  assigned (report_and_assign PerColumn ["name"; "brand"] "_embedding" FLOAT 7 0
              {| results := map (fun texts =>
                                   row_result opaque_response COHERE String.length
                                     texts 1024) two_rows;
                 total_processed := 2; total_failed := 0; total_retried := 0 |})
    = map (fun column =>
             (column +:+ "_embedding",
              map (fun texts => String.length (default EmptyString (last texts)))
                two_rows))
        ["name"; "brand"].
Proof.
  apply (X22_cohere_columns_share_last_vector opaque_response String.length
           ["name"; "brand"] "_embedding" two_rows 1024 7 0);
    [apply Forall_forall; repeat constructor; discriminate | reflexivity].
Defined.

End EmbeddingExtraWitnesses.
